(** * x402 payment gateway: the per-request payment pipeline

    A shallow embedding of the gateway's payment middleware
    ([src/middleware/x402.js]), of its Redis adapter ([src/utils/redis.js])
    and of the network table ([src/config/routes.js]), followed by the
    properties of the pipeline.

    Conventions of the embedding:
    - a JavaScript value that may be [undefined] is an [option]; the
      truthiness tests of the source ([!x], [a || b]) are written out;
    - BigInt and integral Number values are [Z];
    - the remote services (Redis transport, RPC nodes, facilitators, the
      typed-data signature check of viem) are fields of a [World] record:
      the code is a function of their answers;
    - a thrown exception is an explicit outcome. *)

From Stdlib Require Import ZArith String Ascii List Bool Lia.
From stdpp Require Import base option gmap strings list pretty.
Import ListNotations.
Local Open Scope Z_scope.

(* ================================================================== *)
(** ** JavaScript helpers *)
(* ================================================================== *)

Module Js.

(** [s] is truthy when it is defined and not the empty string. *)
Definition truthy (o : option string) : option string :=
  match o with
  | Some s => if decide (s = "") then None else Some s
  | None => None
  end.

(** [a || b] on possibly undefined strings. *)
Definition or (a b : option string) : option string :=
  match truthy a with
  | Some s => Some s
  | None => b
  end.

(** [a ?? b]. *)
Definition nullish {A : Type} (a : option A) (b : A) : A :=
  match a with
  | Some x => x
  | None => b
  end.

Definition lowerAscii (c : ascii) : ascii :=
  let n := N_of_ascii c in
  if ((65 <=? n) && (n <=? 90))%N then ascii_of_N (n + 32) else c.

(** [String.prototype.toLowerCase] on the ASCII range. *)
Fixpoint toLowerCase (s : string) : string :=
  match s with
  | EmptyString => EmptyString
  | String c r => String (lowerAscii c) (toLowerCase r)
  end.

(** [Number.MAX_SAFE_INTEGER]: up to it, in magnitude, an integer is a
    number of its own. *)
Definition MAX_SAFE_INTEGER : Z := 2 ^ 53 - 1.

(** Rendering of an undefined value inside a template literal. *)
Definition show (o : option string) : string :=
  match o with
  | Some s => s
  | None => "undefined"
  end.

End Js.

(* ================================================================== *)
(** ** The Redis server: values, entries and commands *)
(* ================================================================== *)

(** Metadata the middleware attaches to a nonce record. *)
Record NonceMeta := {
  nm_network : option string;
  nm_payer : string;
  nm_route : string;
  nm_vm : string;
  nm_txHash : option string;
  nm_blockNumber : option Z;
}.

Record NonceRecord := {
  nr_status : option string;
  nr_timestamp : Z;
  nr_meta : NonceMeta;
}.

(** The settlement summary kept in a receipt and in the idempotency cache. *)
Record PaymentResponseData := {
  pr_success : bool;
  pr_txHash : option string;
  pr_network : option string;
  pr_blockNumber : option Z;
  pr_facilitator : option string;
}.

(** A receipt header is the base64 text of the JSON of the summary; the
    encoding is injective, so the header is represented by what it encodes. *)
Inductive ReceiptHeader :=
| Base64Json (d : PaymentResponseData).

Record IdemResponse := {
  ir_paymentResponseHeader : option ReceiptHeader;
  ir_settlement : option PaymentResponseData;
}.

Record IdemRecord := {
  id_timestamp : Z;
  id_response : option IdemResponse;
}.

(** What a key of the store can hold. *)
Inductive RedisValue :=
| VNonce (r : NonceRecord)
| VIdem (r : IdemRecord)
| VNum (n : Z).

Record Entry := {
  e_value : RedisValue;
  e_ttl : option Z;          (* seconds, as last set by EX / EXPIRE *)
}.

Abbreviation Store := (gmap string Entry).

Module Redis.

Inductive Reply :=
| ROk
| RNil
| RBulk (v : RedisValue)
| RInt (n : Z)
| RError.

(** [SET key value NX EX seconds] *)
Definition SET_NX_EX (k : string) (v : RedisValue) (ex : Z) (s : Store)
  : Store * Reply :=
  match s !! k with
  | Some _ => (s, RNil)
  | None => (<[k := {| e_value := v; e_ttl := Some ex |}]> s, ROk)
  end.

(** [SET key value EX seconds] *)
Definition SET_EX (k : string) (v : RedisValue) (ex : Z) (s : Store)
  : Store * Reply :=
  (<[k := {| e_value := v; e_ttl := Some ex |}]> s, ROk).

Definition GET (k : string) (s : Store) : Reply :=
  match s !! k with
  | Some e => RBulk (e_value e)
  | None => RNil
  end.

Definition DEL (k : string) (s : Store) : Store * Reply :=
  (delete k s, RInt (match s !! k with Some _ => 1 | None => 0 end)).

(** [INCR] and [DECR] keep the TTL of an existing key and create a
    missing one without TTL; they fail on a value that is not an integer. *)
Definition INCRBY (d : Z) (k : string) (s : Store) : Store * Reply :=
  match s !! k with
  | None => (<[k := {| e_value := VNum d; e_ttl := None |}]> s, RInt d)
  | Some {| e_value := VNum n; e_ttl := t |} =>
      (<[k := {| e_value := VNum (n + d); e_ttl := t |}]> s, RInt (n + d))
  | Some _ => (s, RError)
  end.

Definition INCR := INCRBY 1.
Definition DECR := INCRBY (-1).

(** [EXPIRE key seconds], for a positive number of seconds: no effect on
    a missing key. *)
Definition EXPIRE (k : string) (ex : Z) (s : Store) : Store * Reply :=
  match s !! k with
  | Some e => (<[k := {| e_value := e_value e; e_ttl := Some ex |}]> s, RInt 1)
  | None => (s, RInt 0)
  end.

(** Lua's [tonumber(redis.call('GET', k) or 0)]: [None] when the value
    is not a number, in which case the comparison that follows raises. *)
Definition tonumber_or_0 (r : Reply) : option Z :=
  match r with
  | RNil => Some 0
  | RBulk (VNum n) => Some n
  | RInt n => Some n
  | _ => None
  end.

(** The script of [decrementCredit]. *)
Definition decrementScript (k : string) (s : Store) : Store * Reply :=
  match tonumber_or_0 (GET k s) with
  | None => (s, RError)
  | Some count =>
      if 0 <? count then
        let '(s1, _) := DECR k s in (s1, RInt 1)
      else (s, RInt 0)
  end.

(** The script of [incrementCredit]. *)
Definition incrementScript (k : string) (maxCredits ttlSeconds : Z) (s : Store)
  : Store * Reply :=
  match tonumber_or_0 (GET k s) with
  | None => (s, RError)
  | Some count =>
      let '(s1, count1) :=
        if count <? maxCredits then
          match INCR k s with
          | (s1, RInt n) => (s1, n)
          | (s1, _) => (s1, count)
          end
        else (s, count) in
      let '(s2, _) := EXPIRE k ttlSeconds s1 in
      (s2, RInt count1)
  end.

End Redis.

(* ================================================================== *)
(** ** src/utils/redis.js *)
(* ================================================================== *)

Module RedisJs.
Import Redis.

Definition NONCE_PREFIX : string := "x402:nonce:".
Definition IDEMPOTENCY_PREFIX : string := "x402:idempotency:".
Definition CREDIT_PREFIX : string := "x402:credit:".

Definition NONCE_PENDING_TTL : Z := 3600.
Definition NONCE_CONFIRMED_TTL : Z := 604800.
Definition IDEMPOTENCY_TTL : Z := 3600.

Definition nonceKey (nonce : string) : string := NONCE_PREFIX +:+ nonce.
Definition idempotencyKey (paymentId : string) : string :=
  IDEMPOTENCY_PREFIX +:+ paymentId.
Definition creditKey (payerAddress routeKey : string) : string :=
  CREDIT_PREFIX +:+ Js.toLowerCase payerAddress +:+ ":" +:+ routeKey.

(** [data || null]: a stored number 0 is falsy, objects are truthy. *)
Definition orNull (r : Reply) : option RedisValue :=
  match r with
  | RBulk (VNum 0) => None
  | RBulk v => Some v
  | _ => None
  end.

(** In every function below [up] tells whether the call to the store
    goes through; when it does not, the client throws before the server
    has run anything and the [catch] branch decides the result. *)

Definition getNonce (up : bool) (nonce : string) (s : Store) : option RedisValue :=
  if up then orNull (GET (nonceKey nonce) s)
  else None.

Definition setNoncePending (up : bool) (now : Z) (nonce : string)
    (metadata : NonceMeta) (s : Store) : Store * bool :=
  if up then
    let '(s1, result) :=
      SET_NX_EX (nonceKey nonce)
        (VNonce {| nr_status := Some "pending"; nr_timestamp := now;
                   nr_meta := metadata |})
        NONCE_PENDING_TTL s in
    (s1, match result with ROk => true | _ => false end)
  else (s, false).

Definition setNonceConfirmed (up : bool) (now : Z) (nonce : string)
    (settlementData : NonceMeta) (s : Store) : Store :=
  if up then
    fst (SET_EX (nonceKey nonce)
           (VNonce {| nr_status := Some "confirmed"; nr_timestamp := now;
                      nr_meta := settlementData |})
           NONCE_CONFIRMED_TTL s)
  else s.

Definition deleteNonce (up : bool) (nonce : string) (s : Store) : Store :=
  if up then fst (DEL (nonceKey nonce) s) else s.

Definition getIdempotencyCache (up : bool) (paymentId : string) (s : Store)
  : option RedisValue :=
  if up then orNull (GET (idempotencyKey paymentId) s)
  else None.

Definition setIdempotencyCache (up : bool) (now : Z) (paymentId : string)
    (responseData : IdemResponse) (s : Store) : Store :=
  if up then
    fst (SET_EX (idempotencyKey paymentId)
           (VIdem {| id_timestamp := now; id_response := Some responseData |})
           IDEMPOTENCY_TTL s)
  else s.

(** [typeof count === 'number' ? count : 0]. The client parses the reply
    and hands a stored integer back as a number when it is a safe integer
    ([Spec.safeCounter]); a larger one may come back as the string of its
    digits, for which the code answers 0. The counters of this model are
    safe integers: the scripts move a counter by one, between 0 and the
    cap of the route. *)
Definition getCreditCount (up : bool) (payerAddress routeKey : string)
    (s : Store) : Z :=
  if up then
    match GET (creditKey payerAddress routeKey) s with
    | RBulk (VNum count) => count
    | _ => 0
    end
  else 0.

Definition decrementCredit (up : bool) (payerAddress routeKey : string)
    (s : Store) : Store * bool :=
  if up then
    match decrementScript (creditKey payerAddress routeKey) s with
    | (s1, RInt 1) => (s1, true)
    | (s1, _) => (s1, false)
    end
  else (s, false).

Definition incrementCredit (up : bool) (payerAddress routeKey : string)
    (maxCredits ttlSeconds : Z) (s : Store) : Store * Z :=
  if up then
    match incrementScript (creditKey payerAddress routeKey)
            maxCredits ttlSeconds s with
    | (s1, RInt n) => (s1, n)
    | (s1, _) => (s1, -1)
    end
  else (s, -1).

End RedisJs.

(* ================================================================== *)
(** ** src/config/routes.js *)
(* ================================================================== *)

Inductive Vm := Evm | Svm.

Record Token := {
  t_address : string;
  t_name : string;
  t_version : option string;
  t_decimals : Z;
}.

Record Facilitator := {
  f_url : string;
  f_apiKeyEnv : string;
  f_networkName : option string;
  f_facilitatorContract : option string;
  f_x402Version : option Z;
}.

Record Network := {
  n_vm : Vm;
  n_caip2 : string;
  n_chainId : option Z;
  n_rpcEnvVar : string;
  n_facilitator : option Facilitator;
  n_token : Token;
}.

Record RouteConfig := {
  rc_price : string;
  rc_priceAtomic : Z;
  rc_payTo : option string;
  rc_payToSol : option string;
  rc_description : string;
  rc_mimeType : string;
  rc_creditOnStatusCodes : option (list Z);
  rc_maxCreditsPerPayer : option Z;
  rc_creditTtl : option Z;
}.

(** [process.env] *)
Abbreviation Env := (gmap string string).

Module Routes.

Definition usdc (address : string) : Token :=
  {| t_address := address; t_name := "USD Coin"; t_version := Some "2";
     t_decimals := 6 |}.

Definition usdcv2 (address : string) : Token :=
  {| t_address := address; t_name := "USDC"; t_version := Some "2";
     t_decimals := 6 |}.

Record CreditConfig := {
  creditOnStatusCodes : list Z;
  maxCreditsPerPayer : Z;
  creditTtl : Z;
}.

Definition CREDIT_DEFAULTS : CreditConfig :=
  {| creditOnStatusCodes := [500; 502; 503; 504];
     maxCreditsPerPayer := 10;
     creditTtl := 86400 |}.

Definition evmNetwork (caip2 : string) (chainId : Z) (rpcEnvVar : string)
    (token : Token) : Network :=
  {| n_vm := Evm; n_caip2 := caip2; n_chainId := Some chainId;
     n_rpcEnvVar := rpcEnvVar; n_facilitator := None; n_token := token |}.

Definition BASE := evmNetwork "eip155:8453" 8453 "BASE_RPC_URL"
  (usdc "0x833589fCD6eDb6E08f4c7C32D4f71b54bdA02913").
Definition ETHEREUM := evmNetwork "eip155:1" 1 "ETHEREUM_RPC_URL"
  (usdc "0xA0b86991c6218b36c1d19D4a2e9Eb0cE3606eB48").
Definition ARBITRUM := evmNetwork "eip155:42161" 42161 "ARBITRUM_RPC_URL"
  (usdc "0xaf88d065e77c8cC2239327C5EDb3A432268e5831").
Definition OPTIMISM := evmNetwork "eip155:10" 10 "OPTIMISM_RPC_URL"
  (usdc "0x0b2C639c533813f4Aa9D7837CAf62653d097Ff85").
Definition POLYGON := evmNetwork "eip155:137" 137 "POLYGON_RPC_URL"
  (usdc "0x3c499c542cEF5E3811e1192ce70d8cC03d5c3359").
Definition AVALANCHE := evmNetwork "eip155:43114" 43114 "AVALANCHE_RPC_URL"
  (usdc "0xB97EF9Ef8734C71904D8002F8b6Bc66Dd9c48a6E").
Definition UNICHAIN := evmNetwork "eip155:130" 130 "UNICHAIN_RPC_URL"
  (usdcv2 "0x078D782b760474a361dDA0AF3839290b0EF57AD6").
Definition LINEA := evmNetwork "eip155:59144" 59144 "LINEA_RPC_URL"
  (usdcv2 "0x176211869cA2b568f2A7D4EE941E073a821EE1ff").
Definition SONIC := evmNetwork "eip155:146" 146 "SONIC_RPC_URL"
  (usdcv2 "0x29219dd400f2Bf60E5a23d13Be72B486D4038894").
Definition HYPEREVM := evmNetwork "eip155:999" 999 "HYPEREVM_RPC_URL"
  (usdcv2 "0xb88339CB7199b77E23DB6E890353E22632Ba630f").
Definition INK := evmNetwork "eip155:57073" 57073 "INK_RPC_URL"
  (usdcv2 "0x2D270e6886d130D724215A266106e6832161EAEd").
Definition MONAD := evmNetwork "eip155:143" 143 "MONAD_RPC_URL"
  (usdcv2 "0x754704Bc059F8C67012fEd69BC8a327a5aafb603").

Definition MEGAETH : Network :=
  {| n_vm := Evm; n_caip2 := "eip155:4326"; n_chainId := Some 4326;
     n_rpcEnvVar := "MEGAETH_RPC_URL";
     n_facilitator := Some
       {| f_url := "https://api.mrdn.finance/v1";
          f_apiKeyEnv := "MERIDIAN_API_KEY";
          f_networkName := Some "megaeth";
          f_facilitatorContract :=
            Some "0x8E7769D440b3460b92159Dd9C6D17302b036e2d6";
          f_x402Version := Some 1 |};
     n_token :=
       {| t_address := "0xFAfDdbb3FC7688494971a79cc65DCa3EF82079E7";
          t_name := "MegaUSD"; t_version := Some "1"; t_decimals := 18 |} |}.

Definition SOLANA_MAINNET : Network :=
  {| n_vm := Svm; n_caip2 := "solana:5eykt4UsFv8P8NJdTREpY1vzqKqZKvdp";
     n_chainId := None; n_rpcEnvVar := "SOLANA_RPC_URL";
     n_facilitator := None;
     n_token :=
       {| t_address := "EPjFWdd5AufqSSqeM2qN1xzybapC8G4wEGGkZwyTDt1v";
          t_name := "USDC"; t_version := None; t_decimals := 6 |} |}.

(** The registry, in the insertion order of the object literal. *)
Definition ALL_NETWORKS : list (string * Network) :=
  [ ("eip155:8453", BASE);
    ("eip155:1", ETHEREUM);
    ("eip155:42161", ARBITRUM);
    ("eip155:10", OPTIMISM);
    ("eip155:137", POLYGON);
    ("eip155:43114", AVALANCHE);
    ("eip155:130", UNICHAIN);
    ("eip155:59144", LINEA);
    ("eip155:4326", MEGAETH);
    ("eip155:146", SONIC);
    ("eip155:999", HYPEREVM);
    ("eip155:57073", INK);
    ("eip155:143", MONAD);
    ("solana:5eykt4UsFv8P8NJdTREpY1vzqKqZKvdp", SOLANA_MAINNET) ].

Definition isSet (env : Env) (name : string) : bool :=
  match Js.truthy (env !! name) with
  | Some _ => true
  | None => false
  end.

Definition isActive (env : Env) (network : Network) : bool :=
  if negb (isSet env (n_rpcEnvVar network)) then false
  else if match n_vm network with Svm => true | Evm => false end
          && negb (isSet env "SOLANA_FACILITATOR_PRIVATE_KEY") then false
  else true.

Definition getActiveNetworks (env : Env) : list (string * Network) :=
  filter (fun kv => isActive env kv.2 = true) ALL_NETWORKS.

Fixpoint assoc {A : Type} (key : string) (l : list (string * A)) : option A :=
  match l with
  | [] => None
  | (k, v) :: rest => if String.eqb k key then Some v else assoc key rest
  end.

(** The names every JavaScript object inherits from [Object.prototype].
    The proxy behind [SUPPORTED_NETWORKS] reads a plain object, so for one
    of these keys it answers the inherited member: a value that is truthy
    and has none of the fields of a network. *)
Definition INHERITED_NAMES : list string :=
  [ "constructor"; "__defineGetter__"; "__defineSetter__"; "hasOwnProperty";
    "__lookupGetter__"; "__lookupSetter__"; "isPrototypeOf";
    "propertyIsEnumerable"; "toString"; "valueOf"; "__proto__";
    "toLocaleString" ].

Definition isInherited (key : string) : bool :=
  existsb (String.eqb key) INHERITED_NAMES.

(** [SUPPORTED_NETWORKS[key]] when it is a network of the registry. It is
    [None] both when the code reads [undefined] and when it reads an
    inherited member; [isInherited key] tells the two apart, and every
    reader below branches on it. *)
Definition SUPPORTED_NETWORKS (env : Env) (key : string) : option Network :=
  assoc key (getActiveNetworks env).

(** [Object.values(SUPPORTED_NETWORKS)] *)
Definition supportedValues (env : Env) : list Network :=
  (getActiveNetworks env).*2.

End Routes.

(* ================================================================== *)
(** ** The payment envelope and the outside world *)
(* ================================================================== *)

Inductive JsScalar :=
| JString (s : string)
| JNumber (n : Z)
| JBool (b : bool).

Record PaymentIdentifierExt := {
  paymentId : option JsScalar;
}.

Record Extensions := {
  payment_identifier : option PaymentIdentifierExt;
}.

(** The numeric fields are the integers their JSON text denotes: [BigInt]
    reads them exactly, and [Number] agrees with it in the comparisons
    against the clock, which is far below 2^53. *)
Record Authorization := {
  au_from : option string;
  au_to : string;
  au_value : Z;
  au_validAfter : Z;
  au_validBefore : Z;
  au_nonce : option string;
}.

Record Payload := {
  p_authorization : option Authorization;
  p_signature : option string;
  p_transaction : option string;
  p_extensions : option Extensions;
}.

(** The decoded JSON object of the payment header; a field that is absent
    is [None]. The JSON value [null], on which the handler throws as soon
    as it reads [paymentPayload.network], is not an envelope. *)
Record Envelope := {
  pp_x402Version : option Z;
  pp_scheme : option string;
  pp_network : option string;
  pp_payload : option Payload;
  pp_extensions : option Extensions;
}.

(** EIP-712 domain and message handed to [verifyTypedData]. *)
Record Domain := {
  d_name : string;
  d_version : option string;
  d_chainId : option Z;
  d_verifyingContract : string;
}.

Record Message := {
  m_from : option string;
  m_to : string;
  m_value : Z;
  m_validAfter : Z;
  m_validBefore : Z;
  m_nonce : option string;
}.

Inductive SigOutcome :=
| SigReturns (isValid : bool)
| SigThrows (message : string).

(** Requirements sent to a facilitator (HTTP or SVM library). *)
Record PaymentRequirements := {
  req_scheme : string;
  req_network : option string;
  req_maxAmountRequired : Z;
  req_maxTimeoutSeconds : Z;
  req_payTo : option string;
  req_asset : string;
  req_resource : string;
  req_description : string;
  req_mimeType : string;
  req_amount : Z;
  req_recipient : option string;
}.

Record FacilitatorBody := {
  fb_x402Version : Z;
  fb_scheme : option string;
  fb_network : option string;
  fb_payload : option Payload;
  fb_paymentRequirements : PaymentRequirements;
}.

(** The JSON a facilitator answers with; [fd_json] is its text. *)
Record FacilitatorData := {
  fd_isValid : bool;
  fd_payer : option string;
  fd_invalidReason : option string;
  fd_errorMessage : option string;
  fd_success : bool;
  fd_errorReason : option string;
  fd_transaction : option string;
  fd_network : option string;
  fd_json : string;
}.

Inductive FetchOutcome :=
| FetchThrows (message : string)
| FetchResponse (status : Z) (ok : bool) (data : option FacilitatorData).

Record SvmRequirements := {
  sr_network : option string;
  sr_amount : Z;
  sr_asset : string;
  sr_payTo : string;
  sr_feePayer : string;
}.

Record SvmVerifyResponse := {
  sv_isValid : bool;
  sv_invalidReason : option string;
  sv_payer : option string;
}.

Record SvmSettleResponse := {
  ss_success : bool;
  ss_errorReason : option string;
  ss_transaction : string;
  ss_network : option string;
  ss_payer : option string;
}.

Inductive Thrown (A : Type) :=
| Returns (a : A)
| Throws (message : string).
Arguments Returns {A} a.
Arguments Throws {A} message.

(** The Redis calls a request can make, one per call site. *)
Inductive StoreCall :=
| CallGetIdempotency
| CallGetNonce
| CallGetCredit
| CallDecrementCredit
| CallSetNoncePending
| CallSetNonceConfirmed
| CallSetIdempotency
| CallDeleteNonce
| CallIncrementCredit.

Record World := {
  w_env : Env;
  w_routes : gmap string RouteConfig;          (* ROUTE_CONFIG *)
  w_nowSeconds : Z;                            (* Math.floor(Date.now() / 1000) *)
  w_nowMillis : Z;                             (* Date.now() *)
  w_storeUp : StoreCall -> bool;
  w_decode : string -> option Envelope;        (* base64 + JSON.parse *)
  w_verifyTypedData :
    option string -> Domain -> Message -> option string -> SigOutcome;
  w_balanceOf : Network -> option string -> Thrown Z;
  w_sendTransfer :                             (* write + wait for receipt *)
    Network -> Authorization -> option string -> Thrown (string * Z);
  w_fetch : string -> string -> FacilitatorBody -> FetchOutcome;
  w_svmFeePayer : string -> Thrown string;     (* key -> fee payer address *)
  w_svmVerify :
    option Payload -> option string -> SvmRequirements -> Thrown SvmVerifyResponse;
  w_svmSettle :
    option Payload -> option string -> SvmRequirements -> Thrown SvmSettleResponse;
  w_sha256hex : string -> string;
}.

(* ================================================================== *)
(** ** src/middleware/x402.js: verification and settlement *)
(* ================================================================== *)

Inductive VerifyResult :=
| VValid (payer : option string)
| VInvalid (reason : string)
| VThrows (message : string).

Record Settlement := {
  se_txHash : option string;
  se_network : option string;
  se_blockNumber : option Z;
  se_payer : option string;
  se_facilitator : option string;
}.

Record BalanceCheck := {
  bc_sufficient : bool;
  bc_balance : option Z;
  bc_required : option Z;
}.

Module Verifier.
Import Routes RedisJs.

Definition isSvmNetwork (network : Network) : bool :=
  match n_vm network with
  | Svm => true
  | Evm => false
  end.

Definition getSvmFacilitator (w : World) : Thrown string :=
  match Js.truthy (w_env w !! "SOLANA_FACILITATOR_PRIVATE_KEY") with
  | None => Throws "SOLANA_FACILITATOR_PRIVATE_KEY not configured"
  | Some privKeyBase58 =>
      match w_svmFeePayer w privKeyBase58 with
      | Throws m => Throws m
      | Returns feePayerAddress =>
          if decide (feePayerAddress = "") then
            Throws "Failed to derive fee payer address from SOLANA_FACILITATOR_PRIVATE_KEY"
          else Returns feePayerAddress
      end
  end.

Definition checkBalance (w : World) (network : Network) (from : option string)
    (requiredAmount : Z) : BalanceCheck :=
  if negb (isSet (w_env w) (n_rpcEnvVar network)) then
    {| bc_sufficient := true; bc_balance := None; bc_required := None |}
  else
    match w_balanceOf w network from with
    | Returns balance =>
        if balance <? requiredAmount then
          {| bc_sufficient := false; bc_balance := Some balance;
             bc_required := Some requiredAmount |}
        else
          {| bc_sufficient := true; bc_balance := Some balance;
             bc_required := None |}
    | Throws _ =>
        {| bc_sufficient := true; bc_balance := None; bc_required := None |}
    end.

Definition isIdChar (c : ascii) : bool :=
  let n := N_of_ascii c in
  (((97 <=? n) && (n <=? 122)) || ((65 <=? n) && (n <=? 90))
   || ((48 <=? n) && (n <=? 57)) || (n =? 95) || (n =? 45))%N.

(** [/^[a-zA-Z0-9_-]+$/.test(id)] *)
Fixpoint idPattern (id : string) : bool :=
  match id with
  | EmptyString => false
  | String c EmptyString => isIdChar c
  | String c rest => isIdChar c && idPattern rest
  end.

Definition extractPaymentIdentifier (paymentPayload : Envelope) : option string :=
  let extensions :=
    match pp_extensions paymentPayload with
    | Some e => Some e
    | None =>
        match pp_payload paymentPayload with
        | Some payload => p_extensions payload
        | None => None
        end
    end in
  match extensions with
  | None => None
  | Some extensions =>
      match payment_identifier extensions with
      | Some {| paymentId := Some (JString id) |} =>
          if decide (id = "") then None
          else if (16 <=? Z.of_nat (String.length id))
                  && (Z.of_nat (String.length id) <=? 128)
                  && idPattern id
          then Some id
          else None
      | _ => None
      end
  end.

Definition statusOf (existing : RedisValue) : string :=
  match existing with
  | VNonce r => Js.nullish (Js.truthy (nr_status r)) "unknown"
  | _ => "unknown"
  end.

(** The EIP-712 domain and the TransferWithAuthorization message that
    [verifyPaymentEvm] builds. *)
Definition domainOf (network : Network) : Domain :=
  {| d_name := t_name (n_token network);
     d_version := t_version (n_token network);
     d_chainId := n_chainId network;
     d_verifyingContract := t_address (n_token network) |}.

Definition messageOf (authorization : Authorization) : Message :=
  {| m_from := au_from authorization;
     m_to := au_to authorization;
     m_value := au_value authorization;
     m_validAfter := au_validAfter authorization;
     m_validBefore := au_validBefore authorization;
     m_nonce := au_nonce authorization |}.

(** How a verification ends when it does not answer valid. *)
Inductive Failure :=
| Invalid (reason : string)
| Raises (message : string).

Definition verdictOf (f : Failure) : VerifyResult :=
  match f with
  | Invalid reason => VInvalid reason
  | Raises message => VThrows message
  end.

(** [verifyPaymentEvm] when the network read from [SUPPORTED_NETWORKS] is
    an inherited member: it passes [if (!network)], the scheme is tested,
    and [network.token.decimals] throws since [network.token] is
    undefined. *)
Definition verifyPaymentEvmInherited (paymentPayload : Envelope) : Failure :=
  match pp_payload paymentPayload with
  | None => Raises "Cannot destructure property 'authorization'"
  | Some _ =>
  if negb (bool_decide (pp_scheme paymentPayload = Some "exact")) then
    Invalid ("Unsupported scheme: " +:+ Js.show (pp_scheme paymentPayload))
  else Raises "Cannot read properties of undefined (reading 'decimals')"
  end.

(** EVM: verify payment (local, no facilitator). The store is only read. *)
Definition verifyPaymentEvm (w : World) (s : Store) (paymentPayload : Envelope)
    (routeConfig : RouteConfig) : VerifyResult :=
  match pp_payload paymentPayload with
  | None => VThrows "Cannot destructure property 'authorization'"
  | Some payload =>
  let signature := p_signature payload in
  match SUPPORTED_NETWORKS (w_env w) (Js.show (pp_network paymentPayload)) with
  | None =>
      if isInherited (Js.show (pp_network paymentPayload)) then
        verdictOf (verifyPaymentEvmInherited paymentPayload)
      else
        VInvalid ("Unsupported network: " +:+ Js.show (pp_network paymentPayload))
  | Some network =>
  if negb (bool_decide (pp_scheme paymentPayload = Some "exact")) then
    VInvalid ("Unsupported scheme: " +:+ Js.show (pp_scheme paymentPayload))
  else
  (* Check amount *)
  let basePriceAtomic := rc_priceAtomic routeConfig in
  let decimalDiff := t_decimals (n_token network) - 6 in
  let requiredAmount :=
    if 0 <? decimalDiff then basePriceAtomic * 10 ^ decimalDiff
    else basePriceAtomic in
  match p_authorization payload with
  | None => VThrows "Cannot read properties of undefined (reading 'value')"
  | Some authorization =>
  if au_value authorization <? requiredAmount then
    VInvalid ("Insufficient payment: got " +:+ pretty (au_value authorization)
              +:+ ", need " +:+ pretty requiredAmount)
  else
  (* Check recipient *)
  match Js.truthy (Js.toLowerCase <$> rc_payTo routeConfig) with
  | None => VInvalid "No payTo address configured"
  | Some payTo =>
  if negb (String.eqb (Js.toLowerCase (au_to authorization)) payTo) then
    VInvalid ("Wrong recipient: expected " +:+ payTo)
  else
  (* Check validity window *)
  let now := w_nowSeconds w in
  if now <? au_validAfter authorization then VInvalid "Payment not yet valid"
  else if au_validBefore authorization <? now then VInvalid "Payment expired"
  else
  (* Check replay via Redis *)
  match getNonce (w_storeUp w CallGetNonce)
          (Js.show (au_nonce authorization)) s with
  | Some existing =>
      VInvalid ("Nonce already used (" +:+ statusOf existing +:+ ")")
  | None =>
  (* Verify EIP-712 signature *)
  let domain := domainOf network in
  let message := messageOf authorization in
  match w_verifyTypedData w (au_from authorization) domain message signature with
  | SigThrows m => VInvalid ("Signature verification failed: " +:+ m)
  | SigReturns false => VInvalid "Signature does not match sender"
  | SigReturns true =>
  (* Balance check *)
  let balanceCheck :=
    checkBalance w network (au_from authorization) requiredAmount in
  if negb (bc_sufficient balanceCheck) then
    VInvalid ("Insufficient balance: has "
              +:+ Js.show (pretty <$> bc_balance balanceCheck)
              +:+ ", needs " +:+ Js.show (pretty <$> bc_required balanceCheck))
  else VValid None
  end end end end end end.

(** EVM: settle payment on-chain. *)
Definition settlePaymentEvm (w : World) (paymentPayload : Envelope)
  : Thrown Settlement :=
  match pp_payload paymentPayload with
  | None => Throws "Cannot destructure property 'authorization'"
  | Some payload =>
  match SUPPORTED_NETWORKS (w_env w) (Js.show (pp_network paymentPayload)) with
  | None =>
      if isInherited (Js.show (pp_network paymentPayload)) then
        (* an inherited member: [network.rpcEnvVar] is undefined, and
           [process.env[undefined]] reads the variable named "undefined" *)
        if negb (isSet (w_env w) "undefined") then
          Throws ("No RPC URL for " +:+ Js.show (pp_network paymentPayload)
                  +:+ " (env: undefined)")
        else
          (* with the wallet set up and the signature parsed, the call
             reads [network.token.address] *)
          Throws "Cannot read properties of undefined (reading 'address')"
      else Throws "Cannot read properties of undefined (reading 'rpcEnvVar')"
  | Some network =>
  if negb (isSet (w_env w) (n_rpcEnvVar network)) then
    Throws ("No RPC URL for " +:+ Js.show (pp_network paymentPayload)
            +:+ " (env: " +:+ n_rpcEnvVar network +:+ ")")
  else
  match p_authorization payload with
  | None => Throws "Cannot read properties of undefined (reading 'from')"
  | Some authorization =>
  match w_sendTransfer w network authorization (p_signature payload) with
  | Throws m => Throws m
  | Returns (txHash, blockNumber) =>
      Returns {| se_txHash := Some txHash;
                 se_network := pp_network paymentPayload;
                 se_blockNumber := Some blockNumber;
                 se_payer := None; se_facilitator := None |}
  end end end end.

Definition svmRequirements (paymentPayload : Envelope) (routeConfig : RouteConfig)
    (network : Network) (payTo feePayerAddress : string) : SvmRequirements :=
  let basePriceAtomic := rc_priceAtomic routeConfig in
  let decimalDiff := t_decimals (n_token network) - 6 in
  let amountRequired :=
    if 0 <? decimalDiff then basePriceAtomic * 10 ^ decimalDiff
    else basePriceAtomic in
  {| sr_network := pp_network paymentPayload;
     sr_amount := amountRequired;
     sr_asset := t_address (n_token network);
     sr_payTo := payTo;
     sr_feePayer := feePayerAddress |}.

(** SVM: verify payment via the SVM facilitator. *)
Definition verifyPaymentSvm (w : World) (paymentPayload : Envelope)
    (routeConfig : RouteConfig) (network : Network) : VerifyResult :=
  match getSvmFacilitator w with
  | Throws m => VThrows m
  | Returns feePayerAddress =>
  match Js.truthy (rc_payToSol routeConfig) with
  | None => VInvalid "No Solana payTo address configured"
  | Some payTo =>
  match w_svmVerify w (pp_payload paymentPayload) (pp_network paymentPayload)
          (svmRequirements paymentPayload routeConfig network payTo
             feePayerAddress) with
  | Throws m => VInvalid ("SVM verification error: " +:+ m)
  | Returns result =>
      if negb (sv_isValid result) then
        VInvalid ("SVM verification failed: "
                  +:+ Js.nullish (Js.truthy (sv_invalidReason result)) "unknown")
      else VValid (sv_payer result)
  end end end.

(** SVM: settle payment via the SVM facilitator. *)
Definition settlePaymentSvm (w : World) (paymentPayload : Envelope)
    (routeConfig : RouteConfig) (network : Network) : Thrown Settlement :=
  match getSvmFacilitator w with
  | Throws m => Throws m
  | Returns feePayerAddress =>
  match Js.truthy (rc_payToSol routeConfig) with
  | None => Throws "No Solana payTo address configured"
  | Some payTo =>
  match w_svmSettle w (pp_payload paymentPayload) (pp_network paymentPayload)
          (svmRequirements paymentPayload routeConfig network payTo
             feePayerAddress) with
  | Throws m => Throws m
  | Returns result =>
      if negb (ss_success result) then
        Throws ("SVM settlement failed: "
                +:+ Js.nullish (Js.truthy (ss_errorReason result)) "unknown")
      else
        Returns {| se_txHash := Some (ss_transaction result);
                   se_network :=
                     Js.or (ss_network result) (pp_network paymentPayload);
                   se_blockNumber := None;
                   se_payer := ss_payer result;
                   se_facilitator := None |}
  end end end.

(** The request body of both facilitator calls. *)
Definition facilitatorBody (paymentPayload : Envelope) (routeConfig : RouteConfig)
    (resource : string) (network : Network) (fac : Facilitator)
  : FacilitatorBody :=
  let basePriceAtomic := rc_priceAtomic routeConfig in
  let decimalDiff := t_decimals (n_token network) - 6 in
  let amountRequired :=
    if 0 <? decimalDiff then basePriceAtomic * 10 ^ decimalDiff
    else basePriceAtomic in
  let facilitatorNetwork :=
    Js.or (f_networkName fac) (pp_network paymentPayload) in
  let facilitatorPayTo :=
    Js.or (f_facilitatorContract fac) (rc_payTo routeConfig) in
  let nonzero (o : option Z) :=
    match o with
    | Some 0 => None
    | _ => o
    end in
  {| fb_x402Version :=
       match nonzero (f_x402Version fac) with
       | Some v => v
       | None => Js.nullish (nonzero (pp_x402Version paymentPayload)) 2
       end;
     fb_scheme := pp_scheme paymentPayload;
     fb_network := facilitatorNetwork;
     fb_payload := pp_payload paymentPayload;
     fb_paymentRequirements :=
       {| req_scheme := "exact";
          req_network := facilitatorNetwork;
          req_maxAmountRequired := amountRequired;
          req_maxTimeoutSeconds := 3600;
          req_payTo := facilitatorPayTo;
          req_asset := t_address (n_token network);
          req_resource := resource;
          req_description := rc_description routeConfig;
          req_mimeType := rc_mimeType routeConfig;
          req_amount := amountRequired;
          req_recipient := facilitatorPayTo |} |}.

(** Facilitator-based verify (EVM, external service). *)
Definition verifyPaymentViaFacilitator (w : World) (paymentPayload : Envelope)
    (routeConfig : RouteConfig) (resource : string) (network : Network)
    (fac : Facilitator) : VerifyResult :=
  match Js.truthy (w_env w !! f_apiKeyEnv fac) with
  | None =>
      VInvalid ("No API key for facilitator (env: " +:+ f_apiKeyEnv fac +:+ ")")
  | Some apiKey =>
  match w_fetch w (f_url fac +:+ "/verify") apiKey
          (facilitatorBody paymentPayload routeConfig resource network fac) with
  | FetchThrows m => VInvalid ("Facilitator verify failed: " +:+ m)
  | FetchResponse status _ None =>
      VInvalid ("Facilitator returned non-JSON (" +:+ pretty status +:+ ")")
  | FetchResponse status ok (Some data) =>
      if negb ok then
        VInvalid ("Facilitator error (" +:+ pretty status +:+ "): "
                  +:+ Js.nullish
                        (Js.or (fd_errorMessage data)
                           (Js.or (fd_invalidReason data) (Some (fd_json data))))
                        "")
      else if fd_isValid data then VValid (fd_payer data)
      else VInvalid (Js.nullish (Js.truthy (fd_invalidReason data))
                       "Facilitator rejected payment")
  end end.

(** Facilitator-based settle (EVM, external service). *)
Definition settlePaymentViaFacilitator (w : World) (paymentPayload : Envelope)
    (routeConfig : RouteConfig) (resource : string) (network : Network)
    (fac : Facilitator) : Thrown Settlement :=
  match w_fetch w (f_url fac +:+ "/settle")
          (Js.show (w_env w !! f_apiKeyEnv fac))
          (facilitatorBody paymentPayload routeConfig resource network fac) with
  | FetchThrows m => Throws m
  | FetchResponse _ _ None => Throws "Unexpected token in JSON"
  | FetchResponse _ ok (Some data) =>
      if negb ok || negb (fd_success data) then
        Throws ("Facilitator settle failed: "
                +:+ Js.nullish
                      (Js.or (fd_errorReason data)
                         (Js.or (fd_errorMessage data) (Some (fd_json data))))
                      "")
      else
        Returns {| se_txHash := fd_transaction data;
                   se_network :=
                     Js.or (fd_network data) (pp_network paymentPayload);
                   se_blockNumber := None;
                   se_payer := None;
                   se_facilitator := Some (f_url fac) |}
  end.

End Verifier.

(* ================================================================== *)
(** ** src/middleware/x402.js: the 402 challenge *)
(* ================================================================== *)

Inductive Extra :=
| ExtraFeePayer (feePayer : string)
| ExtraDomain (name : string) (version : option string).

Record Accept := {
  ac_scheme : string;
  ac_network : string;
  ac_maxAmountRequired : Z;
  ac_amount : Z;
  ac_maxTimeoutSeconds : Z;
  ac_resource : string;
  ac_description : string;
  ac_mimeType : string;
  ac_payTo : option string;
  ac_asset : string;
  ac_extra : Extra;
}.

Record StrictAccept := {
  sa_scheme : string;
  sa_network : string;
  sa_amount : Z;
  sa_payTo : option string;
  sa_maxTimeoutSeconds : Z;
  sa_asset : string;
  sa_extra : Extra;
}.

Record Challenge (A : Type) := {
  ch_x402Version : Z;
  ch_accepts : list A;
  ch_resourceUrl : string;
  ch_description : string;
  ch_mimeType : string;
  ch_paymentIdentifierSupported : bool;
  ch_paymentIdentifierRequired : bool;
}.
Arguments ch_x402Version {A} _.
Arguments ch_accepts {A} _.
Arguments ch_resourceUrl {A} _.

Record PaymentRequired := {
  headerBase64 : Challenge Accept;       (* base64 of the JSON of this payload *)
  body : Challenge StrictAccept;
}.

Record Request := {
  rq_headers : gmap string string;       (* req.headers, names in lower case *)
  rq_encrypted : bool;                   (* req.socket.encrypted *)
  rq_originalUrl : string;
}.

(** What Express derives from the headers of a request. The gateway runs
    with [app.set('trust proxy', true)]. *)
Module Express.

(** The code units [String.prototype.trim] strips, on the Latin-1 range. *)
Definition isWhiteSpace (c : ascii) : bool :=
  let n := N_of_ascii c in
  (((9 <=? n) && (n <=? 13)) || (n =? 32) || (n =? 160))%N.

Fixpoint trimStart (s : string) : string :=
  match s with
  | EmptyString => EmptyString
  | String c rest => if isWhiteSpace c then trimStart rest else s
  end.

Fixpoint trimEnd (s : string) : string :=
  match s with
  | EmptyString => EmptyString
  | String c rest =>
      match trimEnd rest with
      | EmptyString => if isWhiteSpace c then EmptyString else String c EmptyString
      | kept => String c kept
      end
  end.

Definition trim (s : string) : string := trimEnd (trimStart s).

(** [header.substring(0, index)] for the first comma, the whole header
    when there is none. *)
Fixpoint beforeComma (header : string) : string :=
  match header with
  | EmptyString => EmptyString
  | String c rest =>
      if Ascii.eqb c ","%char then EmptyString else String c (beforeComma rest)
  end.

(** [req.get(name)], for a lower-case [name] other than "referer". *)
Definition get (req : Request) (name : string) : option string :=
  rq_headers req !! name.

(** [req.protocol]: every proxy is trusted, so the X-Forwarded-Proto
    header, when it is there, wins over the socket. *)
Definition protocol (req : Request) : string :=
  let proto := if rq_encrypted req then "https" else "http" in
  let header := Js.nullish (Js.truthy (get req "x-forwarded-proto")) proto in
  trim (beforeComma header).

End Express.

Module Builder.
Import Routes Verifier.

(** [`${req.protocol}://${req.get('host')}${req.originalUrl}`] *)
Definition resourceOf (req : Request) : string :=
  Express.protocol req +:+ "://" +:+ Js.show (Express.get req "host")
  +:+ rq_originalUrl req.

(** One turn of the loop over the active networks: the entry pushed, or
    [None] for [continue]. *)
Definition acceptFor (routeConfig : RouteConfig) (resource : string)
    (svmFeePayerAddress : option string) (network : Network) : option Accept :=
  let basePriceAtomic := rc_priceAtomic routeConfig in
  let decimalDiff := t_decimals (n_token network) - 6 in
  let amountRequired :=
    if 0 <? decimalDiff then basePriceAtomic * 10 ^ decimalDiff
    else basePriceAtomic in
  if isSvmNetwork network then
    match Js.truthy (rc_payToSol routeConfig), Js.truthy svmFeePayerAddress with
    | Some payTo, Some feePayer =>
        Some {| ac_scheme := "exact"; ac_network := n_caip2 network;
                ac_maxAmountRequired := amountRequired;
                ac_amount := amountRequired;
                ac_maxTimeoutSeconds := 3600; ac_resource := resource;
                ac_description := rc_description routeConfig;
                ac_mimeType := rc_mimeType routeConfig;
                ac_payTo := Some payTo;
                ac_asset := t_address (n_token network);
                ac_extra := ExtraFeePayer feePayer |}
    | _, _ => None
    end
  else
    let effectivePayTo :=
      Js.or (n_facilitator network ≫= f_facilitatorContract)
            (rc_payTo routeConfig) in
    Some {| ac_scheme := "exact"; ac_network := n_caip2 network;
            ac_maxAmountRequired := amountRequired;
            ac_amount := amountRequired;
            ac_maxTimeoutSeconds := 3600; ac_resource := resource;
            ac_description := rc_description routeConfig;
            ac_mimeType := rc_mimeType routeConfig;
            ac_payTo := effectivePayTo;
            ac_asset := t_address (n_token network);
            ac_extra := ExtraDomain (t_name (n_token network))
                          (t_version (n_token network)) |}.

Definition strict (a : Accept) : StrictAccept :=
  {| sa_scheme := ac_scheme a; sa_network := ac_network a;
     sa_amount := ac_amount a; sa_payTo := ac_payTo a;
     sa_maxTimeoutSeconds := ac_maxTimeoutSeconds a;
     sa_asset := ac_asset a; sa_extra := ac_extra a |}.

(** Build 402 Payment Required response. *)
Definition buildPaymentRequired (w : World) (routeConfig : RouteConfig)
    (req : Request) : PaymentRequired :=
  let resource := resourceOf req in
  let hasSvmNetworks := existsb isSvmNetwork (supportedValues (w_env w)) in
  let svmFeePayerAddress :=
    if hasSvmNetworks then
      match getSvmFacilitator w with
      | Returns feePayerAddress => Some feePayerAddress
      | Throws _ => None
      end
    else None in
  let accepts :=
    omap (acceptFor routeConfig resource svmFeePayerAddress)
         (supportedValues (w_env w)) in
  {| headerBase64 :=
       {| ch_x402Version := 2; ch_accepts := accepts;
          ch_resourceUrl := resource;
          ch_description := rc_description routeConfig;
          ch_mimeType := rc_mimeType routeConfig;
          ch_paymentIdentifierSupported := true;
          ch_paymentIdentifierRequired := false |};
     body :=
       {| ch_x402Version := 2; ch_accepts := strict <$> accepts;
          ch_resourceUrl := resource;
          ch_description := rc_description routeConfig;
          ch_mimeType := rc_mimeType routeConfig;
          ch_paymentIdentifierSupported := true;
          ch_paymentIdentifierRequired := false |} |}.

End Builder.

(* ================================================================== *)
(** ** src/middleware/x402.js: the Express middleware *)
(* ================================================================== *)

Inductive HeaderValue :=
| HChallenge (c : Challenge Accept)
| HReceipt (h : ReceiptHeader)
| HText (s : string).

Record ResponseBody := {
  rb_challenge : option (Challenge StrictAccept);
  rb_error : string;
  rb_reason : option string;
  rb_message : option string;
}.

(** How the handler ends: a response, [next()], or a rejected promise. *)
Inductive Outcome :=
| Respond (status : Z) (json : ResponseBody)
| Next
| Rejects (message : string).

Inductive Path := PathSvm | PathFacilitator | PathEvm.

(** What a request does to its collaborators, in program order. Store
    events carry the Redis key of the call. *)
Inductive Event :=
| EvChallenge
| EvIdempotencyLookup (key : string) (hit : bool)
| EvVerify (path : Path) (valid : bool)
| EvCreditRead (key : string) (count : Z)
| EvCreditDecrement (key : string) (consumed : bool)
| EvNonceReserve (key : string) (acquired : bool)
| EvSettle (path : Path) (settled : bool)
| EvNonceConfirm (key : string)
| EvNonceDelete (key : string)
| EvIdempotencyWrite (key : string)
| EvIssuanceScheduled (key : string).

Record CreditIssuance := {
  ci_payerAddress : string;
  ci_routeKey : string;
  ci_creditConfig : Routes.CreditConfig;
}.

Record St := {
  st_store : Store;
  st_headers : list (string * HeaderValue);     (* res.set, in order *)
  st_log : list Event;
  st_onFinish : option CreditIssuance;          (* res.on('finish', ...) *)
}.

Module Pipeline.
Import Routes RedisJs Verifier Builder.

(** Handler code: a state transformer that either goes on with a value
    or has returned from the handler with an outcome. *)
Definition M (A : Type) : Type := St -> St * (A + Outcome).

Definition ret {A : Type} (a : A) : M A := fun st => (st, inl a).

Definition bind {A B : Type} (m : M A) (k : A -> M B) : M B :=
  fun st =>
    match m st with
    | (st1, inl a) => k a st1
    | (st1, inr o) => (st1, inr o)
    end.

Definition finish {A : Type} (o : Outcome) : M A := fun st => (st, inr o).

Definition emit (e : Event) : M unit :=
  fun st =>
    ({| st_store := st_store st; st_headers := st_headers st;
        st_log := st_log st ++ [e]; st_onFinish := st_onFinish st |}, inl tt).

Definition setHeader (name : string) (v : HeaderValue) : M unit :=
  fun st =>
    ({| st_store := st_store st; st_headers := st_headers st ++ [(name, v)];
        st_log := st_log st; st_onFinish := st_onFinish st |}, inl tt).

Definition onStore {A : Type} (f : Store -> Store * A) : M A :=
  fun st =>
    let '(s1, a) := f (st_store st) in
    ({| st_store := s1; st_headers := st_headers st;
        st_log := st_log st; st_onFinish := st_onFinish st |}, inl a).

Definition registerFinish (ci : CreditIssuance) : M unit :=
  fun st =>
    ({| st_store := st_store st; st_headers := st_headers st;
        st_log := st_log st; st_onFinish := Some ci |}, inl tt).

Declare Scope handler_scope.
Delimit Scope handler_scope with handler.
Notation "x <- m ;; k" := (bind m (fun x => k))
  (at level 100, m at next level, right associativity) : handler_scope.
Notation "m ;;; k" := (bind m (fun _ => k))
  (at level 100, right associativity) : handler_scope.
Local Open Scope handler_scope.

Definition errorOnly (error : string) : ResponseBody :=
  {| rb_challenge := None; rb_error := error; rb_reason := None;
     rb_message := None |}.

Definition isCreditSystemEnabled (w : World) : bool :=
  bool_decide (w_env w !! "ENABLE_CREDIT_SYSTEM" = Some "true").

Definition getCreditConfig (routeConfig : RouteConfig) : CreditConfig :=
  {| creditOnStatusCodes :=
       Js.nullish (rc_creditOnStatusCodes routeConfig)
         (creditOnStatusCodes CREDIT_DEFAULTS);
     maxCreditsPerPayer :=
       Js.nullish (rc_maxCreditsPerPayer routeConfig)
         (maxCreditsPerPayer CREDIT_DEFAULTS);
     creditTtl :=
       Js.nullish (rc_creditTtl routeConfig) (creditTtl CREDIT_DEFAULTS) |}.

Definition pathOf (network : Network) : Path :=
  if isSvmNetwork network then PathSvm
  else match n_facilitator network with
       | Some _ => PathFacilitator
       | None => PathEvm
       end.

(** Sends the 402 challenge header and yields the body to spread. *)
Definition challenge (w : World) (routeConfig : RouteConfig) (req : Request)
  : M (Challenge StrictAccept) :=
  emit EvChallenge ;;;
  let pr := buildPaymentRequired w routeConfig req in
  setHeader "PAYMENT-REQUIRED" (HChallenge (headerBase64 pr)) ;;;
  ret (body pr).

(** Idempotency check. *)
Definition idempotencyCheck (w : World) (paymentId : option string) : M unit :=
  match paymentId with
  | None => ret tt
  | Some paymentId =>
      cached <- onStore (fun s =>
        (s, getIdempotencyCache (w_storeUp w CallGetIdempotency) paymentId s)) ;;
      emit (EvIdempotencyLookup (idempotencyKey paymentId)
              (match cached with Some _ => true | None => false end)) ;;;
      match cached with
      | None => ret tt
      | Some cached =>
          match cached with
          | VIdem {| id_response :=
                       Some {| ir_paymentResponseHeader := Some h |} |} =>
              setHeader "PAYMENT-RESPONSE" (HReceipt h)
          | _ => ret tt
          end ;;;
          finish Next
      end
  end.

(** Verify payment: dispatch on the payment path. *)
Definition verifyWith (w : World) (s : Store) (paymentPayload : Envelope)
    (routeConfig : RouteConfig) (req : Request) (network : Network)
  : VerifyResult :=
  if isSvmNetwork network then
    verifyPaymentSvm w paymentPayload routeConfig network
  else
    match n_facilitator network with
    | Some fac =>
        verifyPaymentViaFacilitator w paymentPayload routeConfig
          (resourceOf req) network fac
    | None => verifyPaymentEvm w s paymentPayload routeConfig
    end.

Definition verifyPayment (w : World) (paymentPayload : Envelope)
    (routeConfig : RouteConfig) (req : Request) (network : Network)
  : M VerifyResult :=
  verification <- onStore (fun s =>
    (s, verifyWith w s paymentPayload routeConfig req network)) ;;
  emit (EvVerify (pathOf network)
          (match verification with VValid _ => true | _ => false end)) ;;;
  ret verification.

Definition payerOf (payer : option string) (paymentPayload : Envelope) : string :=
  match Js.truthy payer with
  | Some p => p
  | None =>
      Js.nullish
        (Js.truthy ((pp_payload paymentPayload ≫= p_authorization) ≫= au_from))
        "unknown"
  end.

(** Credit check: consume a credit if available. *)
Definition creditCheck (w : World) (routeKey : string)
    (routeConfig : RouteConfig) (payerAddress : string) : M bool :=
  if isCreditSystemEnabled w
     && negb (bool_decide (payerAddress = "unknown")) then
    let creditConfig := getCreditConfig routeConfig in
    if 0 <? Z.of_nat (length (creditOnStatusCodes creditConfig)) then
      creditCount <- onStore (fun s =>
        (s, getCreditCount (w_storeUp w CallGetCredit) payerAddress routeKey s)) ;;
      emit (EvCreditRead (creditKey payerAddress routeKey) creditCount) ;;;
      if 0 <? creditCount then
        creditConsumed <- onStore
          (decrementCredit (w_storeUp w CallDecrementCredit)
             payerAddress routeKey) ;;
        emit (EvCreditDecrement (creditKey payerAddress routeKey)
                creditConsumed) ;;;
        ret creditConsumed
      else ret false
    else ret false
  else ret false.

Definition nonceKeyOf (w : World) (network : Network)
    (paymentPayload : Envelope) : option string :=
  if isSvmNetwork network then
    match Js.truthy (pp_payload paymentPayload ≫= p_transaction) with
    | Some txData => Some ("svm:" +:+ w_sha256hex w txData)
    | None => None
    end
  else
    match n_facilitator network with
    | Some _ => None
    | None =>
        Js.truthy ((pp_payload paymentPayload ≫= p_authorization) ≫= au_nonce)
    end.

Definition vmLabel (network : Network) : string :=
  if isSvmNetwork network then "svm" else "evm".

(** Settle payment on-chain: dispatch on the payment path. *)
Definition settlePayment (w : World) (paymentPayload : Envelope)
    (routeConfig : RouteConfig) (req : Request) (network : Network)
  : Thrown Settlement :=
  if isSvmNetwork network then
    settlePaymentSvm w paymentPayload routeConfig network
  else
    match n_facilitator network with
    | Some fac =>
        settlePaymentViaFacilitator w paymentPayload routeConfig
          (resourceOf req) network fac
    | None => settlePaymentEvm w paymentPayload
    end.

(** Settlement (skipped if a credit was consumed); yields [didSettle]. *)
Definition settlement (w : World) (routeKey : string)
    (routeConfig : RouteConfig) (req : Request) (paymentPayload : Envelope)
    (paymentId : option string) (network : Network) (payerAddress : string)
    (creditConsumed : bool) : M bool :=
  if negb creditConsumed then
    (* Mark nonce as pending *)
    let nonceKey := nonceKeyOf w network paymentPayload in
    match nonceKey with
    | Some nonceKey =>
        acquired <- onStore
          (setNoncePending (w_storeUp w CallSetNoncePending) (w_nowMillis w)
             nonceKey
             {| nm_network := pp_network paymentPayload;
                nm_payer := payerAddress; nm_route := routeKey;
                nm_vm := vmLabel network;
                nm_txHash := None; nm_blockNumber := None |}) ;;
        emit (EvNonceReserve (RedisJs.nonceKey nonceKey) acquired) ;;;
        if negb acquired then
          finish (Respond 402
            {| rb_challenge := None;
               rb_error := "Payment verification failed";
               rb_reason := Some "Nonce already used or settlement in progress";
               rb_message := None |})
        else ret tt
    | None => ret tt
    end ;;;
    (* Settle payment on-chain *)
    match settlePayment w paymentPayload routeConfig req network with
    | Returns settlement =>
        emit (EvSettle (pathOf network) true) ;;;
        (* Confirm nonce *)
        match nonceKey with
        | Some nonceKey =>
            onStore (fun s =>
              (setNonceConfirmed (w_storeUp w CallSetNonceConfirmed)
                 (w_nowMillis w) nonceKey
                 {| nm_network := se_network settlement;
                    nm_payer :=
                      Js.nullish (Js.truthy (se_payer settlement)) payerAddress;
                    nm_route := routeKey; nm_vm := vmLabel network;
                    nm_txHash := se_txHash settlement;
                    nm_blockNumber := se_blockNumber settlement |} s, tt)) ;;;
            emit (EvNonceConfirm (RedisJs.nonceKey nonceKey))
        | None => ret tt
        end ;;;
        let paymentResponseData :=
          {| pr_success := true; pr_txHash := se_txHash settlement;
             pr_network := se_network settlement;
             pr_blockNumber := se_blockNumber settlement;
             pr_facilitator := Js.truthy (se_facilitator settlement) |} in
        let paymentResponseHeader := Base64Json paymentResponseData in
        setHeader "PAYMENT-RESPONSE" (HReceipt paymentResponseHeader) ;;;
        (* Cache for idempotency *)
        match paymentId with
        | Some paymentId =>
            onStore (fun s =>
              (setIdempotencyCache (w_storeUp w CallSetIdempotency)
                 (w_nowMillis w) paymentId
                 {| ir_paymentResponseHeader := Some paymentResponseHeader;
                    ir_settlement := Some paymentResponseData |} s, tt)) ;;;
            emit (EvIdempotencyWrite (idempotencyKey paymentId))
        | None => ret tt
        end ;;;
        ret true
    | Throws message =>
        emit (EvSettle (pathOf network) false) ;;;
        match nonceKey with
        | Some nonceKey =>
            onStore (fun s =>
              (deleteNonce (w_storeUp w CallDeleteNonce) nonceKey s, tt)) ;;;
            emit (EvNonceDelete (RedisJs.nonceKey nonceKey))
        | None => ret tt
        end ;;;
        finish (Respond 402
          {| rb_challenge := None; rb_error := "Payment settlement failed";
             rb_reason := Some message; rb_message := None |})
    end
  else
    (* Credit was consumed: set header indicating credit usage *)
    setHeader "X-x402-Credit" (HText "consumed") ;;;
    ret false.

(** Async credit issuance on response finish: registration. *)
Definition scheduleIssuance (w : World) (routeKey : string)
    (routeConfig : RouteConfig) (payerAddress : string) (didSettle : bool)
  : M unit :=
  if didSettle && isCreditSystemEnabled w
     && negb (bool_decide (payerAddress = "unknown")) then
    let creditConfig := getCreditConfig routeConfig in
    if 0 <? Z.of_nat (length (creditOnStatusCodes creditConfig)) then
      registerFinish {| ci_payerAddress := payerAddress;
                        ci_routeKey := routeKey;
                        ci_creditConfig := creditConfig |} ;;;
      emit (EvIssuanceScheduled (creditKey payerAddress routeKey))
    else ret tt
  else ret tt.

(** The handler returned by [x402PaymentMiddleware(routeKey)]. *)
Definition handler (w : World) (routeKey : string) (req : Request) : M unit :=
  match w_routes w !! routeKey with
  | None => finish (Respond 500 (errorOnly ("Unknown route: " +:+ routeKey)))
  | Some routeConfig =>
  (* Check for payment header *)
  match Js.truthy (Js.or (rq_headers req !! "payment-signature")
                         (rq_headers req !! "x-payment")) with
  | None =>
      body <- challenge w routeConfig req ;;
      finish (Respond 402
        {| rb_challenge := Some body; rb_error := "Payment required";
           rb_reason := None;
           rb_message := Some ("This endpoint requires "
             +:+ rc_price routeConfig
             +:+ " USDC. See accepts array for supported networks.") |})
  | Some paymentHeader =>
  (* Decode payment payload *)
  match w_decode w paymentHeader with
  | None => finish (Respond 400 (errorOnly "Invalid payment payload encoding"))
  | Some paymentPayload =>
  (* Idempotency check *)
  let paymentId := extractPaymentIdentifier paymentPayload in
  idempotencyCheck w paymentId ;;;
  (* Resolve network *)
  match SUPPORTED_NETWORKS (w_env w) (Js.show (pp_network paymentPayload)) with
  | None =>
      if isInherited (Js.show (pp_network paymentPayload)) then
        (* an inherited member passes [if (!network)]; it has no [vm] and
           no [facilitator], so the local EVM verifier runs, and fails *)
        emit (EvVerify PathEvm false) ;;;
        match verifyPaymentEvmInherited paymentPayload with
        | Raises message => finish (Rejects message)
        | Invalid reason =>
            body <- challenge w routeConfig req ;;
            finish (Respond 402
              {| rb_challenge := Some body;
                 rb_error := "Payment verification failed";
                 rb_reason := Some reason; rb_message := None |})
        end
      else
      finish (Respond 402
        {| rb_challenge := None; rb_error := "Unsupported network";
           rb_reason := Some ("Network " +:+ Js.show (pp_network paymentPayload)
                              +:+ " is not supported");
           rb_message := None |})
  | Some network =>
  (* Verify payment *)
  verification <- verifyPayment w paymentPayload routeConfig req network ;;
  match verification with
  | VThrows message => finish (Rejects message)
  | VInvalid reason =>
      body <- challenge w routeConfig req ;;
      finish (Respond 402
        {| rb_challenge := Some body;
           rb_error := "Payment verification failed";
           rb_reason := Some reason; rb_message := None |})
  | VValid payer =>
  (* Extract payer address *)
  let payerAddress := payerOf payer paymentPayload in
  creditConsumed <- creditCheck w routeKey routeConfig payerAddress ;;
  didSettle <- settlement w routeKey routeConfig req paymentPayload paymentId
                 network payerAddress creditConsumed ;;
  scheduleIssuance w routeKey routeConfig payerAddress didSettle
  end end end end end.

Record Result := {
  outcome : Outcome;
  final : St;
}.

Definition initial (s : Store) : St :=
  {| st_store := s; st_headers := []; st_log := []; st_onFinish := None |}.

(** A request served against store [s]; falling off the end of the
    handler is the last statement, [next()]. *)
Definition x402PaymentMiddleware (w : World) (routeKey : string)
    (req : Request) (s : Store) : Result :=
  match handler w routeKey req (initial s) with
  | (st, inl _) => {| outcome := Next; final := st |}
  | (st, inr o) => {| outcome := o; final := st |}
  end.


End Pipeline.

(* ================================================================== *)
(** ** Reading a request's log *)
(* ================================================================== *)

Module Log.

Definition isVerify (e : Event) : bool :=
  match e with EvVerify _ _ => true | _ => false end.
Definition isLookup (e : Event) : bool :=
  match e with EvIdempotencyLookup _ _ => true | _ => false end.
Definition isLookupHit (e : Event) : bool :=
  match e with EvIdempotencyLookup _ true => true | _ => false end.
Definition isSettle (e : Event) : bool :=
  match e with EvSettle _ _ => true | _ => false end.
Definition isSettled (e : Event) : bool :=
  match e with EvSettle _ true => true | _ => false end.
Definition isSettleFailed (e : Event) : bool :=
  match e with EvSettle _ false => true | _ => false end.
Definition isReserve (e : Event) : bool :=
  match e with EvNonceReserve _ _ => true | _ => false end.
Definition isReserved (e : Event) : bool :=
  match e with EvNonceReserve _ true => true | _ => false end.
Definition isReserveLost (e : Event) : bool :=
  match e with EvNonceReserve _ false => true | _ => false end.
Definition isConfirm (e : Event) : bool :=
  match e with EvNonceConfirm _ => true | _ => false end.
Definition isDelete (e : Event) : bool :=
  match e with EvNonceDelete _ => true | _ => false end.
Definition isIdempotencyWrite (e : Event) : bool :=
  match e with EvIdempotencyWrite _ => true | _ => false end.
Definition isCreditConsumed (e : Event) : bool :=
  match e with EvCreditDecrement _ true => true | _ => false end.
Definition isCreditOp (e : Event) : bool :=
  match e with
  | EvCreditRead _ _ | EvCreditDecrement _ _ | EvIssuanceScheduled _ => true
  | _ => false
  end.


Definition count (p : Event -> bool) (log : list Event) : nat :=
  length (filter (fun e => p e = true) log).

(** Every [q]-event of the log has a [p]-event somewhere before it;
    [seen] tells whether one occurred before the log starts. *)
Fixpoint precededBy (p q : Event -> bool) (seen : bool) (log : list Event)
  : bool :=
  match log with
  | [] => true
  | e :: rest =>
      (if q e then seen else true) && precededBy p q (seen || p e) rest
  end.

(** No [p]-event of the log comes after a [q]-event. *)
Fixpoint noneAfter (p q : Event -> bool) (log : list Event) : bool :=
  match log with
  | [] => true
  | e :: rest =>
      (if q e then forallb (fun e' => negb (p e')) rest else true)
      && noneAfter p q rest
  end.

End Log.

(* ================================================================== *)
(** ** Vocabulary of the properties *)
(* ================================================================== *)

Module Spec.
Import Redis RedisJs.

(** The credit counter under key [k], as the scripts read it: a missing
    key counts as 0, a value that is not a number has no count. *)
Definition counter (k : string) (s : Store) : option Z :=
  tonumber_or_0 (GET k s).

Definition inRange (cap : Z) (k : string) (s : Store) : Prop :=
  exists n, counter k s = Some n /\ 0 <= n <= cap.

(** The counter under [k], if the key holds one, is a safe integer: the
    client reads it back as the number it is. *)
Definition safeCounter (k : string) (s : Store) : Prop :=
  forall n, counter k s = Some n ->
            - Js.MAX_SAFE_INTEGER <= n <= Js.MAX_SAFE_INTEGER.

(** Credit operations of concurrent requests. Each script runs
    atomically on the server, so an interleaving is a sequence. *)
Inductive CreditOp :=
| Increment (up : bool) (payerAddress routeKey : string) (maxCredits ttl : Z)
| Decrement (up : bool) (payerAddress routeKey : string).

Definition applyOp (s : Store) (op : CreditOp) : Store :=
  match op with
  | Increment up p r c t => (incrementCredit up p r c t s).1
  | Decrement up p r => (decrementCredit up p r s).1
  end.

Definition interleave (ops : list CreditOp) (s : Store) : Store :=
  fold_left applyOp ops s.

(** The increments that touch key [k] use the cap [cap]. *)
Definition cappedAt (cap : Z) (k : string) (op : CreditOp) : Prop :=
  match op with
  | Increment _ p r c _ => creditKey p r = k -> c = cap
  | Decrement _ _ _ => True
  end.

(** The route and the decoded envelope of a request, when the handler
    gets that far. *)
Definition envelopeOf (w : World) (routeKey : string) (req : Request)
  : option (RouteConfig * Envelope) :=
  match w_routes w !! routeKey with
  | None => None
  | Some routeConfig =>
      match Js.truthy (Js.or (rq_headers req !! "payment-signature")
                             (rq_headers req !! "x-payment")) with
      | None => None
      | Some paymentHeader =>
          match w_decode w paymentHeader with
          | None => None
          | Some paymentPayload => Some (routeConfig, paymentPayload)
          end
      end
  end.

Definition requestPaymentId (w : World) (routeKey : string) (req : Request)
  : option string :=
  match envelopeOf w routeKey req with
  | Some (_, paymentPayload) => Verifier.extractPaymentIdentifier paymentPayload
  | None => None
  end.

(** ... and the network it names. *)
Definition resolved (w : World) (routeKey : string) (req : Request)
  : option (RouteConfig * Envelope * Network) :=
  match envelopeOf w routeKey req with
  | None => None
  | Some (routeConfig, paymentPayload) =>
      match Routes.SUPPORTED_NETWORKS (w_env w)
              (Js.show (pp_network paymentPayload)) with
      | None => None
      | Some network => Some (routeConfig, paymentPayload, network)
      end
  end.

(** The nonce key the handler reserves for a request, if any. *)
Definition requestNonceKey (w : World) (routeKey : string) (req : Request)
  : option string :=
  match resolved w routeKey req with
  | Some (_, paymentPayload, network) =>
      Pipeline.nonceKeyOf w network paymentPayload
  | None => None
  end.

(** The error of the settlement call of a request, if it throws. *)
Definition requestSettleError (w : World) (routeKey : string) (req : Request)
  : option string :=
  match resolved w routeKey req with
  | Some (routeConfig, paymentPayload, network) =>
      match Pipeline.settlePayment w paymentPayload routeConfig req network with
      | Throws message => Some message
      | Returns _ => None
      end
  | None => None
  end.

(** The state of a request after an idempotency hit on [cached]. *)
Definition hitState (id : string) (cached : RedisValue) (st : St) : St :=
  {| st_store := st_store st;
     st_headers :=
       st_headers st ++
       match cached with
       | VIdem {| id_response :=
                    Some {| ir_paymentResponseHeader := Some h |} |} =>
           [("PAYMENT-RESPONSE", HReceipt h)]
       | _ => []
       end;
     st_log :=
       st_log st ++ [EvIdempotencyLookup (RedisJs.idempotencyKey id) true];
     st_onFinish := st_onFinish st |}.

Definition isConfirmed (e : Entry) : Prop :=
  e_ttl e = Some 604800
  /\ exists r, e_value e = VNonce r /\ nr_status r = Some "confirmed".

End Spec.

(* ================================================================== *)
(** ** Concrete requests *)
(* ================================================================== *)

Module Examples.
Import Spec.

Definition merchant : string := "0x1111111111111111111111111111111111111111".
Definition alice : string := "0xAAaaAAaaAAaaAAaaAAaaAAaaAAaaAAaaAAaaAAaa".
Definition nonce1 : string :=
  "0x0000000000000000000000000000000000000000000000000000000000000001".

(** The route of the repository's configuration, priced at 10000. *)
Definition myapi : RouteConfig :=
  {| rc_price := "$0.01"; rc_priceAtomic := 10000;
     rc_payTo := Some merchant; rc_payToSol := None;
     rc_description := "Your API description here.";
     rc_mimeType := "application/json";
     rc_creditOnStatusCodes := None; rc_maxCreditsPerPayer := None;
     rc_creditTtl := None |}.

(** The same route with no pay-to address in the environment. *)
Definition myapiNoPayTo : RouteConfig :=
  {| rc_price := "$0.01"; rc_priceAtomic := 10000;
     rc_payTo := None; rc_payToSol := None;
     rc_description := "Your API description here.";
     rc_mimeType := "application/json";
     rc_creditOnStatusCodes := None; rc_maxCreditsPerPayer := None;
     rc_creditTtl := None |}.

Definition envBase : Env :=
  {[ "BASE_RPC_URL" := "https://base.example";
     "ENABLE_CREDIT_SYSTEM" := "true" ]}.

Definition envMega : Env :=
  {[ "MEGAETH_RPC_URL" := "https://megaeth.example";
     "MERIDIAN_API_KEY" := "key";
     "ENABLE_CREDIT_SYSTEM" := "true" ]}.

Definition authorization1 : Authorization :=
  {| au_from := Some alice; au_to := merchant; au_value := 10000;
     au_validAfter := 0; au_validBefore := 2000000000;
     au_nonce := Some nonce1 |}.

Definition evmPayload : Payload :=
  {| p_authorization := Some authorization1; p_signature := Some "0xsig";
     p_transaction := None; p_extensions := None |}.

(** A local-EVM payment on Base. *)
Definition baseEnvelope : Envelope :=
  {| pp_x402Version := Some 2; pp_scheme := Some "exact";
     pp_network := Some "eip155:8453"; pp_payload := Some evmPayload;
     pp_extensions := None |}.

(** A payment on MegaETH, which goes through the facilitator. *)
Definition megaEnvelope : Envelope :=
  {| pp_x402Version := Some 2; pp_scheme := Some "exact";
     pp_network := Some "eip155:4326"; pp_payload := Some evmPayload;
     pp_extensions := None |}.


(** The payment on Base with, for network, the name of a member every
    object inherits. *)
Definition inheritedEnvelope : Envelope :=
  {| pp_x402Version := Some 2; pp_scheme := Some "exact";
     pp_network := Some "constructor"; pp_payload := Some evmPayload;
     pp_extensions := None |}.

Definition paymentId1 : string := "retry-0123456789".

(** An envelope with a paymentId and nothing else. *)
Definition idOnlyEnvelope : Envelope :=
  {| pp_x402Version := None; pp_scheme := None; pp_network := None;
     pp_payload := None;
     pp_extensions :=
       Some {| payment_identifier :=
                 Some {| paymentId := Some (JString paymentId1) |} |} |}.

Definition decode (header : string) : option Envelope :=
  if String.eqb header "base" then Some baseEnvelope
  else if String.eqb header "mega" then Some megaEnvelope
  else if String.eqb header "idonly" then Some idOnlyEnvelope
  else if String.eqb header "inherited" then Some inheritedEnvelope
  else None.

(** A facilitator that accepts everything and names no payer. *)
Definition facilitatorOk : FacilitatorData :=
  {| fd_isValid := true; fd_payer := None; fd_invalidReason := None;
     fd_errorMessage := None; fd_success := true; fd_errorReason := None;
     fd_transaction := Some "0xfeed"; fd_network := Some "megaeth";
     fd_json := "{}" |}.

(** A world in which every collaborator answers favourably; [up] tells
    which store calls go through. *)
Definition world (env : Env) (route : RouteConfig) (up : StoreCall -> bool)
  : World :=
  {| w_env := env;
     w_routes := {[ "myapi" := route ]};
     w_nowSeconds := 1700000000;
     w_nowMillis := 1700000000000;
     w_storeUp := up;
     w_decode := decode;
     w_verifyTypedData := fun address _ _ signature =>
       SigReturns (bool_decide (address = Some alice
                                /\ signature = Some "0xsig"));
     w_balanceOf := fun _ _ => Returns 5000000;
     w_sendTransfer := fun _ _ _ => Returns ("0xabcd", 42);
     w_fetch := fun _ _ _ => FetchResponse 200 true (Some facilitatorOk);
     w_svmFeePayer := fun _ => Throws "no key";
     w_svmVerify := fun _ _ _ => Throws "unused";
     w_svmSettle := fun _ _ _ => Throws "unused";
     w_sha256hex := fun _ => "00" |}.

Definition allUp (c : StoreCall) : bool := true.

(** The store is unreachable for one kind of call. *)
Definition lookupDown (c : StoreCall) : bool :=
  match c with
  | CallGetIdempotency => false
  | _ => true
  end.


Definition reserveDown (c : StoreCall) : bool :=
  match c with
  | CallSetNoncePending => false
  | _ => true
  end.

Definition request (paymentHeader : string) : Request :=
  {| rq_headers :=
       <["payment-signature" := paymentHeader]> {[ "host" := "api.example" ]};
     rq_encrypted := true;
     rq_originalUrl := "/v1/myapi/x" |}.

Definition emptyStore : Store := ∅.

Definition noMeta : NonceMeta :=
  {| nm_network := None; nm_payer := alice; nm_route := "myapi";
     nm_vm := "evm"; nm_txHash := None; nm_blockNumber := None |}.

Definition confirmedRecord : NonceRecord :=
  {| nr_status := Some "confirmed"; nr_timestamp := 0; nr_meta := noMeta |}.

Definition confirmedEntry : Entry :=
  {| e_value := VNonce confirmedRecord; e_ttl := Some 604800 |}.

(** A store that already holds a confirmed record for [nonce1]. *)
Definition usedNonce : Store :=
  {[ RedisJs.nonceKey nonce1 := confirmedEntry ]}.

Definition receipt1 : PaymentResponseData :=
  {| pr_success := true; pr_txHash := Some "0xabcd";
     pr_network := Some "eip155:8453"; pr_blockNumber := Some 42;
     pr_facilitator := None |}.

Definition cachedEntry : Entry :=
  {| e_value :=
       VIdem {| id_timestamp := 0;
                id_response :=
                  Some {| ir_paymentResponseHeader :=
                            Some (Base64Json receipt1);
                          ir_settlement := Some receipt1 |} |};
     e_ttl := Some 3600 |}.

(** A store that holds the receipt of an earlier settlement under
    [paymentId1]. *)
Definition cachedReceipt : Store :=
  {[ RedisJs.idempotencyKey paymentId1 := cachedEntry ]}.

(** A store with one credit for [alice] on the route. *)
Definition oneCredit : Store :=
  {[ RedisJs.creditKey alice "myapi" :=
       {| e_value := VNum 1; e_ttl := Some 86400 |} ]}.

(** Three issuances and a consumption, one issuance lost in transport. *)
Definition creditTraffic : list CreditOp :=
  [ Increment true alice "myapi" 2 86400;
    Increment true alice "myapi" 2 86400;
    Increment true alice "myapi" 2 86400;
    Decrement true alice "myapi";
    Increment false alice "myapi" 2 86400 ].

End Examples.

(* ================================================================== *)
(** ** src/middleware/x402.js: chain clients and the SVM singleton *)
(* ================================================================== *)

(** A chain description handed to viem: one of the library's, named by
    its export, or the minimal one built for an unknown chain id. *)
Inductive ViemChain :=
| KnownChain (export : string)
| MinimalChain (id : option Z) (name : string) (rpcUrl : option string).

Record PublicClient := {
  pc_chain : ViemChain;
  pc_rpcUrl : string;
}.

(** The lazy singleton of [getSvmFacilitator]: nothing yet, the resolved
    facilitator, or the rejected promise of a failed initialisation, which
    the module keeps. [inits] counts the runs of the initialiser. *)
Inductive SvmSlot :=
| SvmEmpty
| SvmResolved (feePayerAddress : string)
| SvmRejected (message : string).

Record SvmSingleton := {
  svm_slot : SvmSlot;
  svm_inits : nat;
}.

Module Clients.
Import Routes.

Definition VIEM_CHAINS : list (Z * string) :=
  [ (1, "mainnet"); (8453, "base"); (42161, "arbitrum"); (10, "optimism");
    (137, "polygon"); (43114, "avalanche"); (59144, "linea"); (130, "unichain");
    (4326, "megaeth"); (146, "sonic"); (999, "hyperEvm"); (57073, "ink");
    (143, "monad") ].

Fixpoint chainOf (chainId : Z) (table : list (Z * string)) : option string :=
  match table with
  | [] => None
  | (id, chain) :: rest => if id =? chainId then Some chain else chainOf chainId rest
  end.

Definition getViemChain (env : Env) (network : Network) : ViemChain :=
  match n_chainId network ≫= (fun id => chainOf id VIEM_CHAINS) with
  | Some known => KnownChain known
  | None =>
      (* Fallback for unknown chains *)
      MinimalChain (n_chainId network)
        ("Chain " +:+ Js.show (pretty <$> n_chainId network))
        (env !! n_rpcEnvVar network)
  end.

(** [publicClientCache] is a map from chain id to client. *)
Definition getPublicClient (env : Env) (network : Network)
    (cache : gmap (option Z) PublicClient)
  : gmap (option Z) PublicClient * option PublicClient :=
  let cacheKey := n_chainId network in
  match cache !! cacheKey with
  | Some client => (cache, Some client)
  | None =>
      match Js.truthy (env !! n_rpcEnvVar network) with
      | None => (cache, None)
      | Some rpcUrl =>
          let chain := getViemChain env network in
          let client := {| pc_chain := chain; pc_rpcUrl := rpcUrl |} in
          (<[cacheKey := client]> cache, Some client)
      end
  end.

Definition svmFresh : SvmSingleton := {| svm_slot := SvmEmpty; svm_inits := 0 |}.

(** [getSvmFacilitator] with its module state, for calls that follow one
    another: the initialiser is [Verifier.getSvmFacilitator]. *)
Definition getSvmFacilitator (w : World) (st : SvmSingleton)
  : SvmSingleton * Thrown string :=
  match svm_slot st with
  | SvmResolved feePayerAddress => (st, Returns feePayerAddress)
  | SvmRejected message => (st, Throws message)
  | SvmEmpty =>
      match Verifier.getSvmFacilitator w with
      | Returns feePayerAddress =>
          ({| svm_slot := SvmResolved feePayerAddress;
              svm_inits := S (svm_inits st) |}, Returns feePayerAddress)
      | Throws message =>
          ({| svm_slot := SvmRejected message;
              svm_inits := S (svm_inits st) |}, Throws message)
      end
  end.

(** [n] calls one after the other; the results, first call first. *)
Fixpoint callSvm (w : World) (n : nat) (st : SvmSingleton)
  : SvmSingleton * list (Thrown string) :=
  match n with
  | O => (st, [])
  | S n' =>
      let '(st1, r) := getSvmFacilitator w st in
      let '(st2, rs) := callSvm w n' st1 in
      (st2, r :: rs)
  end.

End Clients.

(* ================================================================== *)
(** ** src/proxy.js and the paid route of src/index.js *)
(* ================================================================== *)

(** [req.params.path]: Express 5 gives the wildcard as an array. *)
Inductive PathParam :=
| PathArray (segments : list string)
| PathString (s : string)
| PathMissing.

(** The request as the route handler and the proxy read it. An object
    ([req.body], [req.query]) is the list of its keys with their values as
    JSON text. *)
Record HttpRequest := {
  hr_request : Request;
  hr_method : string;
  hr_body : option (list (string * string));
  hr_query : option (list (string * string));
  hr_ip : option string;
  hr_params : PathParam;
}.

Record FetchOptions := {
  fo_method : string;
  fo_headers : gmap string string;
  fo_body : option string;
}.

Record BackendResponse := {
  br_status : Z;
  br_contentType : option string;
  br_text : Thrown string;                 (* await backendRes.text() *)
}.

(** The backend and the library functions the proxy calls. *)
Record Backend := {
  bk_URL : string -> string -> Thrown string;      (* new URL(path, base) *)
  bk_stringify : list (string * string) -> string; (* JSON.stringify *)
  bk_parse : string -> option string;              (* JSON.parse; None = throws *)
  bk_fetch : string -> FetchOptions -> Thrown BackendResponse;
}.




Module Proxy.

Definition nonEmpty (o : option (list (string * string))) : bool :=
  match o with
  | Some (_ :: _) => true
  | _ => false
  end.

Definition takesBody (method : string) : bool :=
  existsb (String.eqb method) ["POST"; "PUT"; "PATCH"].

(** The body of the backend request. *)
Definition bodyOf (req : HttpRequest) : option (list (string * string)) :=
  if takesBody (hr_method req) && nonEmpty (hr_body req) then hr_body req
  else if nonEmpty (hr_query req) then hr_query req
  else None.

(** The headers of the backend request. *)
Definition headersOf (req : HttpRequest) (apiKey apiKeyHeader : option string)
  : gmap string string :=
  let headers : gmap string string :=
    <["User-Agent" := "x402-Gateway/1.0"]>
      (<["Accept" := "application/json"]>
         (<["Content-Type" := "application/json"]> ∅)) in
  (* Inject the internal API key *)
  let headers :=
    match Js.truthy apiKey, Js.truthy apiKeyHeader with
    | Some key, Some name => <[name := key]> headers
    | _, _ => headers
    end in
  (* Forward context *)
  let headers :=
    match Js.truthy (hr_ip req) with
    | Some ip => <["X-Forwarded-For" := ip]> headers
    | None => headers
    end in
  let headers :=
    <["X-Forwarded-Proto" :=
        Js.nullish (Js.truthy (Some (Express.protocol (hr_request req)))) "https"]>
      headers in
  <["X-x402-Payer" :=
      Js.nullish (Js.truthy (rq_headers (hr_request req) !! "x-x402-payer"))
        "unknown"]> headers.

Definition fetchOptionsOf (b : Backend) (req : HttpRequest)
    (apiKey apiKeyHeader forceMethod : option string) : FetchOptions :=
  let backendMethod := Js.nullish (Js.truthy forceMethod) (hr_method req) in
  let body := bodyOf req in
  {| fo_method := backendMethod;
     fo_headers := headersOf req apiKey apiKeyHeader;
     fo_body :=
       if takesBody backendMethod then bk_stringify b <$> body else None |}.


End Proxy.

Module Index.
Import Routes Pipeline.


(** Extract payer address from x402 payment header. *)
Definition extractPayerFromPaymentHeader (w : World) (req : Request)
  : option string :=
  match Js.truthy (Js.or (rq_headers req !! "payment-signature")
                         (rq_headers req !! "x-payment")) with
  | None => None
  | Some paymentHeader =>
      match w_decode w paymentHeader with
      | None => None
      | Some paymentPayload =>
          Js.truthy ((pp_payload paymentPayload ≫= p_authorization) ≫= au_from)
      end
  end.




(** One entry of the [/accepted] listing. *)
Record AcceptedNetwork := {
  an_network : string;
  an_vm : Vm;
  an_chainId : option Z;
  an_asset : string;
  an_assetName : string;
  an_decimals : Z;
  an_amountRequired : Z;
  an_settlement : string;
}.

Definition acceptedNetworks (env : Env) (route : RouteConfig)
  : list AcceptedNetwork :=
  let basePriceDecimals := 6 in
  let basePriceAtomic := rc_priceAtomic route in
  (fun kv : string * Network =>
     let '(caip2, network) := kv in
     let decimalDiff := t_decimals (n_token network) - basePriceDecimals in
     let amountRequired :=
       if 0 <? decimalDiff then basePriceAtomic * 10 ^ decimalDiff
       else basePriceAtomic in
     {| an_network := caip2;
        an_vm := n_vm network;
        an_chainId :=
          match n_chainId network with
          | Some 0 => None
          | other => other
          end;
        an_asset := t_address (n_token network);
        an_assetName :=
          Js.nullish (Js.truthy (Some (t_name (n_token network))))
            (t_address (n_token network));
        an_decimals := t_decimals (n_token network);
        an_amountRequired := amountRequired;
        an_settlement :=
          match n_facilitator network with
          | Some _ => "facilitator"
          | None => "local"
          end |}) <$> getActiveNetworks env.



End Index.

(* ================================================================== *)
(** ** Further vocabulary *)
(* ================================================================== *)

Module More.

Definition isVerified (e : Event) : bool :=
  match e with EvVerify _ true => true | _ => false end.

Definition isChallenge (e : Event) : bool :=
  match e with EvChallenge => true | _ => false end.



(** A string without the separator of the credit keys. *)
Fixpoint noColon (s : string) : bool :=
  match s with
  | EmptyString => true
  | String c rest => negb (Ascii.eqb c ":") && noColon rest
  end.

(** The extensions [extractPaymentIdentifier] looks into. *)
Definition extensionsOf (paymentPayload : Envelope) : option Extensions :=
  match pp_extensions paymentPayload with
  | Some e => Some e
  | None => pp_payload paymentPayload ≫= p_extensions
  end.

(** The conditions under which the local verifier accepts. *)
Definition localConditions (w : World) (s : Store) (pp : Envelope)
    (routeConfig : RouteConfig) : Prop :=
  exists payload a network payTo,
    pp_payload pp = Some payload
    /\ p_authorization payload = Some a
    /\ Routes.SUPPORTED_NETWORKS (w_env w) (Js.show (pp_network pp)) = Some network
    /\ pp_scheme pp = Some "exact"
    /\ rc_priceAtomic routeConfig * 10 ^ (t_decimals (n_token network) - 6)
       <= au_value a
    /\ rc_payTo routeConfig = Some payTo
    /\ payTo <> ""
    /\ Js.toLowerCase (au_to a) = Js.toLowerCase payTo
    /\ au_validAfter a <= w_nowSeconds w <= au_validBefore a
    /\ RedisJs.getNonce (w_storeUp w CallGetNonce) (Js.show (au_nonce a)) s = None
    /\ w_verifyTypedData w (au_from a) (Verifier.domainOf network) (Verifier.messageOf a)
         (p_signature payload) = SigReturns true
    /\ forall balance,
         w_balanceOf w network (au_from a) = Returns balance ->
         rc_priceAtomic routeConfig * 10 ^ (t_decimals (n_token network) - 6)
         <= balance.

End More.

(* ================================================================== *)
(** ** Further concrete requests *)
(* ================================================================== *)

Module MoreExamples.
Import Examples.

Definition response1 : IdemResponse :=
  {| ir_paymentResponseHeader := Some (Base64Json receipt1);
     ir_settlement := Some receipt1 |}.

Definition paymentId2 : string := "retry-abcdefghij".

(** [alice] as a lower-case address. *)
Definition aliceLower : string := "0xaaaaaaaaaaaaaaaaaaaaaaaaaaaaaaaaaaaaaaaa".

Definition bob : string := "0xBBbbBBbbBBbbBBbbBBbbBBbbBBbbBBbbBBbbBBbb".

Definition emptyCache : gmap (option Z) PublicClient := ∅.

(** The facilitator of MegaETH. *)
Definition meridian : Facilitator :=
  {| f_url := "https://api.mrdn.finance/v1";
     f_apiKeyEnv := "MERIDIAN_API_KEY";
     f_networkName := Some "megaeth";
     f_facilitatorContract := Some "0x8E7769D440b3460b92159Dd9C6D17302b036e2d6";
     f_x402Version := Some 1 |}.

(** A request without payment header. *)
Definition bareRequest : Request :=
  {| rq_headers := {[ "host" := "api.example" ]}; rq_encrypted := true;
     rq_originalUrl := "/v1/myapi/x" |}.

(** The entries of the challenge for Base and for MegaETH. *)
Definition baseAccept : Accept :=
  {| ac_scheme := "exact"; ac_network := "eip155:8453";
     ac_maxAmountRequired := 10000; ac_amount := 10000;
     ac_maxTimeoutSeconds := 3600;
     ac_resource := "https://api.example/v1/myapi/x";
     ac_description := "Your API description here.";
     ac_mimeType := "application/json";
     ac_payTo := Some merchant;
     ac_asset := "0x833589fCD6eDb6E08f4c7C32D4f71b54bdA02913";
     ac_extra := ExtraDomain "USD Coin" (Some "2") |}.

Definition megaAccept : Accept :=
  {| ac_scheme := "exact"; ac_network := "eip155:4326";
     ac_maxAmountRequired := 10000000000000000;
     ac_amount := 10000000000000000;
     ac_maxTimeoutSeconds := 3600;
     ac_resource := "https://api.example/v1/myapi/x";
     ac_description := "Your API description here.";
     ac_mimeType := "application/json";
     ac_payTo := Some "0x8E7769D440b3460b92159Dd9C6D17302b036e2d6";
     ac_asset := "0xFAfDdbb3FC7688494971a79cc65DCa3EF82079E7";
     ac_extra := ExtraDomain "MegaUSD" (Some "1") |}.

(** Solana: an environment, a route with a Solana pay-to address, and a
    world whose SVM library accepts and settles everything for [bob]. *)
Definition solana : string := "solana:5eykt4UsFv8P8NJdTREpY1vzqKqZKvdp".

Definition envSol : Env :=
  {[ "SOLANA_RPC_URL" := "https://solana.example";
     "SOLANA_FACILITATOR_PRIVATE_KEY" := "3xampleKey" ]}.

Definition treasury : string := "Treasury1111111111111111111111111111111111".
Definition feePayer1 : string := "FeePayer1111111111111111111111111111111111".

Definition myapiSol : RouteConfig :=
  {| rc_price := "$0.01"; rc_priceAtomic := 10000;
     rc_payTo := Some merchant; rc_payToSol := Some treasury;
     rc_description := "Your API description here.";
     rc_mimeType := "application/json";
     rc_creditOnStatusCodes := None; rc_maxCreditsPerPayer := None;
     rc_creditTtl := None |}.

Definition solEnvelope : Envelope :=
  {| pp_x402Version := Some 2; pp_scheme := Some "exact";
     pp_network := Some solana;
     pp_payload :=
       Some {| p_authorization := None; p_signature := None;
               p_transaction := Some "AQID"; p_extensions := None |};
     pp_extensions := None |}.

Definition solAccept : Accept :=
  {| ac_scheme := "exact"; ac_network := solana;
     ac_maxAmountRequired := 10000; ac_amount := 10000;
     ac_maxTimeoutSeconds := 3600;
     ac_resource := "https://api.example/v1/myapi/x";
     ac_description := "Your API description here.";
     ac_mimeType := "application/json";
     ac_payTo := Some treasury;
     ac_asset := "EPjFWdd5AufqSSqeM2qN1xzybapC8G4wEGGkZwyTDt1v";
     ac_extra := ExtraFeePayer feePayer1 |}.

Definition worldSol : World :=
  {| w_env := envSol;
     w_routes := {[ "myapi" := myapiSol ]};
     w_nowSeconds := 1700000000;
     w_nowMillis := 1700000000000;
     w_storeUp := allUp;
     w_decode := fun header =>
       if String.eqb header "sol" then Some solEnvelope else None;
     w_verifyTypedData := fun _ _ _ _ => SigReturns false;
     w_balanceOf := fun _ _ => Throws "unused";
     w_sendTransfer := fun _ _ _ => Throws "unused";
     w_fetch := fun _ _ _ => FetchThrows "unused";
     w_svmFeePayer := fun _ => Returns feePayer1;
     w_svmVerify := fun _ _ _ =>
       Returns {| sv_isValid := true; sv_invalidReason := None;
                  sv_payer := Some bob |};
     w_svmSettle := fun _ _ _ =>
       Returns {| ss_success := true; ss_errorReason := None;
                  ss_transaction := "5ig"; ss_network := None;
                  ss_payer := Some bob |};
     w_sha256hex := fun _ => "00" |}.

(** The request as the route handler sees it: a GET with one query
    parameter. *)
Definition httpRequest (paymentHeader : string) : HttpRequest :=
  {| hr_request := request paymentHeader;
     hr_method := "GET";
     hr_body := None;
     hr_query := Some [("q", "1")];
     hr_ip := Some "203.0.113.7";
     hr_params := PathArray ["items"; "42"] |}.

(** A backend that answers 502 with an HTML page. *)
Definition backend : Backend :=
  {| bk_URL := fun path base => Returns (base +:+ path);
     bk_stringify := fun _ => "{}";
     bk_parse := fun text => if String.eqb text "{}" then Some text else None;
     bk_fetch := fun _ _ =>
       Returns {| br_status := 502; br_contentType := Some "text/html";
                  br_text := Returns "<html>" |} |}.


(** A payment on Base that carries a paymentId, and a world that
    decodes it. *)
Definition retryEnvelope : Envelope :=
  {| pp_x402Version := Some 2; pp_scheme := Some "exact";
     pp_network := Some "eip155:8453"; pp_payload := Some evmPayload;
     pp_extensions :=
       Some {| payment_identifier :=
                 Some {| paymentId := Some (JString paymentId1) |} |} |}.

Definition worldRetry : World :=
  {| w_env := envBase;
     w_routes := {[ "myapi" := myapi ]};
     w_nowSeconds := 1700000000;
     w_nowMillis := 1700000000000;
     w_storeUp := allUp;
     w_decode := fun header =>
       if String.eqb header "retry" then Some retryEnvelope else None;
     w_verifyTypedData := fun address _ _ signature =>
       SigReturns (bool_decide (address = Some alice
                                /\ signature = Some "0xsig"));
     w_balanceOf := fun _ _ => Returns 5000000;
     w_sendTransfer := fun _ _ _ => Returns ("0xabcd", 42);
     w_fetch := fun _ _ _ => FetchThrows "unused";
     w_svmFeePayer := fun _ => Throws "no key";
     w_svmVerify := fun _ _ _ => Throws "unused";
     w_svmSettle := fun _ _ _ => Throws "unused";
     w_sha256hex := fun _ => "00" |}.

End MoreExamples.
(* ================================================================== *)
(** ** Properties of the store adapter *)
(* ================================================================== *)

Section StoreKeys.
Import RedisJs.

Lemma nonceKey_inj a b : nonceKey a = nonceKey b -> a = b.
Proof. unfold nonceKey, NONCE_PREFIX. intros H. by simplify_eq. Qed.

Lemma idempotencyKey_inj a b : idempotencyKey a = idempotencyKey b -> a = b.
Proof. unfold idempotencyKey, IDEMPOTENCY_PREFIX. intros H. by simplify_eq. Qed.

Lemma nonceKey_not_idempotencyKey a b : nonceKey a <> idempotencyKey b.
Proof. unfold nonceKey, idempotencyKey. discriminate. Qed.

Lemma creditKey_not_idempotencyKey p r b : creditKey p r <> idempotencyKey b.
Proof. unfold creditKey, idempotencyKey. discriminate. Qed.

Lemma creditKey_not_nonceKey p r b : creditKey p r <> nonceKey b.
Proof. unfold creditKey, nonceKey. discriminate. Qed.

End StoreKeys.

Section Reservation.
Import Redis RedisJs.

Lemma setNoncePending_true up now nonce meta (s : gmap string Entry) :
  (setNoncePending up now nonce meta s).2 = true <->
  up = true /\ s !! nonceKey nonce = None.
Proof.
  unfold setNoncePending, SET_NX_EX.
  destruct up; cbn; [| intuition discriminate].
  destruct (s !! nonceKey nonce); cbn; intuition discriminate.
Qed.

Lemma setNoncePending_store up now nonce meta (s : gmap string Entry) :
  (setNoncePending up now nonce meta s).1 =
  if (setNoncePending up now nonce meta s).2 then
    <[nonceKey nonce :=
        {| e_value := VNonce {| nr_status := Some "pending";
                                nr_timestamp := now; nr_meta := meta |};
           e_ttl := Some 3600 |}]> s
  else s.
Proof.
  unfold setNoncePending, SET_NX_EX.
  destruct up; cbn; [| reflexivity].
  destruct (s !! nonceKey nonce); reflexivity.
Qed.

Lemma setNoncePending_holds up now nonce meta (s : gmap string Entry) :
  (setNoncePending up now nonce meta s).2 = true ->
  is_Some ((setNoncePending up now nonce meta s).1 !! nonceKey nonce).
Proof.
  intros H. rewrite setNoncePending_store, H.
  rewrite lookup_insert_eq. eauto.
Qed.

Lemma second_reservation_loses up1 up2 now1 now2 nonce meta1 meta2
    (s s' : gmap string Entry) :
  (is_Some ((setNoncePending up1 now1 nonce meta1 s).1 !! nonceKey nonce) ->
   is_Some (s' !! nonceKey nonce)) ->
  (setNoncePending up1 now1 nonce meta1 s).2 = true ->
  (setNoncePending up2 now2 nonce meta2 s').2 = false.
Proof.
  intros Hkept H1.
  apply setNoncePending_holds, Hkept in H1 as [e He].
  destruct (setNoncePending up2 now2 nonce meta2 s').2 eqn:H2; [| reflexivity].
  apply setNoncePending_true in H2 as [_ H2]. congruence.
Qed.

End Reservation.




Section Credits.
Import Redis RedisJs Spec.

Lemma decrementScript_spec k (s : gmap string Entry) n :
  counter k s = Some n ->
  decrementScript k s =
  if 0 <? n then
    (<[k := {| e_value := VNum (n - 1);
               e_ttl := s !! k ≫= e_ttl |}]> s, RInt 1)
  else (s, RInt 0).
Proof.
  unfold counter, decrementScript, GET, DECR, INCRBY.
  destruct (s !! k) as [[[r|r|m] t]|] eqn:Hk; cbn; intros Hn; simplify_eq.
  - destruct (0 <? n); [| reflexivity]. by replace (n + -1) with (n - 1) by lia.
  - reflexivity.
Qed.

Lemma incrementScript_spec k cap ttl (s : gmap string Entry) n :
  counter k s = Some n ->
  incrementScript k cap ttl s =
  if n <? cap then
    (<[k := {| e_value := VNum (n + 1); e_ttl := Some ttl |}]> s, RInt (n + 1))
  else
    (match s !! k with
     | Some e => <[k := {| e_value := e_value e; e_ttl := Some ttl |}]> s
     | None => s
     end, RInt n).
Proof.
  unfold counter, incrementScript, GET, INCR, INCRBY, EXPIRE.
  destruct (s !! k) as [[[r|r|m] t]|] eqn:Hk; cbn; intros Hn; simplify_eq.
  - destruct (n <? cap); cbn.
    + rewrite lookup_insert_eq. cbn. by rewrite insert_insert_eq.
    + by rewrite Hk.
  - destruct (0 <? cap); cbn.
    + rewrite lookup_insert_eq. cbn. by rewrite insert_insert_eq.
    + by rewrite Hk.
Qed.

Lemma counter_insert_eq k v t (s : gmap string Entry) :
  counter k (<[k := {| e_value := VNum v; e_ttl := t |}]> s) = Some v.
Proof. unfold counter, GET. by rewrite lookup_insert_eq. Qed.

Lemma counter_insert_ne k k' e (s : gmap string Entry) :
  k <> k' -> counter k' (<[k := e]> s) = counter k' s.
Proof. intros H. unfold counter, GET. by rewrite lookup_insert_ne. Qed.

Lemma counter_refresh k k' ttl (s : gmap string Entry) :
  counter k'
    (match s !! k with
     | Some e => <[k := {| e_value := e_value e; e_ttl := Some ttl |}]> s
     | None => s
     end) = counter k' s.
Proof.
  destruct (s !! k) as [e|] eqn:Hk; [| reflexivity].
  unfold counter, GET. destruct (decide (k = k')) as [->|Hne].
  - by rewrite lookup_insert_eq, Hk.
  - by rewrite lookup_insert_ne.
Qed.

(** A script leaves the counters under the other keys alone. *)
Lemma decrementScript_other k k' (s : gmap string Entry) :
  k <> k' -> counter k' (decrementScript k s).1 = counter k' s.
Proof.
  intros Hne. destruct (counter k s) as [n|] eqn:Hn.
  - rewrite (decrementScript_spec _ _ _ Hn).
    destruct (0 <? n); cbn; [by apply counter_insert_ne | reflexivity].
  - unfold counter in Hn. unfold decrementScript. by rewrite Hn.
Qed.

Lemma incrementScript_other k k' cap ttl (s : gmap string Entry) :
  k <> k' -> counter k' (incrementScript k cap ttl s).1 = counter k' s.
Proof.
  intros Hne. destruct (counter k s) as [n|] eqn:Hn.
  - rewrite (incrementScript_spec _ _ _ _ _ Hn).
    destruct (n <? cap); cbn; [by apply counter_insert_ne | apply counter_refresh].
  - unfold counter in Hn. unfold incrementScript. by rewrite Hn.
Qed.

Lemma decrementCredit_spec up payer route (s : gmap string Entry) n :
  counter (creditKey payer route) s = Some n ->
  decrementCredit up payer route s =
  if up && (0 <? n) then
    (<[creditKey payer route :=
         {| e_value := VNum (n - 1);
            e_ttl := s !! creditKey payer route ≫= e_ttl |}]> s, true)
  else (s, false).
Proof.
  intros Hn. unfold decrementCredit. destruct up; [| reflexivity].
  rewrite (decrementScript_spec _ _ _ Hn). by destruct (0 <? n).
Qed.

Lemma incrementCredit_spec up payer route cap ttl (s : gmap string Entry) n :
  counter (creditKey payer route) s = Some n ->
  incrementCredit up payer route cap ttl s =
  if up then ((incrementScript (creditKey payer route) cap ttl s).1,
             if n <? cap then n + 1 else n)
  else (s, -1).
Proof.
  intros Hn. unfold incrementCredit. destruct up; [| reflexivity].
  rewrite (incrementScript_spec _ _ _ _ _ Hn). by destruct (n <? cap).
Qed.

Lemma applyOp_other k (s : gmap string Entry) op :
  match op with
  | Increment _ p r _ _ | Decrement _ p r => creditKey p r <> k
  end ->
  counter k (applyOp s op) = counter k s.
Proof.
  destruct op as [up p r c t|up p r]; cbn; intros Hne.
  - unfold incrementCredit. destruct up; [| reflexivity].
    rewrite <- (incrementScript_other _ _ c t s Hne).
    by destruct (incrementScript (creditKey p r) c t s) as [s1 []].
  - unfold decrementCredit. destruct up; [| reflexivity].
    rewrite <- (decrementScript_other _ _ s Hne).
    by destruct (decrementScript (creditKey p r) s) as [s1 [| | |[|[]|]|]].
Qed.

Lemma applyOp_inRange cap k (s : gmap string Entry) op :
  cappedAt cap k op -> inRange cap k s -> inRange cap k (applyOp s op).
Proof.
  intros Hcap (n & Hn & Hr).
  destruct (decide (match op with
                    | Increment _ p r _ _ | Decrement _ p r => creditKey p r
                    end = k)) as [Hk|Hk].
  - destruct op as [up p r c t|up p r]; cbn in *; subst k.
    + rewrite (Hcap eq_refl).
      rewrite (incrementCredit_spec _ _ _ _ _ _ _ Hn).
      destruct up; cbn; [| by exists n].
      rewrite (incrementScript_spec _ _ _ _ _ Hn).
      destruct (n <? cap) eqn:Hlt; cbn.
      * exists (n + 1). rewrite counter_insert_eq. split; [done | lia].
      * exists n. by rewrite counter_refresh.
    + rewrite (decrementCredit_spec _ _ _ _ _ Hn).
      destruct up; cbn; [| by exists n].
      destruct (0 <? n) eqn:Hlt; cbn; [| by exists n].
      exists (n - 1). rewrite counter_insert_eq. split; [done | lia].
  - exists n. split; [| done]. rewrite <- Hn. apply applyOp_other.
    by destruct op.
Qed.

Lemma interleave_inRange cap k ops : forall s : gmap string Entry,
  Forall (cappedAt cap k) ops -> inRange cap k s ->
  inRange cap k (interleave ops s).
Proof.
  unfold interleave.
  induction ops as [|op ops IH]; intros s Hops Hs; cbn; [done |].
  inversion Hops; subst. apply IH; [done |]. by apply applyOp_inRange.
Qed.

End Credits.

Section CreditBounds.
Import Redis RedisJs Spec.

(** C7. For a payer and a route with cap [cap], a credit counter that
    starts in [0, cap] stays in [0, cap] under every interleaving of
    [incrementCredit] (with that cap) and [decrementCredit] calls, whether
    or not each call reaches the store. [decrementCredit] lowers the
    counter by one exactly when it is positive and the call goes through,
    and answers [true] exactly then; [incrementCredit] raises the counter
    by one exactly when it is below the cap, and whenever its script runs
    the counter's TTL is the one passed. *)
Theorem credit_counter_stays_in_range (cap : Z) (payer route : string) :
  let k := creditKey payer route in
  (forall (ops : list CreditOp) (s : gmap string Entry),
      Forall (cappedAt cap k) ops ->
      inRange cap k s -> inRange cap k (interleave ops s))
  /\ (forall (up : bool) (s : gmap string Entry) (n : Z),
        counter k s = Some n ->
        let r := decrementCredit up payer route s in
        (r.2 = true <-> up = true /\ 0 < n)
        /\ counter k r.1 = Some (if r.2 then n - 1 else n)
        /\ (r.2 = false -> r.1 = s))
  /\ (forall (up : bool) (ttl : Z) (s : gmap string Entry) (n : Z),
        counter k s = Some n ->
        let r := incrementCredit up payer route cap ttl s in
        counter k r.1 = Some (if up && (n <? cap) then n + 1 else n)
        /\ (up = true ->
            r.2 = (if n <? cap then n + 1 else n)
            /\ forall e, r.1 !! k = Some e -> e_ttl e = Some ttl)
        /\ (up = false -> r.2 = -1 /\ r.1 = s)).
Proof.
  intros k. split; [| split].
  - intros ops s. apply interleave_inRange.
  - intros up s n Hn r. subst r k.
    rewrite (decrementCredit_spec _ _ _ _ _ Hn).
    destruct up; cbn; [| by intuition].
    destruct (0 <? n) eqn:Hlt; cbn.
    + rewrite counter_insert_eq. apply Z.ltb_lt in Hlt. by intuition.
    + apply Z.ltb_ge in Hlt. intuition; try discriminate; lia.
  - intros up ttl s n Hn r. subst r k.
    rewrite (incrementCredit_spec _ _ _ _ _ _ _ Hn).
    destruct up; cbn; [| by intuition].
    rewrite (incrementScript_spec _ _ _ _ _ Hn).
    destruct (n <? cap) eqn:Hlt; cbn.
    + rewrite counter_insert_eq. split; [done |]. split; [| done].
      intros _. split; [done |]. intros e. rewrite lookup_insert_eq.
      by intros [= <-].
    + rewrite counter_refresh. split; [done |]. split; [| done].
      intros _. split; [done |]. intros e.
      destruct (s !! creditKey payer route) as [e0|] eqn:Hk.
      * rewrite lookup_insert_eq. by intros [= <-].
      * by rewrite Hk.
Qed.

End CreditBounds.

(** What each store function leaves alone. *)
Section Frames.
Import Redis RedisJs Spec.

Lemma decrementScript_frame k k' (s : gmap string Entry) :
  k <> k' -> (decrementScript k s).1 !! k' = s !! k'.
Proof.
  intros Hne. unfold decrementScript, DECR, INCRBY.
  destruct (tonumber_or_0 (GET k s)) as [n|]; [| reflexivity].
  destruct (0 <? n); [| reflexivity].
  destruct (s !! k) as [[[r|r|m] t]|]; cbn; try reflexivity;
    by rewrite lookup_insert_ne.
Qed.

Lemma decrementCredit_frame up p r (s s1 : gmap string Entry) b k' :
  decrementCredit up p r s = (s1, b) ->
  creditKey p r <> k' -> s1 !! k' = s !! k'.
Proof.
  unfold decrementCredit. intros H Hne.
  destruct up; [| by simplify_eq].
  rewrite <- (decrementScript_frame _ _ s Hne).
  destruct (decrementScript (creditKey p r) s) as [s2 rep].
  by destruct rep as [| | |[|[]|]|]; simplify_eq.
Qed.

Lemma setNoncePending_frame up now k meta (s s1 : gmap string Entry) b k' :
  setNoncePending up now k meta s = (s1, b) ->
  nonceKey k <> k' -> s1 !! k' = s !! k'.
Proof.
  unfold setNoncePending, SET_NX_EX. intros H Hne.
  destruct up; [| by simplify_eq].
  destruct (s !! nonceKey k); simplify_eq; [reflexivity |].
  by rewrite lookup_insert_ne.
Qed.

Lemma setNoncePending_acquired up now k meta (s s1 : gmap string Entry) :
  setNoncePending up now k meta s = (s1, true) ->
  s !! nonceKey k = None
  /\ s1 = <[nonceKey k :=
             {| e_value := VNonce {| nr_status := Some "pending";
                                     nr_timestamp := now; nr_meta := meta |};
                e_ttl := Some 3600 |}]> s.
Proof.
  intros H.
  pose proof (proj1 (setNoncePending_true up now k meta s)) as Ht.
  pose proof (setNoncePending_store up now k meta s) as Hs.
  rewrite H in Ht, Hs. cbn in Ht, Hs. by destruct (Ht eq_refl).
Qed.

Lemma setNonceConfirmed_frame up now k meta (s : gmap string Entry) k' :
  nonceKey k <> k' -> setNonceConfirmed up now k meta s !! k' = s !! k'.
Proof.
  intros Hne. unfold setNonceConfirmed, SET_EX.
  destruct up; cbn; [by rewrite lookup_insert_ne | reflexivity].
Qed.

Lemma setNonceConfirmed_confirmed now k meta (s : gmap string Entry) :
  exists e, setNonceConfirmed true now k meta s !! nonceKey k = Some e
            /\ isConfirmed e.
Proof.
  unfold setNonceConfirmed, SET_EX. cbn. rewrite lookup_insert_eq.
  eexists. split; [reflexivity |]. split; [reflexivity |]. by eexists.
Qed.

Lemma deleteNonce_frame up k (s : gmap string Entry) k' :
  nonceKey k <> k' -> deleteNonce up k s !! k' = s !! k'.
Proof.
  intros Hne. unfold deleteNonce, DEL.
  destruct up; cbn; [by rewrite lookup_delete_ne | reflexivity].
Qed.

Lemma deleteNonce_deleted k (s : gmap string Entry) :
  deleteNonce true k s !! nonceKey k = None.
Proof. unfold deleteNonce, DEL. cbn. apply lookup_delete_eq. Qed.

Lemma setIdempotencyCache_frame up now id resp (s : gmap string Entry) k' :
  idempotencyKey id <> k' ->
  setIdempotencyCache up now id resp s !! k' = s !! k'.
Proof.
  intros Hne. unfold setIdempotencyCache, SET_EX.
  destruct up; cbn; [by rewrite lookup_insert_ne | reflexivity].
Qed.

End Frames.

(* ================================================================== *)
(** ** Properties of the pipeline *)
(* ================================================================== *)

(** Unfolds the handler into the tree of its branches. The verifiers, the
    settlement functions and the store functions stay folded: a branch is
    chosen by their results. *)
Ltac handler_cases w routeKey req s :=
  let r := fresh "r" in
  let Hr := fresh "Hr" in
  remember (Pipeline.x402PaymentMiddleware w routeKey req s) as r eqn:Hr;
  unfold Spec.requestSettleError, Spec.requestNonceKey, Spec.requestPaymentId,
    Spec.resolved, Spec.envelopeOf in *;
  unfold Pipeline.x402PaymentMiddleware, Pipeline.handler,
    Pipeline.idempotencyCheck, Pipeline.challenge, Pipeline.verifyPayment,
    Pipeline.creditCheck, Pipeline.settlement, Pipeline.scheduleIssuance,
    Pipeline.bind, Pipeline.ret, Pipeline.finish, Pipeline.emit,
    Pipeline.setHeader, Pipeline.onStore, Pipeline.registerFinish,
    Pipeline.initial in Hr;
  repeat (case_match; simplify_eq/=);
  repeat match goal with
    | H : negb ?b = _ |- _ => is_var b; destruct b; simplify_eq/=
    end.


Lemma idempotencyKey_not_nonceKey a b : RedisJs.idempotencyKey a <> RedisJs.nonceKey b.
Proof. intros H. symmetry in H. by apply nonceKey_not_idempotencyKey in H. Qed.

(** Rewrites lookups in the store a branch ends with. *)
Ltac store_lookup :=
  repeat first
    [ rewrite setIdempotencyCache_frame by apply idempotencyKey_not_nonceKey
    | rewrite setNonceConfirmed_frame by apply nonceKey_not_idempotencyKey
    | rewrite deleteNonce_frame by apply nonceKey_not_idempotencyKey
    | rewrite deleteNonce_deleted ].

(** Brings a lookup under an idempotency key back to the initial store. *)
Ltac frame_idempotency :=
  repeat first
    [ rewrite deleteNonce_frame by apply nonceKey_not_idempotencyKey
    | match goal with
      | H : RedisJs.setNoncePending _ _ _ _ _ = (?s1, _)
        |- context [?s1 !! _] =>
          rewrite (setNoncePending_frame _ _ _ _ _ _ _ _ H)
            by apply nonceKey_not_idempotencyKey
      end
    | match goal with
      | H : RedisJs.decrementCredit _ _ _ _ = (?s1, _)
        |- context [?s1 !! _] =>
          rewrite (decrementCredit_frame _ _ _ _ _ _ _ H)
            by apply creditKey_not_idempotencyKey
      end ].

(* ================================================================== *)
(** ** Facts about the network table and the local verifier *)
(* ================================================================== *)

Section VerifierFacts.
Import Redis RedisJs Routes Verifier.

Lemma scaled_amount (P d : Z) :
  6 <= d ->
  (if 0 <? d - 6 then P * 10 ^ (d - 6) else P) = P * 10 ^ (d - 6).
Proof.
  intros Hd. destruct (0 <? d - 6) eqn:Hlt; [reflexivity |].
  apply Z.ltb_ge in Hlt. replace (d - 6) with 0 by lia. cbn. lia.
Qed.

(** Every network of the registry has a token of 6 or 18 decimals. *)
Lemma supported_decimals env key network :
  SUPPORTED_NETWORKS env key = Some network ->
  t_decimals (n_token network) = 6 \/ t_decimals (n_token network) = 18.
Proof.
  unfold SUPPORTED_NETWORKS, getActiveNetworks.
  assert (Hall : Forall (fun kv : string * Network =>
                   t_decimals (n_token kv.2) = 6
                   \/ t_decimals (n_token kv.2) = 18) ALL_NETWORKS).
  { unfold ALL_NETWORKS.
    repeat (constructor; [vm_compute; auto |]). constructor. }
  revert Hall. generalize ALL_NETWORKS. intros l.
  induction l as [|[k n] l IH]; intros Hall; [discriminate |].
  inversion Hall as [|? ? Hn Hl]; subst.
  rewrite filter_cons. case_decide; cbn; [| by apply IH].
  destruct (String.eqb k key); [| by apply IH].
  by intros [= <-].
Qed.





(** A failure is not a valid verdict. *)
Lemma verdictOf_not_valid f payer : verdictOf f <> VValid payer.
Proof. by destruct f. Qed.

(** With an inherited member for network the local verifier fails, and
    the handler lets that failure through. *)
Lemma verifyPaymentEvm_inherited w (s : gmap string Entry) pp routeConfig :
  SUPPORTED_NETWORKS (w_env w) (Js.show (pp_network pp)) = None ->
  isInherited (Js.show (pp_network pp)) = true ->
  verifyPaymentEvm w s pp routeConfig = verdictOf (verifyPaymentEvmInherited pp).
Proof.
  intros Hnet Hin. unfold verifyPaymentEvm, verifyPaymentEvmInherited.
  destruct (pp_payload pp); [| reflexivity]. by rewrite Hnet, Hin.
Qed.


End VerifierFacts.

Section NonceGate.
Import Redis RedisJs Pipeline Log.

(** C2 (amended). [setNoncePending] is a conditional set with
    only-if-absent semantics and TTL 3600 seconds: it answers [true]
    exactly when the call reaches the store and no record exists under
    the key, and then the key holds a pending record; otherwise the store
    is unchanged (a store error answers [false]). Of two reservations
    of one nonce with no release of the key in between, at most one
    succeeds. A request whose reservation succeeds goes on to settlement;
    a request whose reservation fails ends with a 402 whose reason is
    'Nonce already used or settlement in progress' and never reaches
    settlement. *)
Theorem nonce_reservation_exclusive :
  (forall up now nonce meta (s : gmap string Entry),
      let r := setNoncePending up now nonce meta s in
      (r.2 = true <-> up = true /\ s !! nonceKey nonce = None)
      /\ r.1 = if r.2 then
                 <[nonceKey nonce :=
                     {| e_value := VNonce {| nr_status := Some "pending";
                                             nr_timestamp := now;
                                             nr_meta := meta |};
                        e_ttl := Some 3600 |}]> s
               else s)
  /\ (forall up1 up2 now1 now2 nonce meta1 meta2 (s s' : gmap string Entry),
        (is_Some ((setNoncePending up1 now1 nonce meta1 s).1 !! nonceKey nonce)
         -> is_Some (s' !! nonceKey nonce)) ->
        ~ ((setNoncePending up1 now1 nonce meta1 s).2 = true
           /\ (setNoncePending up2 now2 nonce meta2 s').2 = true))
  /\ (forall w routeKey req (s : gmap string Entry),
        let r := x402PaymentMiddleware w routeKey req s in
        (existsb isReserved (st_log (final r)) = true ->
         existsb isSettle (st_log (final r)) = true)
        /\ (existsb isReserveLost (st_log (final r)) = true ->
            outcome r =
              Respond 402
                {| rb_challenge := None;
                   rb_error := "Payment verification failed";
                   rb_reason :=
                     Some "Nonce already used or settlement in progress";
                   rb_message := None |}
            /\ existsb isSettle (st_log (final r)) = false)).
Proof.
  split; [| split].
  - intros up now nonce meta s r. subst r. split.
    + apply setNoncePending_true.
    + apply setNoncePending_store.
  - intros up1 up2 now1 now2 nonce meta1 meta2 s s' Hkept [H1 H2].
    rewrite (second_reservation_loses _ _ _ _ _ _ _ _ _ Hkept H1) in H2.
    discriminate.
  - intros w routeKey req s r. subst r.
    handler_cases w routeKey req s; split; intros ?; try discriminate; auto.
Qed.

End NonceGate.

Section SettlementPath.
Import Redis RedisJs Pipeline Log Spec More.

(** C3 (amended). A request that reaches the settlement engine has
    been verified (a verification that answered valid comes before the
    settlement), has consumed no credit, and invokes settlement once;
    when settlement succeeds the handler proceeds, and when it throws the
    request ends with a 402 'Payment settlement failed' carrying the
    error. When the request has a nonce key (the authorization nonce on
    the local-EVM path, 'svm:' + sha256 of the transaction on the SVM
    path; there is none on the external-facilitator path) the path is
    VERIFIED, NONCE_RESERVED, SETTLED, NONCE_CONFIRMED: the key is
    reserved before settlement is invoked, confirmation is written after
    a successful settlement (leaving a confirmed record with TTL 604800
    seconds when that write reaches the store), and after a failed
    settlement the key is deleted (the record is gone when the delete
    reaches the store). Without a nonce key settlement runs with no
    reservation, confirmation or deletion. *)
Theorem settlement_follows_nonce_path w routeKey req (s : gmap string Entry) :
  let r := x402PaymentMiddleware w routeKey req s in
  let log := st_log (final r) in
  existsb isSettle log = true ->
  Log.count isSettle log = 1%nat
  /\ precededBy isVerified isSettle false log = true
  /\ existsb isCreditConsumed log = false
  /\ (existsb isSettled log = true -> outcome r = Next)
  /\ (existsb isSettleFailed log = true ->
      exists message,
        requestSettleError w routeKey req = Some message
        /\ outcome r =
             Respond 402
               {| rb_challenge := None;
                  rb_error := "Payment settlement failed";
                  rb_reason := Some message; rb_message := None |})
  /\ match requestNonceKey w routeKey req with
     | None =>
         existsb isReserve log = false
         /\ existsb isConfirm log = false
         /\ existsb isDelete log = false
     | Some k =>
         In (EvNonceReserve (nonceKey k) true) log
         /\ precededBy isReserved isSettle false log = true
         /\ (existsb isSettled log = true ->
             In (EvNonceConfirm (nonceKey k)) log
             /\ precededBy isSettled isConfirm false log = true
             /\ (w_storeUp w CallSetNonceConfirmed = true ->
                 exists e, st_store (final r) !! nonceKey k = Some e
                           /\ isConfirmed e))
         /\ (existsb isSettleFailed log = true ->
             In (EvNonceDelete (nonceKey k)) log
             /\ precededBy isSettleFailed isDelete false log = true
             /\ (w_storeUp w CallDeleteNonce = true ->
                 st_store (final r) !! nonceKey k = None))
     end.
Proof.
  intros r log Hsettle. subst r log.
  handler_cases w routeKey req s; try discriminate.
  all: repeat split; intros; try discriminate; try reflexivity; cbn; eauto 10.
  all: try match goal with
         | H : w_storeUp _ _ = true |- _ => rewrite H
         end; store_lookup; try reflexivity;
       try apply setNonceConfirmed_confirmed.
Qed.

End SettlementPath.

Section SettleOrCredit.
Import Redis RedisJs Pipeline Log Spec.


End SettleOrCredit.

Section Idempotency.
Import Redis RedisJs Pipeline Log Spec.

(** C6. The idempotency lookup of a request's paymentId comes before
    any verification: no lookup follows a verification, and when the
    envelope carries a paymentId every verification has the lookup before
    it. An idempotency record is written only after a successful
    settlement, in the log and in the store: a request that changes what
    is stored under an idempotency key has settled. When the lookup hits,
    the handler proceeds to the backend with the store untouched, without
    verifying or settling, and re-emits the cached PAYMENT-RESPONSE
    header. *)
Theorem idempotency_lookup_first_write_last w routeKey req
    (s : gmap string Entry) :
  let r := x402PaymentMiddleware w routeKey req s in
  let log := st_log (final r) in
  noneAfter isLookup isVerify log = true
  /\ (forall id, requestPaymentId w routeKey req = Some id ->
        precededBy isLookup isVerify false log = true)
  /\ precededBy isSettled isIdempotencyWrite false log = true
  /\ (forall id,
        st_store (final r) !! idempotencyKey id <> s !! idempotencyKey id ->
        existsb isSettled log = true)
  /\ (existsb isLookupHit log = true ->
      outcome r = Next
      /\ existsb isVerify log = false
      /\ existsb isSettle log = false
      /\ st_store (final r) = s
      /\ forall id record response h,
           requestPaymentId w routeKey req = Some id ->
           getIdempotencyCache (w_storeUp w CallGetIdempotency) id s
             = Some (VIdem record) ->
           id_response record = Some response ->
           ir_paymentResponseHeader response = Some h ->
           st_headers (final r) = [("PAYMENT-RESPONSE", HReceipt h)]).
Proof.
  intros r log. subst r log.
  handler_cases w routeKey req s.
  all: repeat split; try reflexivity; intros; try discriminate;
    simplify_eq/=; try reflexivity.
  all: exfalso;
    match goal with H : _ <> _ |- _ => apply H end;
    frame_idempotency; reflexivity.
Qed.

End Idempotency.

Section PayerIdentity.
Import Redis RedisJs Routes Verifier Builder Pipeline Log Spec.



End PayerIdentity.

Section CachedPaymentId.
Import Redis RedisJs Routes Verifier Builder Pipeline Log Spec.

Lemma idPattern_spec id :
  idPattern id = true ->
  id <> "" /\ Forall (fun c => isIdChar c = true) (list_ascii_of_string id).
Proof.
  induction id as [|c rest IH]; [discriminate |].
  cbn. destruct rest as [|c' rest'].
  - intros Hc. split; [discriminate |]. by repeat constructor.
  - intros [Hc Hrest]%andb_true_iff. split; [discriminate |].
    constructor; [done |]. by apply IH.
Qed.

Lemma bind_finish {A B : Type} (m : M A) (k : A -> M B) st st1 o :
  m st = (st1, inr o) -> bind m k st = (st1, inr o).
Proof. unfold bind. by intros ->. Qed.

(** The state a hit leaves behind. *)
Lemma idempotencyCheck_hit w id st cached :
  getIdempotencyCache (w_storeUp w CallGetIdempotency) id (st_store st)
    = Some cached ->
  idempotencyCheck w (Some id) st = (hitState id cached st, inr Next).
Proof.
  intros Hc. unfold idempotencyCheck, bind, onStore, emit, setHeader, finish,
    ret, hitState.
  rewrite Hc. destruct st as [s0 hs lg fin]. cbn.
  destruct cached as [nr|[ts [[[receipt|] stl]|]]|n]; cbn;
    by rewrite ?app_nil_r.
Qed.

(** C10 (amended). On a configured route, if the payment header decodes
    to an envelope that carries a well-formed paymentId (a string of 16
    to 128 characters over [A-Za-z0-9_-], under the envelope's extensions
    or else its payload's), the idempotency lookup reaches the store, and
    a record is stored under that paymentId, then the handler proceeds to
    the backend at once: the lookup is its only action, so it resolves
    no network, checks no scheme, signature or amount, settles nothing,
    and leaves the store as it was, whatever the rest of the envelope. *)
Theorem cached_payment_id_proceeds w routeKey req (s : gmap string Entry)
    routeConfig paymentHeader pp id e :
  w_routes w !! routeKey = Some routeConfig ->
  Js.truthy (Js.or (rq_headers req !! "payment-signature")
                   (rq_headers req !! "x-payment")) = Some paymentHeader ->
  w_decode w paymentHeader = Some pp ->
  extractPaymentIdentifier pp = Some id ->
  w_storeUp w CallGetIdempotency = true ->
  s !! idempotencyKey id = Some e ->
  e_value e <> VNum 0 ->
  let r := x402PaymentMiddleware w routeKey req s in
  (16 <= Z.of_nat (String.length id) <= 128
   /\ Forall (fun c => isIdChar c = true) (list_ascii_of_string id))
  /\ outcome r = Next
  /\ st_log (final r) = [EvIdempotencyLookup (idempotencyKey id) true]
  /\ st_store (final r) = s
  /\ st_onFinish (final r) = None
  /\ forall name h, In (name, h) (st_headers (final r)) ->
       name = "PAYMENT-RESPONSE"
       /\ exists record response receipt,
            e_value e = VIdem record
            /\ id_response record = Some response
            /\ ir_paymentResponseHeader response = Some receipt
            /\ h = HReceipt receipt.
Proof.
  intros Hroute Hheader Hdecode Hid Hup He Hvalue r. split.
  - unfold extractPaymentIdentifier in Hid.
    repeat case_match; simplify_eq.
    all: repeat match goal with
           | H : _ && _ = true |- _ => apply andb_true_iff in H as [? ?]
           | H : (_ <=? _) = true |- _ => apply Z.leb_le in H
           end.
    all: split; [lia |]; by apply idPattern_spec.
  - subst r.
    assert (Hcached : getIdempotencyCache true id s = Some (e_value e)).
    { unfold getIdempotencyCache, GET. rewrite He. cbn.
      destruct (e_value e) as [| |[| |]]; done. }
    unfold x402PaymentMiddleware, handler.
    rewrite Hroute, Hheader, Hdecode, Hid.
    rewrite (bind_finish _ _ _ _ _
               (idempotencyCheck_hit w id (initial s) (e_value e)
                  ltac:(by rewrite Hup))).
    cbn [outcome final st_log st_store st_onFinish st_headers initial
         hitState app].
    do 4 (split; [done |]).
    intros name h Hin.
    destruct (e_value e) as [nr|[ts [[[receipt|] st]|]]|n]; cbn in Hin;
      try done.
    destruct Hin as [[= <- <-]|[]]. split; [done |].
    by eexists _, _, _.
Qed.

End CachedPaymentId.

(* ================================================================== *)
(** ** Amount scaling, the local verifier and the challenge *)
(* ================================================================== *)

Section Amounts.
Import Routes Verifier Builder.


End Amounts.

Section LocalVerifier.
Import Redis RedisJs Routes Verifier.


End LocalVerifier.

Section ChallengeRecipients.
Import Routes Verifier Builder Examples.

(** The recipient of an emitted entry follows the precedence rule. *)
Lemma accept_recipient routeConfig resource feePayer network a :
  acceptFor routeConfig resource feePayer network = Some a ->
  ac_payTo a =
    if isSvmNetwork network then Js.truthy (rc_payToSol routeConfig)
    else Js.or (n_facilitator network ≫= f_facilitatorContract)
               (rc_payTo routeConfig).
Proof.
  unfold acceptFor. destruct (isSvmNetwork network).
  - destruct (Js.truthy (rc_payToSol routeConfig)), (Js.truthy feePayer);
      by intros [= <-].
  - by intros [= <-].
Qed.

(** The SVM branch of the loop skips an entry that has no recipient. *)
Lemma svm_entry_without_recipient_omitted routeConfig resource feePayer network :
  isSvmNetwork network = true ->
  Js.truthy (rc_payToSol routeConfig) = None ->
  acceptFor routeConfig resource feePayer network = None.
Proof. unfold acceptFor. by intros -> ->. Qed.

(** C9. With Base active and no pay-to address configured for the route,
    the challenge lists the Base entry although it has no recipient: the
    EVM branch of the loop pushes the entry whatever [payTo] is, where the
    SVM branch skips an entry without one, and the local verifier rejects
    every payment for such a route with 'No payTo address configured'. *)
Theorem challenge_lists_entry_without_recipient :
  let w := world envBase myapiNoPayTo allUp in
  ch_accepts (headerBase64 (buildPaymentRequired w myapiNoPayTo (request ""))) =
    [ {| ac_scheme := "exact"; ac_network := "eip155:8453";
         ac_maxAmountRequired := 10000; ac_amount := 10000;
         ac_maxTimeoutSeconds := 3600;
         ac_resource := "https://api.example/v1/myapi/x";
         ac_description := "Your API description here.";
         ac_mimeType := "application/json";
         ac_payTo := None;
         ac_asset := "0x833589fCD6eDb6E08f4c7C32D4f71b54bdA02913";
         ac_extra := ExtraDomain "USD Coin" (Some "2") |} ]
  /\ verifyPaymentEvm w emptyStore baseEnvelope myapiNoPayTo
     = VInvalid "No payTo address configured"
  /\ acceptFor myapiNoPayTo "https://api.example/v1/myapi/x"
       (Some "FeePayer1111") SOLANA_MAINNET = None.
Proof. vm_compute. repeat split; reflexivity. Qed.

End ChallengeRecipients.

(* ================================================================== *)
(** ** The properties on concrete requests *)
(* ================================================================== *)

Section Instances.
Import Redis RedisJs Routes Verifier Builder Pipeline Log Spec Examples.



(** A request whose envelope names an inherited member as network is
    not answered: the verifier throws and the handler rejects, with the
    store untouched. *)
Lemma inherited_network_rejects :
  let r := x402PaymentMiddleware (world envBase myapi allUp) "myapi"
             (request "inherited") emptyStore in
  outcome r = Rejects "Cannot read properties of undefined (reading 'decimals')"
  /\ st_log (final r) = [EvVerify PathEvm false]
  /\ st_store (final r) = emptyStore.
Proof. vm_compute. repeat split. Qed.

(** C2, as stated, fails: no record exists under the key, the call does
    not reach the store, and the reservation answers false. *)
Lemma nonce_reservation_counterexample :
  emptyStore !! nonceKey nonce1 = None
  /\ setNoncePending false 1700000000000 nonce1 noMeta emptyStore = (emptyStore, false).
Proof. split; reflexivity. Qed.

Lemma nonce_reservation_exclusive_witness :
  ~ ((setNoncePending true 1 nonce1 noMeta emptyStore).2 = true
     /\ (setNoncePending true 2 nonce1 noMeta
           (setNoncePending true 1 nonce1 noMeta emptyStore).1).2 = true)
  /\ outcome (x402PaymentMiddleware (world envBase myapi reserveDown) "myapi"
                (request "base") emptyStore)
     = Respond 402
         {| rb_challenge := None;
            rb_error := "Payment verification failed";
            rb_reason := Some "Nonce already used or settlement in progress";
            rb_message := None |}.
Proof.
  destruct nonce_reservation_exclusive as (_ & Htwo & Hrun).
  split.
  - apply Htwo. exact (fun H => H).
  - apply (Hrun (world envBase myapi reserveDown) "myapi" (request "base") emptyStore).
    vm_compute. reflexivity.
Defined.

(** C3, as stated, fails: a payment on the facilitator path reaches the
    settlement engine, and settles, with no nonce reserved. *)
Lemma settlement_path_counterexample :
  let r := x402PaymentMiddleware (world envMega myapi allUp) "myapi"
             (request "mega") emptyStore in
  st_log (final r)
  = [ EvVerify PathFacilitator true;
      EvCreditRead (creditKey alice "myapi") 0;
      EvSettle PathFacilitator true;
      EvIssuanceScheduled (creditKey alice "myapi") ]
  /\ st_store (final r) = emptyStore
  /\ outcome r = Next.
Proof. vm_compute. repeat split; reflexivity. Qed.

Lemma settlement_follows_nonce_path_witness :
  let r := x402PaymentMiddleware (world envBase myapi allUp) "myapi"
             (request "base") emptyStore in
  existsb isSettle (st_log (final r)) = true
  /\ requestNonceKey (world envBase myapi allUp) "myapi" (request "base")
     = Some nonce1
  /\ In (EvNonceReserve (nonceKey nonce1) true) (st_log (final r))
  /\ exists e, st_store (final r) !! nonceKey nonce1 = Some e /\ isConfirmed e.
Proof.
  intros r.
  assert (Hsettle : existsb isSettle (st_log (final r)) = true)
    by (vm_compute; reflexivity).
  assert (Hkey : requestNonceKey (world envBase myapi allUp) "myapi"
                   (request "base") = Some nonce1)
    by (vm_compute; reflexivity).
  pose proof (settlement_follows_nonce_path
                (world envBase myapi allUp) "myapi" (request "base") emptyStore Hsettle)
    as (_ & _ & _ & _ & _ & Hpath).
  rewrite Hkey in Hpath. destruct Hpath as (Hres & _ & Hok & _).
  do 3 (split; [done |]).
  apply Hok; vm_compute; reflexivity.
Defined.




Lemma idempotency_lookup_first_write_last_witness :
  let r := x402PaymentMiddleware (world envMega myapi allUp) "myapi"
             (request "idonly") cachedReceipt in
  existsb isLookupHit (st_log (final r)) = true
  /\ outcome r = Next
  /\ st_store (final r) = cachedReceipt
  /\ st_headers (final r) = [("PAYMENT-RESPONSE", HReceipt (Base64Json receipt1))].
Proof.
  intros r.
  assert (Hhit : existsb isLookupHit (st_log (final r)) = true)
    by (vm_compute; reflexivity).
  destruct (idempotency_lookup_first_write_last
              (world envMega myapi allUp) "myapi" (request "idonly")
              cachedReceipt)
    as (_ & _ & _ & _ & Hon).
  destruct (Hon Hhit) as (Hnext & _ & _ & Hstore & Hheader).
  do 3 (split; [done |]).
  eapply (Hheader paymentId1); vm_compute; reflexivity.
Defined.

Lemma credit_counter_stays_in_range_witness :
  inRange 2 (creditKey alice "myapi") (interleave creditTraffic emptyStore)
  /\ (decrementCredit true alice "myapi" oneCredit).2 = true
  /\ counter (creditKey alice "myapi")
       (incrementCredit true alice "myapi" 2 86400 oneCredit).1 = Some 2.
Proof.
  destruct (credit_counter_stays_in_range 2 alice "myapi")
    as (Hany & Hdec & Hinc).
  split; [| split].
  - apply Hany.
    + repeat (constructor; [first [exact I | intros _; reflexivity] |]).
      constructor.
    + exists 0. split; [reflexivity | lia].
  - apply (Hdec true oneCredit 1 eq_refl). split; [reflexivity | lia].
  - apply (Hinc true 86400 oneCredit 1 eq_refl).
Defined.



(** The Host and X-Forwarded-Proto headers do reach the handler: they
    make the resource URL of the challenge and of the facilitator body. *)
Lemma resource_follows_forwarded_headers :
  resourceOf (request "base") = "https://api.example/v1/myapi/x"
  /\ resourceOf
       {| rq_headers :=
            <["x-forwarded-proto" := "http , https"]>
              (<["host" := "other.example"]> (rq_headers (request "base")));
          rq_encrypted := true;
          rq_originalUrl := "/v1/myapi/x" |}
     = "http://other.example/v1/myapi/x".
Proof. split; vm_compute; reflexivity. Qed.

(** C10, as stated, fails: a record is cached under the paymentId, the
    lookup does not reach the store, and the handler goes on to resolve
    the network and answers 402. *)
Lemma cached_payment_id_counterexample :
  extractPaymentIdentifier idOnlyEnvelope = Some paymentId1
  /\ is_Some (cachedReceipt !! idempotencyKey paymentId1)
  /\ outcome (x402PaymentMiddleware (world envMega myapi lookupDown) "myapi"
                (request "idonly") cachedReceipt)
     = Respond 402
         {| rb_challenge := None; rb_error := "Unsupported network";
            rb_reason := Some "Network undefined is not supported";
            rb_message := None |}.
Proof. vm_compute. repeat split; eauto. Qed.

Lemma cached_payment_id_proceeds_witness :
  let r := x402PaymentMiddleware (world envMega myapi allUp) "myapi"
             (request "idonly") cachedReceipt in
  outcome r = Next
  /\ st_log (final r) = [EvIdempotencyLookup (idempotencyKey paymentId1) true]
  /\ st_store (final r) = cachedReceipt.
Proof.
  intros r.
  destruct (cached_payment_id_proceeds (world envMega myapi allUp) "myapi"
              (request "idonly") cachedReceipt myapi "idonly" idOnlyEnvelope
              paymentId1 cachedEntry)
    as (_ & Hnext & Hlog & Hstore & _); try (vm_compute; reflexivity).
  - discriminate.
  - by repeat split.
Defined.

End Instances.

(* ================================================================== *)
(** ** Further properties of the store adapter *)
(* ================================================================== *)

Section NonceLifecycle.
Import Redis RedisJs Verifier.

(** X1. Reserving a free nonce and then releasing it is a round trip,
    when the calls reach the store: after the reservation the nonce reads
    back as a pending record carrying the metadata, and [deleteNonce]
    restores the store exactly as it was. *)
Theorem reserve_then_release_restores now nonce meta (s : gmap string Entry) :
  s !! nonceKey nonce = None ->
  let reserved := setNoncePending true now nonce meta s in
  reserved.2 = true
  /\ getNonce true nonce reserved.1
     = Some (VNonce {| nr_status := Some "pending"; nr_timestamp := now;
                       nr_meta := meta |})
  /\ deleteNonce true nonce reserved.1 = s
  /\ getNonce true nonce (deleteNonce true nonce reserved.1) = None.
Proof.
  intros Hfree reserved.
  assert (Hr : reserved
               = (<[nonceKey nonce :=
                      {| e_value := VNonce {| nr_status := Some "pending";
                                              nr_timestamp := now;
                                              nr_meta := meta |};
                         e_ttl := Some 3600 |}]> s, true)).
  { subst reserved. unfold setNoncePending, SET_NX_EX. by rewrite Hfree. }
  rewrite Hr. cbn [fst snd].
  assert (Hdel : deleteNonce true nonce
                   (<[nonceKey nonce :=
                        {| e_value := VNonce {| nr_status := Some "pending";
                                                nr_timestamp := now;
                                                nr_meta := meta |};
                           e_ttl := Some 3600 |}]> s) = s).
  { unfold deleteNonce, DEL. cbn [fst]. by apply delete_insert_id. }
  split; [reflexivity |]. split; [| split].
  - unfold getNonce, GET. by rewrite lookup_insert_eq.
  - exact Hdel.
  - rewrite Hdel. unfold getNonce, GET. by rewrite Hfree.
Qed.

(** X2. Confirmation is unconditional and sticky: whatever the key held,
    once [setNonceConfirmed] has reached the store the nonce reads back as
    a confirmed record with TTL 604800 seconds, every later reservation of
    it fails and leaves the store unchanged, and the status a verifier
    would report for it is 'confirmed'. *)
Theorem confirmed_nonce_stays_taken now nonce data (s : gmap string Entry) :
  let confirmed := setNonceConfirmed true now nonce data s in
  let record := {| nr_status := Some "confirmed"; nr_timestamp := now;
                   nr_meta := data |} in
  confirmed !! nonceKey nonce
    = Some {| e_value := VNonce record; e_ttl := Some 604800 |}
  /\ getNonce true nonce confirmed = Some (VNonce record)
  /\ statusOf (VNonce record) = "confirmed"
  /\ forall up now' meta',
       setNoncePending up now' nonce meta' confirmed = (confirmed, false).
Proof.
  intros confirmed record. subst confirmed record.
  unfold setNonceConfirmed, SET_EX. cbn.
  repeat split.
  - by rewrite lookup_insert_eq.
  - unfold getNonce, GET. by rewrite lookup_insert_eq.
  - intros up now' meta'. unfold setNoncePending, SET_NX_EX.
    destruct up; [| reflexivity]. by rewrite lookup_insert_eq.
Qed.

End NonceLifecycle.

Section IdempotencyCache.
Import Redis RedisJs.

(** X3. The idempotency cache is a map from paymentId to response: what
    [setIdempotencyCache] stores under a paymentId, when the write reaches
    the store, is what [getIdempotencyCache] then returns for it, with TTL
    3600 seconds, and the entries of the other paymentIds are not
    affected. *)
Theorem idempotency_cache_round_trip now id response (s : gmap string Entry) :
  let cached := setIdempotencyCache true now id response s in
  getIdempotencyCache true id cached
    = Some (VIdem {| id_timestamp := now; id_response := Some response |})
  /\ (cached !! idempotencyKey id ≫= e_ttl) = Some 3600
  /\ forall up id', id' <> id ->
       getIdempotencyCache up id' cached = getIdempotencyCache up id' s.
Proof.
  intros cached. subst cached. unfold setIdempotencyCache, SET_EX. cbn.
  repeat split.
  - unfold getIdempotencyCache, GET. by rewrite lookup_insert_eq.
  - by rewrite lookup_insert_eq.
  - intros up id' Hne. unfold getIdempotencyCache, GET.
    destruct up; [| reflexivity].
    rewrite lookup_insert_ne; [reflexivity |].
    intros H. by apply idempotencyKey_inj in H.
Qed.

End IdempotencyCache.

Section CreditReads.
Import Redis RedisJs Spec.

Lemma getCreditCount_counter p r (s : gmap string Entry) n :
  counter (creditKey p r) s = Some n -> getCreditCount true p r s = n.
Proof.
  unfold counter, getCreditCount, GET.
  destruct (s !! creditKey p r) as [[[?|?|m] t]|]; cbn; congruence.
Qed.

(** X4. The read and the two scripts agree on the counter, for a store
    whose counter under the key is a safe integer (or whose key holds no
    number): with calls that reach the store, [decrementCredit] consumes
    a credit exactly when [getCreditCount] reads a positive count, and
    then the count read is one less and still a safe integer; a failed
    consumption leaves the store as it was; with a positive TTL and a cap
    that is a safe integer, a count returned by [incrementCredit] is the
    count read right after it, again a safe integer; a read that does not
    reach the store is 0. *)
Theorem credit_reads_agree_with_scripts payer route (s : gmap string Entry) :
  safeCounter (creditKey payer route) s ->
  let consumed := decrementCredit true payer route s in
  (consumed.2 = true <-> 0 < getCreditCount true payer route s)
  /\ (consumed.2 = true ->
      getCreditCount true payer route consumed.1
      = getCreditCount true payer route s - 1
      /\ safeCounter (creditKey payer route) consumed.1)
  /\ (consumed.2 = false -> consumed.1 = s)
  /\ (forall cap ttl,
        let issued := incrementCredit true payer route cap ttl s in
        0 < ttl -> cap <= Js.MAX_SAFE_INTEGER ->
        0 <= issued.2 ->
        getCreditCount true payer route issued.1 = issued.2
        /\ safeCounter (creditKey payer route) issued.1)
  /\ getCreditCount false payer route s = 0.
Proof.
  intros Hsafe consumed. subst consumed.
  unfold safeCounter, Js.MAX_SAFE_INTEGER in *.
  destruct (counter (creditKey payer route) s) as [n|] eqn:Hn.
  - pose proof (Hsafe n eq_refl) as Hbound.
    assert (Hinc : forall cap ttl,
               let issued := incrementCredit true payer route cap ttl s in
               0 < ttl -> cap <= 2 ^ 53 - 1 ->
               0 <= issued.2 ->
               getCreditCount true payer route issued.1 = issued.2
               /\ forall m, counter (creditKey payer route) issued.1 = Some m ->
                            - (2 ^ 53 - 1) <= m <= 2 ^ 53 - 1).
    { intros cap ttl issued _ Hcap _. subst issued.
      rewrite (incrementCredit_spec _ _ _ _ _ _ _ Hn). cbn [fst snd].
      rewrite (incrementScript_spec _ _ _ _ _ Hn).
      destruct (n <? cap) eqn:Hlt; cbn [fst].
      - apply Z.ltb_lt in Hlt.
        split; [apply getCreditCount_counter, counter_insert_eq |].
        intros m Hm. rewrite counter_insert_eq in Hm. injection Hm as <-. lia.
      - split; [apply getCreditCount_counter; by rewrite counter_refresh |].
        intros m Hm. rewrite counter_refresh, Hn in Hm.
        injection Hm as <-. exact Hbound. }
    rewrite (decrementCredit_spec _ _ _ _ _ Hn).
    rewrite (getCreditCount_counter _ _ _ _ Hn). cbn [andb].
    destruct (0 <? n) eqn:Hlt; cbn [fst snd].
    + apply Z.ltb_lt in Hlt. split; [done |]. split.
      { intros _.
        split; [apply getCreditCount_counter, counter_insert_eq |].
        intros m Hm. rewrite counter_insert_eq in Hm. injection Hm as <-. lia. }
      split; [done |]. split; [exact Hinc | done].
    + apply Z.ltb_ge in Hlt. split; [split; [discriminate | lia] |].
      split; [discriminate |]. split; [done |]. split; [exact Hinc | done].
  - assert (Hjunk : getCreditCount true payer route s = 0).
    { unfold counter, getCreditCount, GET in *.
      by destruct (s !! creditKey payer route) as [[[?|?|m] t]|]. }
    assert (Hdec : decrementCredit true payer route s = (s, false)).
    { unfold decrementCredit, decrementScript. unfold counter in Hn.
      by rewrite Hn. }
    rewrite Hdec, Hjunk. cbn [fst snd].
    split; [split; [discriminate | lia] |].
    split; [discriminate |]. split; [done |]. split; [| done].
    intros cap ttl. cbn zeta.
    unfold incrementCredit, incrementScript. unfold counter in Hn.
    rewrite Hn. cbn [fst snd]. lia.
Qed.

End CreditReads.

Section CreditKeys.
Import Redis RedisJs Spec More.

Lemma append_cons c a b : String c a +:+ b = String c (a +:+ b).
Proof. reflexivity. Qed.

Lemma append_nil b : "" +:+ b = b.
Proof. reflexivity. Qed.

Lemma lowerAscii_colon c :
  Ascii.eqb (Js.lowerAscii c) ":" = Ascii.eqb c ":".
Proof. destruct c as [[] [] [] [] [] [] [] []]; reflexivity. Qed.

Lemma noColon_toLowerCase a : noColon (Js.toLowerCase a) = noColon a.
Proof.
  induction a as [|c a IH]; [reflexivity |].
  cbn. by rewrite lowerAscii_colon, IH.
Qed.

(** A text without colon is cut off at the first colon. *)
Lemma cut_at_colon a : forall a' r r',
  noColon a = true -> noColon a' = true ->
  a +:+ ":" +:+ r = a' +:+ ":" +:+ r' -> a = a' /\ r = r'.
Proof.
  induction a as [|c a IH]; intros [|c' a'] r r' Ha Ha';
    rewrite ?append_cons, ?append_nil; intros H.
  - by injection H.
  - injection H as Hc _. cbn in Ha'. subst c'. discriminate.
  - injection H as Hc _. cbn in Ha. subst c. discriminate.
  - injection H as -> H. cbn in Ha, Ha'.
    apply andb_true_iff in Ha as [_ Ha], Ha' as [_ Ha'].
    destruct (IH _ _ _ Ha Ha' H) as [-> ->]. done.
Qed.

Lemma incrementScript_frame k k' cap ttl (s : gmap string Entry) :
  k <> k' -> (incrementScript k cap ttl s).1 !! k' = s !! k'.
Proof.
  intros Hne. unfold incrementScript, INCR, INCRBY, EXPIRE.
  destruct (tonumber_or_0 (GET k s)) as [n|]; [| reflexivity].
  destruct (n <? cap).
  - destruct (s !! k) as [[[r|r|m] t]|] eqn:Hk; cbn;
      rewrite ?lookup_insert_eq, ?Hk; cbn; rewrite ?lookup_insert_ne by done;
      reflexivity.
  - destruct (s !! k) as [e|] eqn:Hk; cbn; rewrite ?lookup_insert_ne by done;
      reflexivity.
Qed.

Lemma incrementCredit_frame up p r cap ttl (s : gmap string Entry) k' :
  creditKey p r <> k' -> (incrementCredit up p r cap ttl s).1 !! k' = s !! k'.
Proof.
  intros Hne. unfold incrementCredit. destruct up; [| reflexivity].
  rewrite <- (incrementScript_frame _ _ cap ttl s Hne).
  by destruct (incrementScript (creditKey p r) cap ttl s) as [s1 []].
Qed.

Lemma decrementCredit_frame' up p r (s : gmap string Entry) k' :
  creditKey p r <> k' -> (decrementCredit up p r s).1 !! k' = s !! k'.
Proof.
  intros Hne.
  destruct (decrementCredit up p r s) as [s1 b] eqn:H.
  by apply (decrementCredit_frame _ _ _ _ _ _ _ H).
Qed.

Lemma getCreditCount_lookup up p r (s s' : gmap string Entry) :
  s' !! creditKey p r = s !! creditKey p r ->
  getCreditCount up p r s' = getCreditCount up p r s.
Proof. intros H. unfold getCreditCount, GET. by rewrite H. Qed.

(** X5. Credits are scoped per payer and per route. For payer addresses
    without a colon (hexadecimal and base58 addresses have none) two
    (payer, route) pairs share a counter exactly when the routes are equal
    and the payers are equal up to letter case; issuing or consuming a
    credit of one pair never changes the count read for a pair with another
    key. *)
Theorem credit_counters_are_scoped payer payer' route route' :
  noColon payer = true -> noColon payer' = true ->
  (creditKey payer route = creditKey payer' route'
   <-> Js.toLowerCase payer = Js.toLowerCase payer' /\ route = route')
  /\ (creditKey payer route <> creditKey payer' route' ->
      forall up up' cap ttl (s : gmap string Entry),
        getCreditCount up' payer' route'
          (incrementCredit up payer route cap ttl s).1
        = getCreditCount up' payer' route' s
        /\ getCreditCount up' payer' route' (decrementCredit up payer route s).1
           = getCreditCount up' payer' route' s).
Proof.
  intros Hp Hp'. split.
  - split.
    + unfold creditKey, CREDIT_PREFIX. intros H.
      apply (inj (String.append "x402:credit:")) in H.
      apply cut_at_colon in H; by rewrite ?noColon_toLowerCase.
    + intros [Hl ->]. unfold creditKey. by rewrite Hl.
  - intros Hne up up' cap ttl s. split; apply getCreditCount_lookup.
    + by apply incrementCredit_frame.
    + by apply decrementCredit_frame'.
Qed.

End CreditKeys.

Section KeySpaces.
Import Redis RedisJs Spec.

Lemma getNonce_lookup up n (s s' : gmap string Entry) :
  s' !! nonceKey n = s !! nonceKey n -> getNonce up n s' = getNonce up n s.
Proof. intros H. unfold getNonce, GET. by rewrite H. Qed.

Lemma getIdempotencyCache_lookup up id (s s' : gmap string Entry) :
  s' !! idempotencyKey id = s !! idempotencyKey id ->
  getIdempotencyCache up id s' = getIdempotencyCache up id s.
Proof. intros H. unfold getIdempotencyCache, GET. by rewrite H. Qed.

Lemma nonceKey_not_creditKey n p r : nonceKey n <> creditKey p r.
Proof. intros H. symmetry in H. by apply creditKey_not_nonceKey in H. Qed.

Lemma idempotencyKey_not_creditKey i p r : idempotencyKey i <> creditKey p r.
Proof. intros H. symmetry in H. by apply creditKey_not_idempotencyKey in H. Qed.

(** X6. Nonces, cached receipts and credit counters live in three key
    spaces that never meet, whatever the nonce, paymentId, payer and route
    strings are: writing or deleting a nonce changes no cached receipt and
    no credit count, caching a receipt changes no nonce and no credit
    count, and issuing or consuming a credit changes no nonce and no cached
    receipt. *)
Theorem key_spaces_do_not_interfere (s : gmap string Entry)
    (u v : bool) (now : Z) (nonce id payer route : string) :
  (forall nonce' meta,
      let written :=
        [ (setNoncePending u now nonce' meta s).1;
          setNonceConfirmed u now nonce' meta s;
          deleteNonce u nonce' s ] in
      Forall (fun s' =>
                getIdempotencyCache v id s' = getIdempotencyCache v id s
                /\ getCreditCount v payer route s' = getCreditCount v payer route s)
             written)
  /\ (forall id' response,
        let s' := setIdempotencyCache u now id' response s in
        getNonce v nonce s' = getNonce v nonce s
        /\ getCreditCount v payer route s' = getCreditCount v payer route s)
  /\ (forall payer' route' cap ttl,
        let written :=
          [ (incrementCredit u payer' route' cap ttl s).1;
            (decrementCredit u payer' route' s).1 ] in
        Forall (fun s' =>
                  getNonce v nonce s' = getNonce v nonce s
                  /\ getIdempotencyCache v id s' = getIdempotencyCache v id s)
               written).
Proof.
  split; [| split].
  - intros nonce' meta written. subst written.
    repeat (apply List.Forall_cons || apply List.Forall_nil); split.
    + apply getIdempotencyCache_lookup.
      destruct (setNoncePending u now nonce' meta s) as [s1 b] eqn:H.
      apply (setNoncePending_frame _ _ _ _ _ _ _ _ H),
        nonceKey_not_idempotencyKey.
    + apply getCreditCount_lookup.
      destruct (setNoncePending u now nonce' meta s) as [s1 b] eqn:H.
      apply (setNoncePending_frame _ _ _ _ _ _ _ _ H), nonceKey_not_creditKey.
    + apply getIdempotencyCache_lookup, setNonceConfirmed_frame,
        nonceKey_not_idempotencyKey.
    + apply getCreditCount_lookup, setNonceConfirmed_frame,
        nonceKey_not_creditKey.
    + apply getIdempotencyCache_lookup, deleteNonce_frame,
        nonceKey_not_idempotencyKey.
    + apply getCreditCount_lookup, deleteNonce_frame, nonceKey_not_creditKey.
  - intros id' response s'. subst s'. split.
    + apply getNonce_lookup, setIdempotencyCache_frame,
        idempotencyKey_not_nonceKey.
    + apply getCreditCount_lookup, setIdempotencyCache_frame,
        idempotencyKey_not_creditKey.
  - intros payer' route' cap ttl written. subst written.
    repeat (apply List.Forall_cons || apply List.Forall_nil); split.
    + apply getNonce_lookup, incrementCredit_frame, creditKey_not_nonceKey.
    + apply getIdempotencyCache_lookup, incrementCredit_frame,
        creditKey_not_idempotencyKey.
    + apply getNonce_lookup, decrementCredit_frame', creditKey_not_nonceKey.
    + apply getIdempotencyCache_lookup, decrementCredit_frame',
        creditKey_not_idempotencyKey.
Qed.

End KeySpaces.

(* ================================================================== *)
(** ** The network table, the chain clients and the SVM singleton *)
(* ================================================================== *)

Section NetworkTable.
Import Routes Verifier Clients.

Lemma assoc_filter {A : Type} (P : string * A -> Prop)
    `{!forall x, Decision (P x)} key (l : list (string * A)) v :
  NoDup l.*1 ->
  assoc key (filter P l) = Some v <-> (key, v) ∈ l /\ P (key, v).
Proof.
  induction l as [|[k x] l IH]; intros Hnd.
  - cbn. split; [done |]. intros [Hin _]. by apply elem_of_nil in Hin.
  - apply NoDup_cons in Hnd as [Hk Hnd]. specialize (IH Hnd).
    rewrite filter_cons. destruct (decide (P (k, x))) as [HP|HP]; cbn.
    + destruct (String.eqb_spec k key) as [->|Hne].
      * split.
        -- intros [= ->]. split; [left | done].
        -- intros [Hin _]. apply elem_of_cons in Hin as [[= ->]|Hin]; [done |].
           exfalso. apply Hk. apply list_elem_of_fmap. by exists (key, v).
      * rewrite IH. split; intros [Hin Hv]; (split; [| done]).
        -- by right.
        -- apply elem_of_cons in Hin as [[= -> ->]|Hin]; done.
    + rewrite IH. split; intros [Hin Hv]; (split; [| done]).
      * by right.
      * apply elem_of_cons in Hin as [[= -> ->]|Hin]; done.
Qed.

Lemma ALL_NETWORKS_keys : NoDup ALL_NETWORKS.*1.
Proof. apply (bool_decide_unpack _). vm_compute. exact I. Qed.

Lemma SUPPORTED_NETWORKS_spec env key network :
  SUPPORTED_NETWORKS env key = Some network
  <-> (key, network) ∈ ALL_NETWORKS /\ isActive env network = true.
Proof.
  unfold SUPPORTED_NETWORKS, getActiveNetworks.
  rewrite (assoc_filter (fun kv => isActive env kv.2 = true));
    [done | apply ALL_NETWORKS_keys].
Qed.

(** Splits a membership in the registry into its fourteen entries. *)
Ltac registry_cases H :=
  unfold ALL_NETWORKS in H;
  repeat (apply elem_of_cons in H as [H|H]; [injection H as -> -> |]);
  [.. | by apply elem_of_nil in H].

Lemma registry_key_is_caip2 key network :
  (key, network) ∈ ALL_NETWORKS -> n_caip2 network = key.
Proof. intros H. registry_cases H; reflexivity. Qed.

Lemma isActive_spec env network :
  isActive env network = true
  <-> isSet env (n_rpcEnvVar network) = true
      /\ (n_vm network = Svm ->
          isSet env "SOLANA_FACILITATOR_PRIVATE_KEY" = true).
Proof.
  unfold isActive.
  destruct (isSet env (n_rpcEnvVar network)), (n_vm network),
    (isSet env "SOLANA_FACILITATOR_PRIVATE_KEY"); cbn;
    split; try done; try (intros [? H]; by (discriminate || apply H)).
    all: by intros [_ H]; specialize (H eq_refl).
Qed.

Lemma resolved_key_is_caip2 env key network :
  SUPPORTED_NETWORKS env key = Some network -> n_caip2 network = key.
Proof.
  intros H. apply SUPPORTED_NETWORKS_spec in H as [H _].
  by apply registry_key_is_caip2.
Qed.

Lemma supportedValues_spec env network :
  network ∈ supportedValues env
  <-> SUPPORTED_NETWORKS env (n_caip2 network) = Some network.
Proof.
  rewrite SUPPORTED_NETWORKS_spec. unfold supportedValues, getActiveNetworks.
  rewrite list_elem_of_fmap. split.
  - intros ([k n] & -> & Hin). apply list_elem_of_filter in Hin as [Ha Hin].
    cbn in *. by rewrite (registry_key_is_caip2 _ _ Hin).
  - intros [Hin Ha]. exists (n_caip2 network, network). split; [done |].
    by apply list_elem_of_filter.
Qed.

Lemma NoDup_fmap_omap {A B C : Type} (f : B -> C) (g : A -> option B)
    (h : A -> C) (l : list A) :
  (forall x y, g x = Some y -> f y = h x) ->
  NoDup (h <$> l) -> NoDup (f <$> omap g l).
Proof.
  intros Hfg. induction l as [|x l IH]; cbn; [done |].
  intros [Hx Hnd]%NoDup_cons. specialize (IH Hnd).
  destruct (g x) as [y|] eqn:Hg; [| done].
  cbn. apply NoDup_cons. split; [| done].
  rewrite (Hfg _ _ Hg). intros Hin. apply Hx.
  apply list_elem_of_fmap in Hin as (y' & Hy' & Hin).
  apply list_elem_of_omap in Hin as (x' & Hx' & Hg').
  apply list_elem_of_fmap. exists x'. split; [| done].
  by rewrite Hy', (Hfg _ _ Hg').
Qed.

Lemma supportedValues_NoDup env : NoDup (n_caip2 <$> supportedValues env).
Proof.
  unfold supportedValues, getActiveNetworks.
  rewrite <- list_fmap_compose.
  assert (Hall : NoDup ((n_caip2 ∘ snd) <$> ALL_NETWORKS))
    by (apply (bool_decide_unpack _); vm_compute; exact I).
  revert Hall. generalize ALL_NETWORKS.
  induction l as [|x l IH]; [done |].
  cbn [fmap list_fmap]. intros [Hx Hnd]%NoDup_cons.
  rewrite filter_cons. destruct (decide _); [| by apply IH].
  cbn [fmap list_fmap]. apply NoDup_cons. split; [| by apply IH].
  intros Hin. apply Hx.
  apply list_elem_of_fmap in Hin as (y & Hy & Hin).
  apply list_elem_of_filter in Hin as [_ Hin].
  apply list_elem_of_fmap. by exists y.
Qed.

(** X7. [SUPPORTED_NETWORKS] holds exactly the registry entries whose RPC
    variable is set and, for an SVM network, whose facilitator key is set
    as well: a key resolves to a network if and only if the registry
    lists the pair and the network is active. A resolved network is filed
    under its own CAIP-2 name, and the list the 402 challenge and the
    listing of accepted networks iterate over holds the same networks. *)
Theorem supported_networks_are_the_active_ones env key network :
  (SUPPORTED_NETWORKS env key = Some network
   <-> (key, network) ∈ ALL_NETWORKS
       /\ isSet env (n_rpcEnvVar network) = true
       /\ (n_vm network = Svm ->
           isSet env "SOLANA_FACILITATOR_PRIVATE_KEY" = true))
  /\ (SUPPORTED_NETWORKS env key = Some network -> n_caip2 network = key)
  /\ (network ∈ supportedValues env
      <-> SUPPORTED_NETWORKS env (n_caip2 network) = Some network).
Proof.
  split; [| split].
  - by rewrite SUPPORTED_NETWORKS_spec, isActive_spec.
  - apply resolved_key_is_caip2.
  - apply supportedValues_spec.
Qed.

Lemma resolved_rpc_set env key network :
  SUPPORTED_NETWORKS env key = Some network ->
  isSet env (n_rpcEnvVar network) = true.
Proof.
  intros H. apply SUPPORTED_NETWORKS_spec in H as [_ H].
  by apply isActive_spec in H as [H _].
Qed.

Lemma checkBalance_insufficient w network from required :
  isSet (w_env w) (n_rpcEnvVar network) = true ->
  bc_sufficient (checkBalance w network from required) = false
  <-> exists balance,
        w_balanceOf w network from = Returns balance /\ balance < required.
Proof.
  intros Hrpc. unfold checkBalance. rewrite Hrpc. cbn.
  destruct (w_balanceOf w network from) as [balance|m].
  - destruct (Z.ltb_spec balance required); cbn; split; try done.
    + intros _. by exists balance.
    + intros (b & [= <-] & Hb). lia.
  - cbn. split; [done |]. by intros (b & ? & _).
Qed.

(** X8. For a network that [SUPPORTED_NETWORKS] resolves, the RPC
    endpoint is configured, so the fallbacks for a missing endpoint are
    never taken: the balance check is not skipped (it answers
    insufficient exactly when the balance read succeeds and is below the
    required amount) and local settlement does not fail with 'No RPC URL'
    but is the outcome of the transfer itself. *)
Theorem resolved_network_has_endpoint w pp network :
  SUPPORTED_NETWORKS (w_env w) (Js.show (pp_network pp)) = Some network ->
  (forall from required,
      bc_sufficient (checkBalance w network from required) = false
      <-> exists balance,
            w_balanceOf w network from = Returns balance /\ balance < required)
  /\ (forall payload a,
        pp_payload pp = Some payload ->
        p_authorization payload = Some a ->
        settlePaymentEvm w pp =
          match w_sendTransfer w network a (p_signature payload) with
          | Throws message => Throws message
          | Returns (txHash, blockNumber) =>
              Returns {| se_txHash := Some txHash;
                         se_network := pp_network pp;
                         se_blockNumber := Some blockNumber;
                         se_payer := None; se_facilitator := None |}
          end).
Proof.
  intros Hres.
  pose proof (resolved_rpc_set _ _ _ Hres) as Hrpc.
  split.
  - intros from required. by apply checkBalance_insufficient.
  - intros payload a Hp Ha. unfold settlePaymentEvm.
    rewrite Hp, Hres, Hrpc, Ha. cbn.
    by destruct (w_sendTransfer w network a (p_signature payload)) as [[]|].
Qed.

(** X9. Every EVM network that [SUPPORTED_NETWORKS] resolves has its
    chain in [VIEM_CHAINS], so the minimal fallback chain is not used for
    it, and its public client is built once: the first request for the
    chain creates the client on the configured endpoint and stores it
    under the chain id, and from then on the stored client is returned and
    the cache left alone, whatever the environment has become. *)
Theorem public_client_is_built_once (env : Env) (key : string)
    (network : Network) (cache : gmap (option Z) PublicClient) :
  SUPPORTED_NETWORKS env key = Some network ->
  n_vm network = Evm ->
  cache !! n_chainId network = None ->
  exists chain rpcUrl,
    getViemChain env network = KnownChain chain
    /\ Js.truthy (env !! n_rpcEnvVar network) = Some rpcUrl
    /\ let client := {| pc_chain := KnownChain chain; pc_rpcUrl := rpcUrl |} in
       let cached := <[n_chainId network := client]> cache in
       getPublicClient env network cache = (cached, Some client)
       /\ forall env', getPublicClient env' network cached = (cached, Some client).
Proof.
  intros Hres Hvm Hcache.
  apply SUPPORTED_NETWORKS_spec in Hres as [Hin Hact].
  apply isActive_spec in Hact as [Hrpc _].
  unfold isSet in Hrpc.
  destruct (Js.truthy (env !! n_rpcEnvVar network)) as [rpcUrl|] eqn:Hurl;
    [| discriminate].
  assert (Hchain : exists chain, getViemChain env network = KnownChain chain).
  { registry_cases Hin; first [discriminate Hvm | by eexists]. }
  destruct Hchain as [chain Hchain].
  exists chain, rpcUrl. split; [done |]. split; [done |].
  cbn zeta. split.
  - unfold getPublicClient. by rewrite Hcache, Hurl, Hchain.
  - intros env'. unfold getPublicClient. by rewrite lookup_insert_eq.
Qed.

(** X10. The SVM facilitator is a lazy singleton: the first call runs the
    initialiser, and every later call returns what the first one returned
    without running it again, also when the first one failed (the
    rejected promise is kept) and whatever the environment has become
    since. *)
Theorem svm_facilitator_initialised_once w w' :
  let first := Clients.getSvmFacilitator w svmFresh in
  first.2 = Verifier.getSvmFacilitator w
  /\ svm_inits first.1 = 1%nat
  /\ Clients.getSvmFacilitator w' first.1 = first
  /\ forall n, callSvm w' n first.1 = (first.1, replicate n first.2).
Proof.
  cbn zeta. unfold Clients.getSvmFacilitator at 1 2 3 4 5. cbn.
  destruct (Verifier.getSvmFacilitator w) as [a|m]; cbn.
  - do 3 (split; [reflexivity |]).
    induction n as [|n IH]; [reflexivity |]. cbn. by rewrite IH.
  - do 3 (split; [reflexivity |]).
    induction n as [|n IH]; [reflexivity |]. cbn. by rewrite IH.
Qed.

End NetworkTable.

(* ================================================================== *)
(** ** The verifiers and what they hand to settlement *)
(* ================================================================== *)

Section Verifiers.
Import Redis RedisJs Routes Verifier Builder Pipeline More.

Lemma toLowerCase_empty a : Js.toLowerCase a = "" <-> a = "".
Proof. by destruct a. Qed.

Lemma truthy_Some a : a <> "" -> Js.truthy (Some a) = Some a.
Proof. intros H. unfold Js.truthy. by case_decide. Qed.

Lemma truthy_inv o a : Js.truthy o = Some a -> o = Some a /\ a <> "".
Proof.
  destruct o as [b|]; cbn; [| discriminate].
  case_decide; [discriminate |]. by intros [= ->].
Qed.

Lemma verifyPaymentEvm_conditions w (s : gmap string Entry) pp routeConfig payer :
  verifyPaymentEvm w s pp routeConfig = VValid payer ->
  payer = None /\ localConditions w s pp routeConfig.
Proof.
  unfold verifyPaymentEvm.
  destruct (pp_payload pp) as [payload|] eqn:Hpay; [| discriminate].
  destruct (SUPPORTED_NETWORKS _ _) as [network|] eqn:Hnet;
    [| destruct (isInherited _);
       [by destruct (verifyPaymentEvmInherited _) | discriminate]].
  destruct (negb _) eqn:Hscheme; [discriminate |].
  destruct (p_authorization payload) as [a|] eqn:Hauth; [| discriminate].
  pose proof (supported_decimals _ _ _ Hnet) as Hd.
  pose proof (resolved_rpc_set _ _ _ Hnet) as Hrpc.
  rewrite scaled_amount by lia.
  destruct (au_value a <? _) eqn:Hv; [discriminate |].
  destruct (rc_payTo routeConfig) as [payTo|] eqn:HpayTo; [| discriminate].
  cbn [fmap option_fmap option_map].
  destruct (Js.truthy (Some (Js.toLowerCase payTo))) as [p|] eqn:Hp;
    [| discriminate].
  destruct (negb (String.eqb _ p)) eqn:Hto; [discriminate |].
  destruct (w_nowSeconds w <? au_validAfter a) eqn:Hafter; [discriminate |].
  destruct (au_validBefore a <? w_nowSeconds w) eqn:Hbefore; [discriminate |].
  destruct (getNonce _ _ s) as [existing|] eqn:Hnonce; [discriminate |].
  destruct (w_verifyTypedData _ _ _ _ _) as [[|]|] eqn:Hsig; try discriminate.
  destruct (negb (bc_sufficient _)) eqn:Hbal; [discriminate |].
  intros [= <-]. split; [reflexivity |].
  exists payload, a, network, payTo.
  apply Z.ltb_ge in Hv, Hafter, Hbefore.
  apply negb_false_iff, String.eqb_eq in Hto.
  apply negb_false_iff, bool_decide_eq_true in Hscheme.
  apply truthy_inv in Hp as [[= <-] Hne].
  apply negb_false_iff in Hbal.
  do 6 (split; [done |]).
  split; [by rewrite toLowerCase_empty in Hne |].
  do 4 (split; [done |]).
  intros balance Hb.
  destruct (Z.lt_ge_cases balance
              (rc_priceAtomic routeConfig
               * 10 ^ (t_decimals (n_token network) - 6))) as [Hlt|Hge];
    [| lia].
  assert (Hno : bc_sufficient
                  (checkBalance w network (au_from a)
                     (rc_priceAtomic routeConfig
                      * 10 ^ (t_decimals (n_token network) - 6))) = false)
    by (apply checkBalance_insufficient; [done | by exists balance]).
  congruence.
Qed.

Lemma verifyPaymentEvm_accepts w (s : gmap string Entry) pp routeConfig :
  localConditions w s pp routeConfig ->
  verifyPaymentEvm w s pp routeConfig = VValid None.
Proof.
  intros (payload & a & network & payTo & Hp & Ha & Hnet & Hscheme & Hv
        & HpayTo & Hne & Hto & [Hafter Hbefore] & Hnonce & Hsig & Hbal).
  pose proof (supported_decimals _ _ _ Hnet) as Hd.
  pose proof (resolved_rpc_set _ _ _ Hnet) as Hrpc.
  unfold verifyPaymentEvm. rewrite Hp, Hnet, Hscheme, Ha, HpayTo.
  rewrite bool_decide_eq_true_2 by done. cbn [negb].
  rewrite scaled_amount by lia.
  rewrite (proj2 (Z.ltb_ge _ _) Hv).
  cbn [fmap option_fmap option_map].
  rewrite truthy_Some by (by rewrite toLowerCase_empty).
  rewrite Hto, String.eqb_refl. cbn [negb].
  rewrite (proj2 (Z.ltb_ge _ _) Hafter), (proj2 (Z.ltb_ge _ _) Hbefore).
  rewrite Hnonce, Hsig.
  destruct (bc_sufficient _) eqn:Hsuf; [reflexivity |].
  apply checkBalance_insufficient in Hsuf as (balance & Hb & Hlt); [| done].
  specialize (Hbal _ Hb). lia.
Qed.

(** X11. The local-EVM verifier accepts an envelope if and only if the
    envelope names a supported network and the scheme 'exact', the
    authorization value is at least the price scaled to the token's
    decimals, the route has a pay-to address and it is the recipient up
    to letter case, the clock lies in the validity window, the nonce
    lookup found nothing, the typed-data signature verifies against
    authorization.from, and the balance read did not show less than the
    required amount (a failed read lets the payment through). It names no
    payer. *)
Theorem local_verifier_accepts_iff w (s : gmap string Entry) pp routeConfig payer :
  verifyPaymentEvm w s pp routeConfig = VValid payer
  <-> payer = None
      /\ exists payload a network payTo,
           pp_payload pp = Some payload
           /\ p_authorization payload = Some a
           /\ SUPPORTED_NETWORKS (w_env w) (Js.show (pp_network pp)) = Some network
           /\ pp_scheme pp = Some "exact"
           /\ rc_priceAtomic routeConfig * 10 ^ (t_decimals (n_token network) - 6)
              <= au_value a
           /\ rc_payTo routeConfig = Some payTo
           /\ payTo <> ""
           /\ Js.toLowerCase (au_to a) = Js.toLowerCase payTo
           /\ au_validAfter a <= w_nowSeconds w <= au_validBefore a
           /\ getNonce (w_storeUp w CallGetNonce) (Js.show (au_nonce a)) s = None
           /\ w_verifyTypedData w (au_from a) (domainOf network) (messageOf a)
                (p_signature payload) = SigReturns true
           /\ forall balance,
                w_balanceOf w network (au_from a) = Returns balance ->
                rc_priceAtomic routeConfig * 10 ^ (t_decimals (n_token network) - 6)
                <= balance.
Proof.
  split.
  - apply verifyPaymentEvm_conditions.
  - intros [-> H]. by apply verifyPaymentEvm_accepts.
Qed.

(** X12. On the facilitator path a payment is valid if and only if the
    facilitator's API key is set and the facilitator answers the verify
    request with HTTP success and a JSON body that says valid; the payer
    is the one the facilitator names. Settlement then posts the same body
    with the same key to the settle endpoint, and succeeds exactly when
    that answer has HTTP success and says success. *)
Theorem facilitator_settles_what_it_verified w (s : gmap string Entry)
    pp routeConfig req network fac payer :
  isSvmNetwork network = false ->
  n_facilitator network = Some fac ->
  let body := facilitatorBody pp routeConfig (resourceOf req) network fac in
  (verifyWith w s pp routeConfig req network = VValid payer
   <-> exists apiKey status data,
         Js.truthy (w_env w !! f_apiKeyEnv fac) = Some apiKey
         /\ w_fetch w (f_url fac +:+ "/verify") apiKey body
            = FetchResponse status true (Some data)
         /\ fd_isValid data = true
         /\ payer = fd_payer data)
  /\ (verifyWith w s pp routeConfig req network = VValid payer ->
      exists apiKey,
        Js.truthy (w_env w !! f_apiKeyEnv fac) = Some apiKey
        /\ forall settled,
             settlePayment w pp routeConfig req network = Returns settled
             <-> exists status data,
                   w_fetch w (f_url fac +:+ "/settle") apiKey body
                   = FetchResponse status true (Some data)
                   /\ fd_success data = true
                   /\ settled =
                        {| se_txHash := fd_transaction data;
                           se_network := Js.or (fd_network data) (pp_network pp);
                           se_blockNumber := None;
                           se_payer := None;
                           se_facilitator := Some (f_url fac) |}).
Proof.
  intros Hsvm Hfac body.
  assert (Hiff :
    verifyWith w s pp routeConfig req network = VValid payer
    <-> exists apiKey status data,
          Js.truthy (w_env w !! f_apiKeyEnv fac) = Some apiKey
          /\ w_fetch w (f_url fac +:+ "/verify") apiKey body
             = FetchResponse status true (Some data)
          /\ fd_isValid data = true
          /\ payer = fd_payer data).
  { unfold verifyWith. rewrite Hsvm, Hfac. unfold verifyPaymentViaFacilitator.
    fold body. split.
    - destruct (Js.truthy _) as [apiKey|]; [| discriminate].
      destruct (w_fetch _ _ _ _) as [m|status ok [data|]] eqn:Hfetch;
        try discriminate.
      destruct ok; cbn; [| discriminate].
      destruct (fd_isValid data) eqn:Hvalid; [| discriminate].
      intros [= <-]. by exists apiKey, status, data.
    - intros (apiKey & status & data & -> & -> & Hvalid & ->). cbn.
      by rewrite Hvalid. }
  split; [exact Hiff |].
  intros Hv. apply Hiff in Hv as (apiKey & status & data & Hkey & _).
  exists apiKey. split; [done |]. intros settled.
  unfold settlePayment. rewrite Hsvm, Hfac. unfold settlePaymentViaFacilitator.
  fold body.
  apply truthy_inv in Hkey as [-> _]. cbn [Js.show].
  destruct (w_fetch _ _ _ _) as [m|status' ok [data'|]]; split;
    try discriminate; try (by intros (? & ? & ? & _)).
  - destruct ok, (fd_success data') eqn:Hs; cbn; try discriminate.
    intros [= <-]. by exists status', data'.
  - intros (st & d & [= -> -> ->] & Hs & ->). by rewrite Hs.
Qed.

(** X13. On the SVM path a payment is valid if and only if the
    facilitator singleton is available, the route has a Solana pay-to
    address, and the library's verify call returns a valid answer; the
    payer is the one it names. Settlement then calls the library with the
    same payload and the same requirements (network, scaled amount,
    asset, pay-to, fee payer), and succeeds exactly when that call
    returns success. *)
Theorem svm_settles_what_it_verified w (s : gmap string Entry)
    pp routeConfig req network payer :
  isSvmNetwork network = true ->
  (verifyWith w s pp routeConfig req network = VValid payer
   <-> exists feePayer payTo result,
         getSvmFacilitator w = Returns feePayer
         /\ Js.truthy (rc_payToSol routeConfig) = Some payTo
         /\ w_svmVerify w (pp_payload pp) (pp_network pp)
              (svmRequirements pp routeConfig network payTo feePayer)
            = Returns result
         /\ sv_isValid result = true
         /\ payer = sv_payer result)
  /\ (verifyWith w s pp routeConfig req network = VValid payer ->
      exists feePayer payTo,
        getSvmFacilitator w = Returns feePayer
        /\ Js.truthy (rc_payToSol routeConfig) = Some payTo
        /\ forall settled,
             settlePayment w pp routeConfig req network = Returns settled
             <-> exists result,
                   w_svmSettle w (pp_payload pp) (pp_network pp)
                     (svmRequirements pp routeConfig network payTo feePayer)
                   = Returns result
                   /\ ss_success result = true
                   /\ settled =
                        {| se_txHash := Some (ss_transaction result);
                           se_network := Js.or (ss_network result) (pp_network pp);
                           se_blockNumber := None;
                           se_payer := ss_payer result;
                           se_facilitator := None |}).
Proof.
  intros Hsvm.
  assert (Hiff :
    verifyWith w s pp routeConfig req network = VValid payer
    <-> exists feePayer payTo result,
          getSvmFacilitator w = Returns feePayer
          /\ Js.truthy (rc_payToSol routeConfig) = Some payTo
          /\ w_svmVerify w (pp_payload pp) (pp_network pp)
               (svmRequirements pp routeConfig network payTo feePayer)
             = Returns result
          /\ sv_isValid result = true
          /\ payer = sv_payer result).
  { unfold verifyWith. rewrite Hsvm. unfold verifyPaymentSvm. split.
    - destruct (getSvmFacilitator w) as [feePayer|]; [| discriminate].
      destruct (Js.truthy _) as [payTo|]; [| discriminate].
      destruct (w_svmVerify _ _ _ _) as [result|] eqn:Hcall; [| discriminate].
      destruct (sv_isValid result) eqn:Hvalid; cbn; [| discriminate].
      intros [= <-]. by exists feePayer, payTo, result.
    - intros (feePayer & payTo & result & -> & -> & -> & Hvalid & ->).
      by rewrite Hvalid. }
  split; [exact Hiff |].
  intros Hv. apply Hiff in Hv as (feePayer & payTo & result & Hf & Hp & _).
  exists feePayer, payTo. do 2 (split; [done |]). intros settled.
  unfold settlePayment. rewrite Hsvm. unfold settlePaymentSvm. rewrite Hf, Hp.
  destruct (w_svmSettle _ _ _ _) as [r|m]; split;
    try discriminate; try (by intros (? & ? & _)).
  - destruct (ss_success r) eqn:Hs; cbn; [| discriminate].
    intros [= <-]. by exists r.
  - intros (r' & [= ->] & Hs & ->). by rewrite Hs.
Qed.

Lemma idPattern_chars id :
  idPattern id = true
  <-> id <> "" /\ Forall (fun c => isIdChar c = true) (list_ascii_of_string id).
Proof.
  induction id as [|c rest IH]; [by split; [| intros [? _]] |].
  cbn. destruct rest as [|c' rest'].
  - split.
    + intros Hc. split; [discriminate |]. by repeat constructor.
    + intros [_ H]. by inversion H.
  - rewrite andb_true_iff, IH. split.
    + intros (Hc & _ & Hrest). split; [discriminate |]. by constructor.
    + intros [_ H]. inversion H; subst. by repeat split.
Qed.

(** X14. [extractPaymentIdentifier] answers an id if and only if the
    envelope's extensions (its own, or else those of its payload) carry a
    payment-identifier whose paymentId is a string of 16 to 128 characters
    over letters, digits, underscore and hyphen; a paymentId that is a
    number or a boolean, too short, too long or with another character
    gives none. *)
Theorem payment_identifier_accepted_iff pp id :
  extractPaymentIdentifier pp = Some id
  <-> exists extensions,
        extensionsOf pp = Some extensions
        /\ payment_identifier extensions = Some {| paymentId := Some (JString id) |}
        /\ 16 <= Z.of_nat (String.length id) <= 128
        /\ Forall (fun c => isIdChar c = true) (list_ascii_of_string id).
Proof.
  unfold extractPaymentIdentifier, extensionsOf.
  assert (Hext :
    match pp_extensions pp with
    | Some e => Some e
    | None => match pp_payload pp with
              | Some payload => p_extensions payload
              | None => None
              end
    end
    = match pp_extensions pp with
      | Some e => Some e
      | None => pp_payload pp ≫= p_extensions
      end) by (by destruct (pp_extensions pp), (pp_payload pp)).
  rewrite Hext. clear Hext.
  destruct (match pp_extensions pp with
            | Some e => Some e
            | None => pp_payload pp ≫= p_extensions
            end) as [extensions|]; [| by split; [| intros (? & ? & _)]].
  destruct extensions as [[[[[id'|n|b]|]]|]]; cbn;
    try (split; [discriminate | by intros (? & [= <-] & ? & _)]).
  case_decide as Hempty.
  - subst id'. split; [discriminate |].
    intros (? & [= <-] & [= <-] & Hlen & _). cbn in Hlen. lia.
  - destruct (16 <=? _) eqn:Hlo; cbn.
    2:{ split; [discriminate |].
        intros (? & [= <-] & [= <-] & Hlen & _). apply Z.leb_gt in Hlo. lia. }
    destruct (_ <=? 128) eqn:Hhi; cbn.
    2:{ split; [discriminate |].
        intros (? & [= <-] & [= <-] & Hlen & _). apply Z.leb_gt in Hhi. lia. }
    destruct (idPattern id') eqn:Hpat.
    + apply idPattern_chars in Hpat as [_ Hpat].
      apply Z.leb_le in Hlo, Hhi. split.
      * intros [= <-]. eexists. by repeat split.
      * by intros (? & [= <-] & [= <-] & _).
    + split; [discriminate |].
      intros (? & [= <-] & [= <-] & _ & Hchars).
      assert (idPattern id' = true) by (by apply idPattern_chars).
      congruence.
Qed.

End Verifiers.

(* ================================================================== *)
(** ** The 402 challenge against the table, the listing and the verifiers *)
(* ================================================================== *)

Section Challenge.
Import Redis RedisJs Routes Verifier Builder Pipeline Index.

(** The entries of the challenge of a request. *)
Lemma challenge_accepts w routeConfig req a :
  a ∈ ch_accepts (headerBase64 (buildPaymentRequired w routeConfig req))
  <-> exists network,
        SUPPORTED_NETWORKS (w_env w) (n_caip2 network) = Some network
        /\ acceptFor routeConfig (resourceOf req)
             (if existsb isSvmNetwork (supportedValues (w_env w)) then
                match getSvmFacilitator w with
                | Returns feePayerAddress => Some feePayerAddress
                | Throws _ => None
                end
              else None) network = Some a.
Proof.
  unfold buildPaymentRequired. cbn [headerBase64 ch_accepts].
  rewrite list_elem_of_omap. by setoid_rewrite supportedValues_spec.
Qed.

Lemma acceptFor_network routeConfig resource feePayer network a :
  acceptFor routeConfig resource feePayer network = Some a ->
  ac_network a = n_caip2 network.
Proof.
  unfold acceptFor. destruct (isSvmNetwork network).
  - destruct (Js.truthy (rc_payToSol routeConfig)), (Js.truthy feePayer);
      try discriminate.
    by intros [= <-].
  - by intros [= <-].
Qed.

Lemma svm_listed env network :
  network ∈ supportedValues env -> isSvmNetwork network = true ->
  existsb isSvmNetwork (supportedValues env) = true.
Proof.
  intros Hin Hsvm. apply existsb_exists. exists network.
  split; [| done]. by apply list_elem_of_In.
Qed.

Lemma getSvmFacilitator_nonempty w feePayer :
  getSvmFacilitator w = Returns feePayer -> Js.truthy (Some feePayer) = Some feePayer.
Proof.
  unfold getSvmFacilitator. destruct (Js.truthy _); [| discriminate].
  destruct (w_svmFeePayer w _) as [a|]; [| discriminate].
  case_decide; [discriminate |]. intros [= <-]. by apply truthy_Some.
Qed.

(** X15. The accepts array of a 402 challenge covers the active networks:
    every entry is for a network that [SUPPORTED_NETWORKS] resolves under
    the entry's network name, with scheme 'exact', a timeout of 3600
    seconds, the request's URL as resource, the network's token as asset
    and equal amount and maxAmountRequired; no network is listed twice;
    every active EVM network is listed; an active SVM network is listed
    exactly when the route has a Solana pay-to address and the
    facilitator singleton yields a fee payer. The body carries the same
    entries, reduced to their strict fields. *)
Theorem challenge_covers_active_networks w routeConfig req :
  let pr := buildPaymentRequired w routeConfig req in
  let accepts := ch_accepts (headerBase64 pr) in
  (forall a, a ∈ accepts ->
     exists network,
       SUPPORTED_NETWORKS (w_env w) (ac_network a) = Some network
       /\ ac_scheme a = "exact"
       /\ ac_maxTimeoutSeconds a = 3600
       /\ ac_resource a = resourceOf req
       /\ ac_asset a = t_address (n_token network)
       /\ ac_amount a = ac_maxAmountRequired a)
  /\ NoDup (ac_network <$> accepts)
  /\ (forall key network,
        SUPPORTED_NETWORKS (w_env w) key = Some network ->
        (exists a, a ∈ accepts /\ ac_network a = key)
        <-> (n_vm network = Svm ->
             (exists payTo, Js.truthy (rc_payToSol routeConfig) = Some payTo)
             /\ exists feePayer, getSvmFacilitator w = Returns feePayer))
  /\ ch_accepts (body pr) = strict <$> accepts.
Proof.
  cbn zeta. split; [| split; [| split]].
  - intros a Ha. apply challenge_accepts in Ha as (network & Hnet & Ha).
    exists network. rewrite (acceptFor_network _ _ _ _ _ Ha).
    split; [done |]. revert Ha. unfold acceptFor.
    destruct (isSvmNetwork network).
    + destruct (Js.truthy (rc_payToSol routeConfig)); [| discriminate].
      match goal with |- context [Js.truthy ?x] => destruct (Js.truthy x) end;
        [| discriminate].
      by intros [= <-].
    + by intros [= <-].
  - unfold buildPaymentRequired. cbn [headerBase64 ch_accepts].
    eapply NoDup_fmap_omap; [| apply supportedValues_NoDup].
    intros x y. apply acceptFor_network.
  - intros key network Hnet.
    pose proof (resolved_key_is_caip2 _ _ _ Hnet) as Hkey.
    subst key. setoid_rewrite challenge_accepts. split.
    + intros (a & (network' & Hnet' & Ha) & Hname) Hsvm.
      rewrite (acceptFor_network _ _ _ _ _ Ha) in Hname.
      rewrite Hname in Hnet'. simplify_eq.
      revert Ha. unfold acceptFor, isSvmNetwork. rewrite Hsvm.
      destruct (Js.truthy (rc_payToSol routeConfig)) as [payTo|];
        [| discriminate].
      destruct (existsb _ _); [| discriminate].
      destruct (getSvmFacilitator w) as [feePayer|]; [| discriminate].
      intros _. split; by eexists.
    + intros Hsvm.
      assert (Hfor : exists a,
        acceptFor routeConfig (resourceOf req)
          (if existsb isSvmNetwork (supportedValues (w_env w)) then
             match getSvmFacilitator w with
             | Returns feePayerAddress => Some feePayerAddress
             | Throws _ => None
             end
           else None) network = Some a).
      { unfold acceptFor at 1. unfold isSvmNetwork at 1.
        destruct (n_vm network) eqn:Hvm; [by eexists |].
        destruct (Hsvm eq_refl) as [[payTo HpayTo] [feePayer Hfee]].
        rewrite (svm_listed (w_env w) network), Hfee, HpayTo,
          (getSvmFacilitator_nonempty _ _ Hfee); [by eexists | |].
        - by apply supportedValues_spec.
        - unfold isSvmNetwork. by rewrite Hvm. }
      destruct Hfor as [a Ha]. exists a. split.
      * by exists network.
      * by apply acceptFor_network in Ha.
  - reflexivity.
Qed.

Lemma getActiveNetworks_spec env key network :
  (key, network) ∈ getActiveNetworks env
  <-> SUPPORTED_NETWORKS env key = Some network.
Proof.
  rewrite SUPPORTED_NETWORKS_spec. unfold getActiveNetworks.
  rewrite list_elem_of_filter. cbn. tauto.
Qed.

(** The entry pushed for an EVM network. *)
Lemma acceptFor_evm routeConfig resource feePayer network a :
  isSvmNetwork network = false ->
  acceptFor routeConfig resource feePayer network = Some a ->
  a = {| ac_scheme := "exact"; ac_network := n_caip2 network;
         ac_maxAmountRequired :=
           if 0 <? t_decimals (n_token network) - 6
           then rc_priceAtomic routeConfig * 10 ^ (t_decimals (n_token network) - 6)
           else rc_priceAtomic routeConfig;
         ac_amount :=
           if 0 <? t_decimals (n_token network) - 6
           then rc_priceAtomic routeConfig * 10 ^ (t_decimals (n_token network) - 6)
           else rc_priceAtomic routeConfig;
         ac_maxTimeoutSeconds := 3600; ac_resource := resource;
         ac_description := rc_description routeConfig;
         ac_mimeType := rc_mimeType routeConfig;
         ac_payTo := Js.or (n_facilitator network ≫= f_facilitatorContract)
                           (rc_payTo routeConfig);
         ac_asset := t_address (n_token network);
         ac_extra := ExtraDomain (t_name (n_token network))
                       (t_version (n_token network)) |}.
Proof. unfold acceptFor. intros ->. by intros [= <-]. Qed.

Lemma acceptFor_amount routeConfig resource feePayer network a :
  acceptFor routeConfig resource feePayer network = Some a ->
  ac_amount a
  = (if 0 <? t_decimals (n_token network) - 6
     then rc_priceAtomic routeConfig * 10 ^ (t_decimals (n_token network) - 6)
     else rc_priceAtomic routeConfig)
  /\ ac_asset a = t_address (n_token network).
Proof.
  unfold acceptFor. destruct (isSvmNetwork network).
  - destruct (Js.truthy (rc_payToSol routeConfig)), (Js.truthy feePayer);
      try discriminate.
    by intros [= <-].
  - by intros [= <-].
Qed.

(** The entries of the listing of accepted networks. *)
Lemma acceptedNetworks_spec env routeConfig n :
  n ∈ acceptedNetworks env routeConfig
  -> exists network,
       SUPPORTED_NETWORKS env (n_caip2 network) = Some network
       /\ an_network n = n_caip2 network
       /\ an_vm n = n_vm network
       /\ an_asset n = t_address (n_token network)
       /\ an_amountRequired n
          = if 0 <? t_decimals (n_token network) - 6
            then rc_priceAtomic routeConfig * 10 ^ (t_decimals (n_token network) - 6)
            else rc_priceAtomic routeConfig.
Proof.
  unfold acceptedNetworks. intros Hn.
  apply list_elem_of_fmap in Hn as ([key network] & -> & Hin).
  apply getActiveNetworks_spec in Hin.
  pose proof (resolved_key_is_caip2 _ _ _ Hin) as Hkey.
  exists network. rewrite Hkey. split; [done |].
  repeat split; reflexivity.
Qed.

(** X16. The listing of accepted networks and the 402 challenge agree:
    every entry of a challenge has an entry in the listing with the same
    network name, asset and amount, and every EVM entry of the listing
    has such an entry in every challenge of the route. *)
Theorem accepted_listing_matches_challenge w routeConfig req :
  let accepts :=
    ch_accepts (headerBase64 (buildPaymentRequired w routeConfig req)) in
  let listing := acceptedNetworks (w_env w) routeConfig in
  (forall a, a ∈ accepts ->
     exists n, n ∈ listing
               /\ an_network n = ac_network a
               /\ an_asset n = ac_asset a
               /\ an_amountRequired n = ac_amount a)
  /\ (forall n, n ∈ listing -> an_vm n = Evm ->
        exists a, a ∈ accepts
                  /\ ac_network a = an_network n
                  /\ ac_asset a = an_asset n
                  /\ ac_amount a = an_amountRequired n).
Proof.
  cbn zeta. split.
  - intros a Ha. apply challenge_accepts in Ha as (network & Hnet & Ha).
    destruct (acceptFor_amount _ _ _ _ _ Ha) as [Hamount Hasset].
    apply acceptFor_network in Ha as Hname.
    apply getActiveNetworks_spec in Hnet.
    eexists. split.
    + unfold acceptedNetworks. apply list_elem_of_fmap.
      exists (n_caip2 network, network). split; [reflexivity | done].
    + by rewrite Hname, Hamount, Hasset.
  - intros n Hn Hvm.
    apply acceptedNetworks_spec in Hn
      as (network & Hnet & Hname & Hvm' & Hasset & Hamount).
    rewrite Hvm' in Hvm.
    assert (Hfor : exists a,
      acceptFor routeConfig (resourceOf req)
        (if existsb isSvmNetwork (supportedValues (w_env w)) then
           match getSvmFacilitator w with
           | Returns feePayerAddress => Some feePayerAddress
           | Throws _ => None
           end
         else None) network = Some a).
    { unfold acceptFor at 1. unfold isSvmNetwork at 1. rewrite Hvm.
      by eexists. }
    destruct Hfor as [a Ha]. exists a.
    destruct (acceptFor_amount _ _ _ _ _ Ha) as [Hamount' Hasset'].
    split; [apply challenge_accepts; by exists network |].
    rewrite (acceptFor_network _ _ _ _ _ Ha). by rewrite Hname, Hasset, Hamount.
Qed.

(** X17. A payment that follows the challenge is accepted. For an entry
    of the challenge of an EVM network without facilitator: an envelope
    that names the entry's network and scheme and authorizes at least the
    entry's amount to the entry's recipient, inside its validity window,
    with a nonce the lookup does not find, a signature that verifies under
    the domain made of the entry's token name and version, the network's
    chain id and the entry's asset, and no balance read below the amount,
    is valid for the local verifier. *)
Theorem payment_following_challenge_is_valid w (s : gmap string Entry)
    routeConfig req a network pp payload auth name version :
  a ∈ ch_accepts (headerBase64 (buildPaymentRequired w routeConfig req)) ->
  SUPPORTED_NETWORKS (w_env w) (ac_network a) = Some network ->
  pathOf network = PathEvm ->
  ac_extra a = ExtraDomain name version ->
  pp_network pp = Some (ac_network a) ->
  pp_scheme pp = Some (ac_scheme a) ->
  pp_payload pp = Some payload ->
  p_authorization payload = Some auth ->
  ac_payTo a = Some (au_to auth) ->
  au_to auth <> "" ->
  ac_amount a <= au_value auth ->
  au_validAfter auth <= w_nowSeconds w <= au_validBefore auth ->
  getNonce (w_storeUp w CallGetNonce) (Js.show (au_nonce auth)) s = None ->
  w_verifyTypedData w (au_from auth)
    {| d_name := name; d_version := version; d_chainId := n_chainId network;
       d_verifyingContract := ac_asset a |}
    (messageOf auth) (p_signature payload) = SigReturns true ->
  (forall balance,
      w_balanceOf w network (au_from auth) = Returns balance ->
      ac_amount a <= balance) ->
  verifyWith w s pp routeConfig req network = VValid None.
Proof.
  intros Ha Hnet Hpath Hextra Hn Hscheme Hp Hauth HpayTo Hne Hv Hwin Hnonce
    Hsig Hbal.
  apply challenge_accepts in Ha as (network' & Hnet' & Ha).
  apply acceptFor_network in Ha as Hname.
  rewrite Hname in Hnet.
  assert (network' = network) as -> by congruence. clear Hnet'.
  assert (isSvmNetwork network = false /\ n_facilitator network = None)
    as [Hsvm Hfac].
  { unfold pathOf in Hpath. destruct (isSvmNetwork network); [discriminate |].
    by destruct (n_facilitator network). }
  apply (acceptFor_evm _ _ _ _ _ Hsvm) in Ha. subst a.
  cbn in Hextra, Hn, Hscheme, HpayTo, Hv, Hsig, Hbal.
  injection Hextra as <- <-. rewrite Hfac in HpayTo. cbn in HpayTo.
  pose proof (supported_decimals _ _ _ Hnet) as Hd.
  rewrite scaled_amount in Hv, Hbal by lia.
  unfold verifyWith. rewrite Hsvm, Hfac.
  apply verifyPaymentEvm_accepts.
  exists payload, auth, network, (au_to auth).
  rewrite Hn. cbn [Js.show]. clear Hname.
  do 10 (split; [done |]). split; [exact Hsig | exact Hbal].
Qed.

(** X18. What the gateway asks a facilitator to check is what the
    challenge announced. For an entry of the challenge whose network has
    an external facilitator, the requirements posted to it carry the
    entry's scheme, amount, recipient, asset, timeout, description and
    MIME type, and the resource of the paying request; for an entry of an
    SVM network, the requirements handed to the SVM library after the
    singleton answered carry the entry's amount, asset, recipient and fee
    payer. *)
Theorem facilitators_check_what_challenge_announced w routeConfig req a network :
  a ∈ ch_accepts (headerBase64 (buildPaymentRequired w routeConfig req)) ->
  SUPPORTED_NETWORKS (w_env w) (ac_network a) = Some network ->
  (forall fac pp req',
      isSvmNetwork network = false ->
      n_facilitator network = Some fac ->
      let r := fb_paymentRequirements
                 (facilitatorBody pp routeConfig (resourceOf req') network fac) in
      req_scheme r = ac_scheme a
      /\ req_amount r = ac_amount a
      /\ req_maxAmountRequired r = ac_maxAmountRequired a
      /\ req_payTo r = ac_payTo a
      /\ req_recipient r = ac_payTo a
      /\ req_asset r = ac_asset a
      /\ req_maxTimeoutSeconds r = ac_maxTimeoutSeconds a
      /\ req_description r = ac_description a
      /\ req_mimeType r = ac_mimeType a
      /\ req_resource r = resourceOf req')
  /\ (forall pp,
        isSvmNetwork network = true ->
        exists feePayer payTo,
          getSvmFacilitator w = Returns feePayer
          /\ Js.truthy (rc_payToSol routeConfig) = Some payTo
          /\ let r := svmRequirements pp routeConfig network payTo feePayer in
             sr_amount r = ac_amount a
             /\ sr_asset r = ac_asset a
             /\ Some (sr_payTo r) = ac_payTo a
             /\ ExtraFeePayer (sr_feePayer r) = ac_extra a).
Proof.
  intros Ha Hnet.
  apply challenge_accepts in Ha as (network' & Hnet' & Ha).
  apply acceptFor_network in Ha as Hname.
  rewrite Hname in Hnet.
  assert (network' = network) as -> by congruence. clear Hnet'.
  split.
  - intros fac pp req' Hsvm Hfac.
    apply (acceptFor_evm _ _ _ _ _ Hsvm) in Ha. subst a.
    rewrite Hfac. cbn. by repeat split.
  - intros pp Hsvm. revert Ha. unfold acceptFor. rewrite Hsvm.
    destruct (Js.truthy (rc_payToSol routeConfig)) as [payTo|]; [| discriminate].
    destruct (existsb _ _); [| discriminate].
    destruct (getSvmFacilitator w) as [feePayer|] eqn:Hfee; [| discriminate].
    rewrite (getSvmFacilitator_nonempty _ _ Hfee).
    intros [= <-]. exists feePayer, payTo. by repeat split.
Qed.

End Challenge.

(* ================================================================== *)
(** ** Further properties of the pipeline *)
(* ================================================================== *)

Section PipelineMore.
Import Redis RedisJs Routes Verifier Builder Pipeline Log Spec More.

(** X19. Nothing happens before a payment verifies. A request whose
    log has no successful verification leaves the store as it found it,
    registers no credit issuance, reserves no nonce, settles nothing and
    touches no credit, and it reaches the backend only through an
    idempotency hit. *)
Theorem unverified_request_changes_nothing w routeKey req
    (s : gmap string Entry) :
  let r := x402PaymentMiddleware w routeKey req s in
  let log := st_log (final r) in
  existsb isVerified log = false ->
  st_store (final r) = s
  /\ st_onFinish (final r) = None
  /\ existsb isReserve log = false
  /\ existsb isSettle log = false
  /\ existsb isCreditOp log = false
  /\ (outcome r = Next -> existsb isLookupHit log = true).
Proof.
  intros r log. subst r log.
  handler_cases w routeKey req s.
  all: intros; try discriminate; repeat split; try reflexivity; intros;
    try discriminate.
Qed.

Lemma setNonceConfirmed_holds up now k meta (s : gmap string Entry) :
  is_Some (s !! nonceKey k) ->
  is_Some (setNonceConfirmed up now k meta s !! nonceKey k).
Proof.
  unfold setNonceConfirmed, SET_EX. destruct up; [| done].
  intros _. cbn. rewrite lookup_insert_eq. eauto.
Qed.

Lemma setNoncePending_taken up now k meta (s s1 : gmap string Entry) e :
  s !! nonceKey k = Some e -> setNoncePending up now k meta s <> (s1, true).
Proof.
  intros He H. apply setNoncePending_acquired in H as [H _]. congruence.
Qed.

(** A request whose nonce key is in the store does not reach settlement. *)
Lemma taken_nonce_never_settles w routeKey req (s : gmap string Entry) k :
  requestNonceKey w routeKey req = Some k ->
  is_Some (s !! nonceKey k) ->
  existsb isSettle (st_log (final (x402PaymentMiddleware w routeKey req s)))
  = false.
Proof.
  intros Hk [e He].
  handler_cases w routeKey req s; try reflexivity.
  all: match goal with
       | H : setNoncePending _ _ _ _ _ = (_, true) |- _ =>
           apply setNoncePending_acquired in H as [H _]
       end.
  all: try match goal with
       | H : decrementCredit _ _ _ _ = (?s1, _), H' : ?s1 !! _ = None |- _ =>
           rewrite (decrementCredit_frame _ _ _ _ _ _ _ H) in H'
             by apply creditKey_not_nonceKey
       end.
  all: congruence.
Qed.

(** A settled request leaves its nonce key in the store. *)
Lemma settled_leaves_nonce w routeKey req (s : gmap string Entry) k :
  requestNonceKey w routeKey req = Some k ->
  existsb isSettled (st_log (final (x402PaymentMiddleware w routeKey req s)))
  = true ->
  is_Some (st_store (final (x402PaymentMiddleware w routeKey req s))
           !! nonceKey k).
Proof.
  intros Hk.
  handler_cases w routeKey req s; try discriminate.
  all: intros _; store_lookup; apply setNonceConfirmed_holds.
  all: match goal with
       | H : setNoncePending _ _ _ _ _ = (_, true) |- _ =>
           apply setNoncePending_acquired in H as [_ ->]
       end; rewrite lookup_insert_eq; eauto.
Qed.

(** X20. Replay protection through the nonce store. A request whose
    nonce key (the authorization nonce on the local-EVM path, 'svm:' +
    sha256 of the transaction on the SVM path) is present in the store
    never reaches settlement, whether or not the store calls go through.
    A request that settles leaves its nonce key in the store, so that no
    request with the same nonce key served on the resulting store
    settles again. *)
Theorem settled_nonce_blocks_replay w routeKey req (s : gmap string Entry) k :
  requestNonceKey w routeKey req = Some k ->
  let r := x402PaymentMiddleware w routeKey req s in
  (is_Some (s !! nonceKey k) -> existsb isSettle (st_log (final r)) = false)
  /\ (existsb isSettled (st_log (final r)) = true ->
      is_Some (st_store (final r) !! nonceKey k)
      /\ forall w' routeKey' req',
           requestNonceKey w' routeKey' req' = Some k ->
           existsb isSettle
             (st_log (final (x402PaymentMiddleware w' routeKey' req'
                               (st_store (final r))))) = false).
Proof.
  intros Hk r. subst r. split.
  - by apply taken_nonce_never_settles.
  - intros Hsettled.
    pose proof (settled_leaves_nonce _ _ _ _ _ Hk Hsettled) as Hleft.
    split; [done |]. intros w' routeKey' req' Hk'.
    by apply taken_nonce_never_settles with (k := k).
Qed.

End PipelineMore.

Section Responses.
Import Redis RedisJs Routes Verifier Builder Pipeline Log Spec More.

(* The challenge stays folded while the handler is unfolded. *)
Local Opaque Builder.buildPaymentRequired.

(** X21. The responses the middleware sends itself. The status is 500
    exactly when the route key is not configured, 400 exactly when the
    payment header is present and does not decode, and 402 otherwise. A
    500 or 400 is sent before anything else is done. A response never
    carries a receipt or a credit header and registers no credit
    issuance: its only header is PAYMENT-REQUIRED, sent exactly when the
    body carries the challenge, and header and body are those built for
    this route and request. *)
Theorem middleware_responses_are_classified w routeKey req
    (s : gmap string Entry) status json :
  let r := x402PaymentMiddleware w routeKey req s in
  outcome r = Respond status json ->
  (status = 500 <-> w_routes w !! routeKey = None)
  /\ (status = 400 <->
      exists routeConfig paymentHeader,
        w_routes w !! routeKey = Some routeConfig
        /\ Js.truthy (Js.or (rq_headers req !! "payment-signature")
                            (rq_headers req !! "x-payment")) = Some paymentHeader
        /\ w_decode w paymentHeader = None)
  /\ (status = 500 \/ status = 400 \/ status = 402)
  /\ (status <> 402 -> st_log (final r) = [] /\ st_store (final r) = s)
  /\ st_onFinish (final r) = None
  /\ (forall c, rb_challenge json = Some c ->
      exists routeConfig,
        w_routes w !! routeKey = Some routeConfig
        /\ c = body (buildPaymentRequired w routeConfig req)
        /\ st_headers (final r)
           = [("PAYMENT-REQUIRED",
               HChallenge (headerBase64 (buildPaymentRequired w routeConfig req)))])
  /\ (rb_challenge json = None -> st_headers (final r) = []).
Proof.
  intros r. subst r.
  handler_cases w routeKey req s; intros Hout; try discriminate Hout;
    injection Hout as <- <-.
  all: repeat split; intros; try discriminate; try reflexivity; try lia;
    try congruence; simplify_eq/=; eauto 10.
  all: try match goal with
       | H : exists _ _, _ |- _ => destruct H as (? & ? & ? & ? & ?)
       end; try congruence.
Qed.

End Responses.

Section Issuance.
Import Redis RedisJs Routes Verifier Builder Pipeline Log Spec More Index.









End Issuance.

Section Retry.
Import Redis RedisJs Routes Verifier Builder Pipeline Log Spec More.

(** A settled request with a paymentId caches its receipt. *)
Lemma settled_caches_receipt w routeKey req (s : gmap string Entry) id :
  requestPaymentId w routeKey req = Some id ->
  existsb isSettled (st_log (final (x402PaymentMiddleware w routeKey req s)))
  = true ->
  w_storeUp w CallSetIdempotency = true ->
  exists d,
    st_headers (final (x402PaymentMiddleware w routeKey req s))
    = [("PAYMENT-RESPONSE", HReceipt (Base64Json d))]
    /\ st_store (final (x402PaymentMiddleware w routeKey req s))
       !! idempotencyKey id
       = Some {| e_value :=
                   VIdem {| id_timestamp := w_nowMillis w;
                            id_response :=
                              Some {| ir_paymentResponseHeader :=
                                        Some (Base64Json d);
                                      ir_settlement := Some d |} |};
                 e_ttl := Some 3600 |}.
Proof.
  intros Hid.
  handler_cases w routeKey req s; try discriminate.
  all: intros _ Hup; rewrite Hup; eexists; split; [reflexivity |].
  all: unfold setIdempotencyCache, SET_EX; cbn [fst];
    by rewrite lookup_insert_eq.
Qed.

(** A request whose paymentId has a cached response is a hit. *)
Lemma cached_response_hit w routeKey req (s : gmap string Entry) id e record :
  requestPaymentId w routeKey req = Some id ->
  w_storeUp w CallGetIdempotency = true ->
  s !! idempotencyKey id = Some e ->
  e_value e = VIdem record ->
  x402PaymentMiddleware w routeKey req s
  = {| outcome := Next; final := hitState id (VIdem record) (initial s) |}.
Proof.
  intros Hid Hup He Hrecord.
  unfold requestPaymentId, envelopeOf in Hid.
  unfold x402PaymentMiddleware, handler.
  destruct (w_routes w !! routeKey) as [routeConfig|]; [| discriminate].
  destruct (Js.truthy _) as [paymentHeader|]; [| discriminate].
  destruct (w_decode w paymentHeader) as [pp|]; [| discriminate].
  rewrite Hid.
  assert (Hcached : getIdempotencyCache (w_storeUp w CallGetIdempotency) id
                      (st_store (initial s)) = Some (VIdem record)).
  { rewrite Hup. unfold getIdempotencyCache, GET. cbn [initial st_store].
    by rewrite He, Hrecord. }
  by rewrite (bind_finish _ _ _ _ _ (idempotencyCheck_hit w id (initial s) _ Hcached)).
Qed.

(** X26. A retry under the same paymentId replays the receipt. When a
    request that carries a paymentId settles and its cache write reaches
    the store, any later request with that paymentId served on the
    resulting store, with the lookup reaching the store, proceeds to the
    backend at once with the PAYMENT-RESPONSE header of the first
    request: the lookup is its only action and the store stays as it
    is. *)
Theorem retry_replays_receipt w routeKey req (s : gmap string Entry) id :
  requestPaymentId w routeKey req = Some id ->
  let r := x402PaymentMiddleware w routeKey req s in
  existsb isSettled (st_log (final r)) = true ->
  w_storeUp w CallSetIdempotency = true ->
  exists receipt,
    st_headers (final r) = [("PAYMENT-RESPONSE", HReceipt receipt)]
    /\ forall w' routeKey' req',
         requestPaymentId w' routeKey' req' = Some id ->
         w_storeUp w' CallGetIdempotency = true ->
         let r' := x402PaymentMiddleware w' routeKey' req' (st_store (final r)) in
         outcome r' = Next
         /\ st_log (final r') = [EvIdempotencyLookup (idempotencyKey id) true]
         /\ st_headers (final r') = [("PAYMENT-RESPONSE", HReceipt receipt)]
         /\ st_store (final r') = st_store (final r)
         /\ st_onFinish (final r') = None.
Proof.
  intros Hid r Hsettled Hup. subst r.
  destruct (settled_caches_receipt _ _ _ _ _ Hid Hsettled Hup)
    as (d & Hheaders & Hstore).
  exists (Base64Json d). split; [exact Hheaders |].
  intros w' routeKey' req' Hid' Hup' r'. subst r'.
  by rewrite (cached_response_hit _ _ _ _ _ _ _ Hid' Hup' Hstore eq_refl).
Qed.

End Retry.

(* ================================================================== *)
(** ** The proxy and the paid route *)
(* ================================================================== *)

Section ProxyFacts.
Import Proxy Index More.

(** X24. What the backend request carries. Its headers are the three
    fixed ones, the API key under its configured name, X-Forwarded-For,
    X-Forwarded-Proto and X-x402-Payer, and nothing else: no header of
    the client is passed on, the payment header included. X-x402-Payer is
    the client's own x-x402-payer header, or 'unknown' without one. The
    API key is sent whenever key and header name are set, unless the
    name is that of a forwarded header, which is written after it. A
    body is sent only with POST, PUT and PATCH; as the paid route forces
    no method, a request with another method reaches the backend without
    body and its query parameters are dropped. *)
Theorem backend_request_carries b req apiKey apiKeyHeader forceMethod :
  let opts := fetchOptionsOf b req apiKey apiKeyHeader forceMethod in
  fo_headers opts !! "X-x402-Payer"
  = Some (Js.nullish
            (Js.truthy (rq_headers (hr_request req) !! "x-x402-payer"))
            "unknown")
  /\ (forall name,
        name ∉ ["Content-Type"; "Accept"; "User-Agent"; "X-Forwarded-For";
                "X-Forwarded-Proto"; "X-x402-Payer"] ->
        Js.truthy apiKeyHeader <> Some name ->
        fo_headers opts !! name = None)
  /\ (forall key name,
        Js.truthy apiKey = Some key ->
        Js.truthy apiKeyHeader = Some name ->
        name ∉ ["X-Forwarded-For"; "X-Forwarded-Proto"; "X-x402-Payer"] ->
        fo_headers opts !! name = Some key)
  /\ (is_Some (fo_body opts) -> takesBody (fo_method opts) = true)
  /\ (forceMethod = None -> takesBody (hr_method req) = false ->
      fo_body opts = None
      /\ forall query,
           fetchOptionsOf b
             {| hr_request := hr_request req; hr_method := hr_method req;
                hr_body := hr_body req; hr_query := query;
                hr_ip := hr_ip req; hr_params := hr_params req |}
             apiKey apiKeyHeader forceMethod = opts).
Proof.
  cbn zeta. unfold fetchOptionsOf. cbn [fo_headers fo_body fo_method].
  split; [| split; [| split; [| split]]].
  - unfold headersOf. by rewrite lookup_insert_eq.
  - intros name Hname Hkey. unfold headersOf.
    repeat (apply not_elem_of_cons in Hname as [? Hname]).
    rewrite !lookup_insert_ne by done.
    destruct (Js.truthy (hr_ip req)); rewrite ?lookup_insert_ne by done.
    all: destruct (Js.truthy apiKey), (Js.truthy apiKeyHeader) as [h|];
      rewrite ?lookup_insert_ne by congruence.
    all: rewrite ?lookup_insert_ne by done; apply lookup_empty.
  - unfold headersOf. intros key name -> -> Hname.
    repeat (apply not_elem_of_cons in Hname as [? Hname]).
    rewrite !lookup_insert_ne by done.
    destruct (Js.truthy (hr_ip req)); rewrite ?lookup_insert_ne by done.
    all: by rewrite lookup_insert_eq.
  - destruct (takesBody _); [done |]. by intros [? [=]].
  - intros -> Hm. cbn [Js.nullish Js.truthy]. rewrite Hm.
    split; [done |]. intros query. unfold headersOf.
    cbn [hr_method hr_request hr_ip]. by rewrite Hm.
Qed.


End ProxyFacts.

(* ================================================================== *)
(** ** The further properties on concrete requests *)
(* ================================================================== *)

Section MoreInstances.
Import Redis RedisJs Routes Verifier Builder Pipeline Log Spec Examples.
Import Clients Proxy Index More MoreExamples.

Lemma reserve_then_release_restores_witness :
  emptyStore !! nonceKey nonce1 = None
  /\ deleteNonce true nonce1
       (setNoncePending true 1 nonce1 noMeta emptyStore).1 = emptyStore.
Proof.
  split; [reflexivity |].
  exact (proj1 (proj2 (proj2 (reserve_then_release_restores
                                1 nonce1 noMeta emptyStore eq_refl)))).
Defined.

Lemma idempotency_cache_round_trip_witness :
  paymentId2 <> paymentId1
  /\ getIdempotencyCache true paymentId2
       (setIdempotencyCache true 5 paymentId1 response1 cachedReceipt)
     = getIdempotencyCache true paymentId2 cachedReceipt.
Proof.
  split; [discriminate |].
  apply (proj2 (proj2 (idempotency_cache_round_trip
                         5 paymentId1 response1 cachedReceipt))).
  discriminate.
Defined.

Lemma credit_reads_agree_with_scripts_witness :
  safeCounter (creditKey alice "myapi") oneCredit
  /\ (decrementCredit true alice "myapi" oneCredit).2 = true
  /\ getCreditCount true alice "myapi"
       (decrementCredit true alice "myapi" oneCredit).1
     = getCreditCount true alice "myapi" oneCredit - 1
  /\ getCreditCount true alice "myapi"
       (incrementCredit true alice "myapi" 10 86400 oneCredit).1
     = 2.
Proof.
  assert (Hsafe : safeCounter (creditKey alice "myapi") oneCredit).
  { intros n Hn. vm_compute in Hn. injection Hn as <-. vm_compute.
    split; discriminate. }
  destruct (credit_reads_agree_with_scripts alice "myapi" oneCredit Hsafe)
    as (_ & Hdec & _ & Hinc & _).
  split; [exact Hsafe |]. split; [vm_compute; reflexivity |]. split.
  - apply Hdec. vm_compute. reflexivity.
  - apply (proj1 (Hinc 10 86400 eq_refl ltac:(vm_compute; discriminate)
                    ltac:(vm_compute; discriminate))).
Defined.

Lemma credit_counters_are_scoped_witness :
  noColon alice = true
  /\ noColon aliceLower = true
  /\ creditKey alice "myapi" = creditKey aliceLower "myapi".
Proof.
  split; [reflexivity |]. split; [reflexivity |].
  apply (proj1 (credit_counters_are_scoped alice aliceLower "myapi" "myapi"
                  eq_refl eq_refl)).
  split; reflexivity.
Defined.

Lemma supported_networks_are_the_active_ones_witness :
  SUPPORTED_NETWORKS envBase "eip155:8453" = Some BASE
  /\ isSet envBase (n_rpcEnvVar BASE) = true
  /\ n_caip2 BASE = "eip155:8453".
Proof.
  assert (H : SUPPORTED_NETWORKS envBase "eip155:8453" = Some BASE)
    by (vm_compute; reflexivity).
  destruct (supported_networks_are_the_active_ones envBase "eip155:8453" BASE)
    as (Hiff & Hname & _).
  split; [exact H |]. split.
  - exact (proj1 (proj2 (proj1 Hiff H))).
  - exact (Hname H).
Defined.

Lemma resolved_network_has_endpoint_witness :
  SUPPORTED_NETWORKS envBase "eip155:8453" = Some BASE
  /\ settlePaymentEvm (world envBase myapi allUp) baseEnvelope
     = Returns {| se_txHash := Some "0xabcd";
                  se_network := Some "eip155:8453";
                  se_blockNumber := Some 42;
                  se_payer := None; se_facilitator := None |}.
Proof.
  assert (H : SUPPORTED_NETWORKS (w_env (world envBase myapi allUp))
                (Js.show (pp_network baseEnvelope)) = Some BASE)
    by (vm_compute; reflexivity).
  split; [exact H |].
  exact (proj2 (resolved_network_has_endpoint
                  (world envBase myapi allUp) baseEnvelope BASE H)
           evmPayload authorization1 eq_refl eq_refl).
Defined.

Lemma public_client_is_built_once_witness :
  exists client,
    getPublicClient envBase BASE emptyCache
    = (<[Some 8453 := client]> emptyCache, Some client)
    /\ getPublicClient envMega BASE (<[Some 8453 := client]> emptyCache)
       = (<[Some 8453 := client]> emptyCache, Some client).
Proof.
  destruct (public_client_is_built_once envBase "eip155:8453" BASE emptyCache)
    as (chain & rpcUrl & _ & _ & Hfirst & Hagain).
  - vm_compute. reflexivity.
  - reflexivity.
  - reflexivity.
  - eexists. split; [exact Hfirst | exact (Hagain envMega)].
Defined.

Lemma local_verifier_accepts_iff_witness :
  verifyPaymentEvm (world envBase myapi allUp) emptyStore baseEnvelope myapi
  = VValid None.
Proof.
  apply (proj2 (local_verifier_accepts_iff (world envBase myapi allUp)
                  emptyStore baseEnvelope myapi None)).
  split; [reflexivity |].
  exists evmPayload, authorization1, BASE, merchant.
  split; [reflexivity |]. split; [reflexivity |].
  split; [vm_compute; reflexivity |]. split; [reflexivity |].
  split; [vm_compute; discriminate |]. split; [reflexivity |].
  split; [discriminate |]. split; [reflexivity |].
  split; [split; vm_compute; discriminate |].
  split; [vm_compute; reflexivity |]. split; [vm_compute; reflexivity |].
  intros balance [= <-]. vm_compute. discriminate.
Defined.

Lemma facilitator_settles_what_it_verified_witness :
  verifyWith (world envMega myapi allUp) emptyStore megaEnvelope myapi
    (request "mega") MEGAETH = VValid None
  /\ exists settled,
       settlePayment (world envMega myapi allUp) megaEnvelope myapi
         (request "mega") MEGAETH = Returns settled
       /\ se_facilitator settled = Some "https://api.mrdn.finance/v1".
Proof.
  destruct (facilitator_settles_what_it_verified
              (world envMega myapi allUp) emptyStore megaEnvelope myapi
              (request "mega") MEGAETH meridian None eq_refl eq_refl)
    as [Hiff Hsettle].
  assert (Hvalid : verifyWith (world envMega myapi allUp) emptyStore
                     megaEnvelope myapi (request "mega") MEGAETH = VValid None).
  { apply Hiff. exists "key", 200, facilitatorOk.
    split; [vm_compute; reflexivity |]. repeat split. }
  split; [exact Hvalid |].
  destruct (Hsettle Hvalid) as (apiKey & Hkey & Hreturns).
  eexists. split.
  - apply Hreturns. exists 200, facilitatorOk. repeat split.
  - reflexivity.
Defined.

Lemma svm_settles_what_it_verified_witness :
  verifyWith worldSol emptyStore solEnvelope myapiSol (request "sol")
    SOLANA_MAINNET = VValid (Some bob)
  /\ exists settled,
       settlePayment worldSol solEnvelope myapiSol (request "sol")
         SOLANA_MAINNET = Returns settled
       /\ se_payer settled = Some bob.
Proof.
  destruct (svm_settles_what_it_verified worldSol emptyStore solEnvelope
              myapiSol (request "sol") SOLANA_MAINNET (Some bob) eq_refl)
    as [Hiff Hsettle].
  assert (Hvalid : verifyWith worldSol emptyStore solEnvelope myapiSol
                     (request "sol") SOLANA_MAINNET = VValid (Some bob)).
  { apply Hiff. exists feePayer1, treasury.
    eexists. split; [vm_compute; reflexivity |]. repeat split. }
  split; [exact Hvalid |].
  destruct (Hsettle Hvalid) as (feePayer & payTo & _ & _ & Hreturns).
  eexists. split.
  - apply Hreturns. eexists. repeat split.
  - reflexivity.
Defined.

Lemma payment_identifier_accepted_iff_witness :
  extractPaymentIdentifier idOnlyEnvelope = Some paymentId1.
Proof.
  apply (proj2 (payment_identifier_accepted_iff idOnlyEnvelope paymentId1)).
  eexists. split; [reflexivity |]. split; [reflexivity |].
  split; [split; vm_compute; discriminate |].
  repeat constructor.
Defined.

Lemma challenge_covers_active_networks_witness :
  exists a,
    a ∈ ch_accepts (headerBase64 (buildPaymentRequired
                                   (world envBase myapi allUp) myapi bareRequest))
    /\ ac_network a = "eip155:8453".
Proof.
  apply (proj2 (proj1 (proj2 (proj2 (challenge_covers_active_networks
                  (world envBase myapi allUp) myapi bareRequest)))
                  "eip155:8453" BASE ltac:(vm_compute; reflexivity))).
  discriminate.
Defined.

Lemma accepted_listing_matches_challenge_witness :
  exists n,
    n ∈ acceptedNetworks envBase myapi
    /\ an_network n = "eip155:8453"
    /\ an_amountRequired n = 10000.
Proof.
  destruct (proj1 (accepted_listing_matches_challenge
                     (world envBase myapi allUp) myapi bareRequest) baseAccept)
    as (n & Hin & Hname & _ & Hamount).
  - vm_compute. apply list_elem_of_here.
  - exists n. split; [exact Hin |]. split; [exact Hname | exact Hamount].
Defined.

Lemma payment_following_challenge_is_valid_witness :
  verifyWith (world envBase myapi allUp) emptyStore baseEnvelope myapi
    (request "base") BASE = VValid None.
Proof.
  apply (payment_following_challenge_is_valid (world envBase myapi allUp)
           emptyStore myapi bareRequest baseAccept BASE baseEnvelope
           evmPayload authorization1 "USD Coin" (Some "2")).
  - vm_compute. apply list_elem_of_here.
  - vm_compute. reflexivity.
  - reflexivity.
  - reflexivity.
  - reflexivity.
  - reflexivity.
  - reflexivity.
  - reflexivity.
  - reflexivity.
  - discriminate.
  - vm_compute. discriminate.
  - split; vm_compute; discriminate.
  - vm_compute. reflexivity.
  - vm_compute. reflexivity.
  - intros balance [= <-]. vm_compute. discriminate.
Defined.

Lemma facilitators_check_what_challenge_announced_witness :
  let r := fb_paymentRequirements
             (facilitatorBody megaEnvelope myapi (resourceOf (request "mega"))
                MEGAETH meridian) in
  req_payTo r = ac_payTo megaAccept /\ req_amount r = ac_amount megaAccept.
Proof.
  destruct (proj1 (facilitators_check_what_challenge_announced
                     (world envMega myapi allUp) myapi bareRequest megaAccept
                     MEGAETH
                     ltac:(vm_compute; apply list_elem_of_here)
                     ltac:(vm_compute; reflexivity))
              meridian megaEnvelope (request "mega") eq_refl eq_refl)
    as (_ & Hamount & _ & HpayTo & _).
  split; [exact HpayTo | exact Hamount].
Defined.

Lemma backend_request_carries_witness :
  let opts := fetchOptionsOf backend (httpRequest "base") (Some "secret")
                (Some "x-api-key") None in
  fo_headers opts !! "payment-signature" = None
  /\ fo_headers opts !! "x-api-key" = Some "secret"
  /\ fo_body opts = None.
Proof.
  destruct (backend_request_carries backend (httpRequest "base")
              (Some "secret") (Some "x-api-key") None)
    as (_ & Hnone & Hkey & _ & Hbody).
  split; [| split].
  - apply Hnone; [| vm_compute; discriminate].
    apply (bool_decide_unpack _). vm_compute. exact I.
  - apply Hkey; [reflexivity | reflexivity |].
    apply (bool_decide_unpack _). vm_compute. exact I.
  - apply Hbody; reflexivity.
Defined.


Lemma unverified_request_changes_nothing_witness :
  let r := x402PaymentMiddleware (world envBase myapi allUp) "myapi"
             bareRequest usedNonce in
  existsb isVerified (st_log (final r)) = false
  /\ st_store (final r) = usedNonce
  /\ st_onFinish (final r) = None.
Proof.
  intros r.
  assert (H : existsb isVerified (st_log (final r)) = false)
    by (vm_compute; reflexivity).
  destruct (unverified_request_changes_nothing
              (world envBase myapi allUp) "myapi" bareRequest usedNonce H)
    as (Hstore & Hfin & _).
  split; [exact H |]. split; [exact Hstore | exact Hfin].
Defined.

Lemma settled_nonce_blocks_replay_witness :
  let r := x402PaymentMiddleware (world envBase myapi allUp) "myapi"
             (request "base") emptyStore in
  existsb isSettled (st_log (final r)) = true
  /\ existsb isSettle
       (st_log (final (x402PaymentMiddleware (world envBase myapi allUp)
                         "myapi" (request "base") (st_store (final r)))))
     = false.
Proof.
  intros r.
  assert (Hk : requestNonceKey (world envBase myapi allUp) "myapi"
                 (request "base") = Some nonce1)
    by (vm_compute; reflexivity).
  assert (Hsettled : existsb isSettled (st_log (final r)) = true)
    by (vm_compute; reflexivity).
  split; [exact Hsettled |].
  exact (proj2 (proj2 (settled_nonce_blocks_replay
                         (world envBase myapi allUp) "myapi" (request "base")
                         emptyStore nonce1 Hk) Hsettled)
           (world envBase myapi allUp) "myapi" (request "base") Hk).
Defined.

Lemma middleware_responses_are_classified_witness :
  let r := x402PaymentMiddleware (world envBase myapi allUp) "myapi"
             bareRequest emptyStore in
  exists status json,
    outcome r = Respond status json
    /\ (status = 500 \/ status = 400 \/ status = 402)
    /\ st_onFinish (final r) = None.
Proof.
  intros r.
  assert (H : exists status json, outcome r = Respond status json)
    by (vm_compute; eauto).
  destruct H as (status & json & Hout).
  destruct (middleware_responses_are_classified
              (world envBase myapi allUp) "myapi" bareRequest emptyStore
              status json Hout)
    as (_ & _ & Hstatus & _ & Hfin & _).
  exists status, json. split; [exact Hout |]. split; [exact Hstatus | exact Hfin].
Defined.



Lemma retry_replays_receipt_witness :
  let r := x402PaymentMiddleware worldRetry "myapi" (request "retry")
             emptyStore in
  let r' := x402PaymentMiddleware worldRetry "myapi" (request "retry")
              (st_store (final r)) in
  existsb isSettled (st_log (final r)) = true
  /\ outcome r' = Next
  /\ st_log (final r') = [EvIdempotencyLookup (idempotencyKey paymentId1) true].
Proof.
  intros r r'.
  assert (Hid : requestPaymentId worldRetry "myapi" (request "retry")
                = Some paymentId1)
    by (vm_compute; reflexivity).
  assert (Hsettled : existsb isSettled (st_log (final r)) = true)
    by (vm_compute; reflexivity).
  destruct (retry_replays_receipt worldRetry "myapi" (request "retry")
              emptyStore paymentId1 Hid Hsettled eq_refl)
    as (receipt & _ & Hagain).
  destruct (Hagain worldRetry "myapi" (request "retry") Hid eq_refl)
    as (Hout & Hlog & _).
  split; [exact Hsettled |]. split; [exact Hout | exact Hlog].
Defined.

End MoreInstances.
